(** * lovecraftbot: the Blob session and the mass multiplayer event channels

    A shallow embedding of [domain/BlobGame], [services/BlobGameService.ts]
    and [services/MassMultiplayerEventService.ts], with the properties of
    the session state machine, of the orchestration service and of the
    channel-group registry.

    TypeScript [number]s hold integers here (player counts, damage, clues,
    timestamps in milliseconds); they are embedded as [Z], which is exact
    for integers below 2^53.  The objects of a dictionary keyed by guild
    id are a [gmap string _]; arrays are lists. *)

From Stdlib Require Import ZArith QArith Qround Lia.
From stdpp Require Import gmap strings list fin_maps pretty.

Local Open Scope Z_scope.

(** ** JavaScript basics *)

Module Js.

(** What a [throw] or a rejected promise carries. *)
Inductive thrown : Type :=
| NotAPossibleStory (story : string)
    (* new Error(`"${story}" n'est pas une valeur possible de story.`) *)
| TypeError
    (* a property read on [undefined] *)
| ConfigurationMissing
    (* MassMultiplayerEventServiceError.configurationMissing() *)
| EventCategoryNotFound (categoryName : string)
    (* MassMultiplayerEventServiceError.eventCategoryNotFound(name) *)
| Rejected
    (* Promise.reject() without a reason *)
| WriteFailed
    (* the rejection of a failed write of the resource store *)
| DiscordAPIError
    (* the rejection of a request that the messaging platform refuses *)
| DiscordjsError.
    (* the error of the library for an argument it does not take, thrown
       before any request *)

(** How a call ends: normally with a value, or abruptly. *)
Inductive completion (A : Type) : Type :=
| Return (a : A)
| Throw (e : thrown).
Arguments Return {A} a.
Arguments Throw {A} e.

(** [!s] on [string | undefined]: [undefined] and the empty string are
    falsy. *)
Definition truthy (s : option string) : bool :=
  match s with
  | None => false
  | Some s => negb (String.eqb s "")
  end.

(** [a[i]] on an array: [undefined] out of range. *)
Definition index {A} (a : list A) (i : Z) : option A :=
  if i <? 0 then None else a !! Z.to_nat i.

(** [Array.prototype.includes] on an array of strings. *)
Definition includes (a : list string) (s : string) : bool :=
  existsb (String.eqb s) a.

(** [Math.ceil(n / d)] for integers [n] and [d > 0]: the division is the
    rational one, then rounded up. *)
Definition ceil_div (n : Z) (d : positive) : Z := Qceiling (n # d).

Section Sort.
Context {A : Type} (compareFn : A -> A -> Z).

(** [Array.prototype.sort(compareFn)] is stable: an element stays before
    the later elements it compares equal to.  Insertion from the right
    gives that order. *)
Fixpoint insert_sorted (x : A) (l : list A) : list A :=
  match l with
  | [] => [x]
  | y :: l' =>
      if compareFn x y <=? 0 then x :: y :: l'
      else y :: insert_sorted x l'
  end.

Fixpoint sort (l : list A) : list A :=
  match l with
  | [] => []
  | x :: l' => insert_sorted x (sort l')
  end.
End Sort.

(** [Promise.all] of promises that have settled: the values, in the order
    of the array, or a rejection.  With several rejections the one that
    comes first in time wins; the order of the array is taken for it. *)
Fixpoint promiseAll {A} (settled : list (completion A))
  : completion (list A) :=
  match settled with
  | [] => Return []
  | Return a :: rest =>
      match promiseAll rest with
      | Return values => Return (a :: values)
      | Throw e => Throw e
      end
  | Throw e :: _ => Throw e
  end.

End Js.

Import Js.

(** ** domain/BlobGame *)

Module BlobGame.

Definition PER_INVESTIGATOR_TOTAL_HEALTH : Z := 15.
Definition PER_INVESTIGATOR_ACT1_CLUE_THRESHOLD : Z := 15.
Definition POSSIBLE_STORIES : list string :=
  [ "RESCUE_THE_CHEMIST";
    "RECOVER_THE_SAMPLE";
    "DRIVE_OFF_THE_MIGO";
    "DEFUSE_THE_EXPLOSIVES" ]%string.

(** Modelled from the spec: the field [dateEnded], which
    [BlobGameService] reads through [getDateEnded] and sets through
    [endGame], is not in the class among the sources; the spec gives
    "dateEnded: optional timestamp; absence means the session is
    running".  The other fields are those of the class.  Dates are
    milliseconds since the epoch. *)
Record t : Type := mk {
  id : Z;
  dateCreated : Z;
  dateEnded : option Z;
  numberOfPlayers : Z;
  numberOfDamageDealtToBlob : Z;
  numberOfCluesOnAct1 : Z;
  numberOfCounterMeasures : Z;
  story : option string
}.

Definition constructor (id_ dateCreated_ numberOfPlayers_ : Z) : t :=
  {| id := id_;
     dateCreated := dateCreated_;
     dateEnded := None;
     numberOfPlayers := numberOfPlayers_;
     numberOfDamageDealtToBlob := 0;
     numberOfCluesOnAct1 := 0;
     numberOfCounterMeasures := ceil_div numberOfPlayers_ 2;
     story := None |}.

Definition getId (g : t) : Z := id g.
Definition getDateCreated (g : t) : Z := dateCreated g.

(** Modelled from the spec: [getDateEnded] is not in the class among the
    sources; "dateEnded: optional timestamp". *)
Definition getDateEnded (g : t) : option Z := dateEnded g.

Definition getNumberOfPlayers (g : t) : Z := numberOfPlayers g.

Definition getBlobTotalHealth (g : t) : Z :=
  numberOfPlayers g * PER_INVESTIGATOR_TOTAL_HEALTH.

Definition getNumberOfDamageDealtToBlob (g : t) : Z :=
  numberOfDamageDealtToBlob g.

Definition getBlobRemainingHealth (g : t) : Z :=
  getBlobTotalHealth g - numberOfDamageDealtToBlob g.

Definition dealDamageToBlob (amount : Z) (g : t) : t :=
  {| id := id g; dateCreated := dateCreated g; dateEnded := dateEnded g;
     numberOfPlayers := numberOfPlayers g;
     numberOfDamageDealtToBlob := numberOfDamageDealtToBlob g + amount;
     numberOfCluesOnAct1 := numberOfCluesOnAct1 g;
     numberOfCounterMeasures := numberOfCounterMeasures g;
     story := story g |}.

Definition getAct1ClueThreshold (g : t) : Z :=
  numberOfPlayers g * PER_INVESTIGATOR_ACT1_CLUE_THRESHOLD.

Definition getNumberOfCluesOnAct1 (g : t) : Z := numberOfCluesOnAct1 g.

Definition placeCluesOnAct1 (numberOfClues : Z) (g : t) : t :=
  {| id := id g; dateCreated := dateCreated g; dateEnded := dateEnded g;
     numberOfPlayers := numberOfPlayers g;
     numberOfDamageDealtToBlob := numberOfDamageDealtToBlob g;
     numberOfCluesOnAct1 := numberOfCluesOnAct1 g + numberOfClues;
     numberOfCounterMeasures := numberOfCounterMeasures g;
     story := story g |}.

Definition getNumberOfCounterMeasures (g : t) : Z :=
  numberOfCounterMeasures g.

Definition gainCounterMeasures (n : Z) (g : t) : t :=
  {| id := id g; dateCreated := dateCreated g; dateEnded := dateEnded g;
     numberOfPlayers := numberOfPlayers g;
     numberOfDamageDealtToBlob := numberOfDamageDealtToBlob g;
     numberOfCluesOnAct1 := numberOfCluesOnAct1 g;
     numberOfCounterMeasures := numberOfCounterMeasures g + n;
     story := story g |}.

Definition spendCounterMeasures (n : Z) (g : t) : t :=
  {| id := id g; dateCreated := dateCreated g; dateEnded := dateEnded g;
     numberOfPlayers := numberOfPlayers g;
     numberOfDamageDealtToBlob := numberOfDamageDealtToBlob g;
     numberOfCluesOnAct1 := numberOfCluesOnAct1 g;
     numberOfCounterMeasures := numberOfCounterMeasures g - n;
     story := story g |}.

Definition getStory (g : t) : option string := story g.

(** [chooseStory] throws before the assignment when the value is not one
    of the possible stories: the object it returns with is the one it was
    called on. *)
Definition chooseStory (story_ : string) (g : t) : completion unit * t :=
  if negb (includes POSSIBLE_STORIES story_) then
    (Throw (NotAPossibleStory story_), g)
  else
    (Return tt,
     {| id := id g; dateCreated := dateCreated g; dateEnded := dateEnded g;
        numberOfPlayers := numberOfPlayers g;
        numberOfDamageDealtToBlob := numberOfDamageDealtToBlob g;
        numberOfCluesOnAct1 := numberOfCluesOnAct1 g;
        numberOfCounterMeasures := numberOfCounterMeasures g;
        story := Some story_ |}).

(** Modelled from the spec: [endGame] is not in the class among the
    sources; "end: stamps dateEnded = now". *)
Definition endGame (dateEnded_ : Z) (g : t) : t :=
  {| id := id g; dateCreated := dateCreated g; dateEnded := Some dateEnded_;
     numberOfPlayers := numberOfPlayers g;
     numberOfDamageDealtToBlob := numberOfDamageDealtToBlob g;
     numberOfCluesOnAct1 := numberOfCluesOnAct1 g;
     numberOfCounterMeasures := numberOfCounterMeasures g;
     story := story g |}.

(** The mutating methods of the class, as data, to speak of sequences of
    calls on one object. *)
Inductive call : Type :=
| DealDamageToBlob (amount : Z)
| PlaceCluesOnAct1 (numberOfClues : Z)
| GainCounterMeasures (n : Z)
| SpendCounterMeasures (n : Z)
| ChooseStory (story_ : string).

Definition perform (c : call) (g : t) : t :=
  match c with
  | DealDamageToBlob amount => dealDamageToBlob amount g
  | PlaceCluesOnAct1 n => placeCluesOnAct1 n g
  | GainCounterMeasures n => gainCounterMeasures n g
  | SpendCounterMeasures n => spendCounterMeasures n g
  | ChooseStory s => snd (chooseStory s g)
  end.

Definition performAll (cs : list call) (g : t) : t :=
  fold_left (fun g c => perform c g) cs g.

(** The amount a call adds to the damage or to the clues. *)
Definition amountOf (c : call) : Z :=
  match c with
  | DealDamageToBlob amount => amount
  | PlaceCluesOnAct1 n => n
  | _ => 0
  end.

(** What a call adds to each of the three counters. *)
Definition damageOf (c : call) : Z :=
  match c with DealDamageToBlob amount => amount | _ => 0 end.

Definition cluesOf (c : call) : Z :=
  match c with PlaceCluesOnAct1 n => n | _ => 0 end.

Definition counterMeasuresOf (c : call) : Z :=
  match c with
  | GainCounterMeasures n => n
  | SpendCounterMeasures n => - n
  | _ => 0
  end.

(** The sum of what the calls of a run add. *)
Definition total (f : call -> Z) (cs : list call) : Z :=
  foldr Z.add 0 (map f cs).

(** The calls of a run that change the story: those [chooseStory] does
    not reject. *)
Definition choosesStory (c : call) : bool :=
  match c with
  | ChooseStory s => includes POSSIBLE_STORIES s
  | _ => false
  end.

End BlobGame.

(** ** The resource store *)

Module ResourcesService.

(** Modelled from the spec: the per-guild calls of the resource service
    ([saveGuildResource], [readGuildResource], [guildResourceExists]) are
    not among the sources; the spec gives a store "scoped per community"
    with "write(scope, key, bytes) -> ok | failure".  The files, one per guild
    and per concern, are embedded by the value they serialise; [writable]
    says whether the file system accepts a write. *)
Record store : Type := mkStore {
  blobGames : gmap string (list BlobGame.t);
  massMultiplayerEventsGroups : gmap string (list string);
  writable : bool
}.

Definition withBlobGames (f : gmap string (list BlobGame.t)) (s : store)
  : store :=
  {| blobGames := f;
     massMultiplayerEventsGroups := massMultiplayerEventsGroups s;
     writable := writable s |}.

Definition withGroups (f : gmap string (list string)) (s : store) : store :=
  {| blobGames := blobGames s;
     massMultiplayerEventsGroups := f;
     writable := writable s |}.

End ResourcesService.

(** ** services/BlobGameFileRepository

    The repository class is not among the sources; only its calls from
    [BlobGameService] are ([nextId], [save], [load]). *)

Module BlobGameFileRepository.
Import ResourcesService.

(** Modelled from the spec: [load] is not among the sources; "loads all
    stored sessions for the community", a "per-community collection of
    session records". *)
Definition load (guildId : string) (s : store) : list BlobGame.t :=
  default [] (blobGames s !! guildId).

(** Modelled from the spec: [nextId] is not among the sources;
    "auto-incrementing identity", "[id] values are unique and increasing
    per community". *)
Definition nextId (guildId : string) (s : store) : Z :=
  1 + foldr Z.max 0 (map BlobGame.id (load guildId s)).

(** Modelled from the spec: the list that [save] writes; the record with
    the identity of [game] is replaced, a new identity is appended
    ("append", "persist the full updated session list"). *)
Fixpoint put (game : BlobGame.t) (games : list BlobGame.t)
  : list BlobGame.t :=
  match games with
  | [] => [game]
  | g :: games' =>
      if BlobGame.id g =? BlobGame.id game then game :: games'
      else g :: put game games'
  end.

(** Modelled from the spec: [save] is not among the sources; it
    "persists the full updated session list back through the resource
    repository", and the write can fail ("write -> ok | failure"). *)
Definition save (guildId : string) (game : BlobGame.t) (s : store)
  : completion unit * store :=
  if writable s then
    (Return tt,
     withBlobGames (<[guildId := put game (load guildId s)]> (blobGames s)) s)
  else (Throw WriteFailed, s).

End BlobGameFileRepository.

(** ** services/BlobGameService.ts *)

Module BlobGameService.
Import ResourcesService.

Definition sortByDateDesc (bg1 bg2 : BlobGame.t) : Z :=
  if BlobGame.getDateCreated bg1 <? BlobGame.getDateCreated bg2 then 1
  else if BlobGame.getDateCreated bg1 >? BlobGame.getDateCreated bg2 then -1
  else 0.

(** The two tables of the service, and the store behind its
    repositories.  A repository object holds nothing but its guild, so
    the table of repositories is the set of guilds that have one. *)
Record state : Type := mkState {
  blobGameRepositoryByGuildId : gset string;
  currentGameByGuildId : gmap string BlobGame.t;
  resources : store
}.

Definition getBlobGameRepository (guildId : string) (st : state) : state :=
  {| blobGameRepositoryByGuildId :=
       {[guildId]} ∪ blobGameRepositoryByGuildId st;
     currentGameByGuildId := currentGameByGuildId st;
     resources := resources st |}.

Definition setCurrentGame (guildId : string) (game : BlobGame.t)
  (st : state) : state :=
  {| blobGameRepositoryByGuildId := blobGameRepositoryByGuildId st;
     currentGameByGuildId := <[guildId := game]> (currentGameByGuildId st);
     resources := resources st |}.

(** [repository.save(game)]: the promise it returns and the store after. *)
Definition repositorySave (guildId : string) (game : BlobGame.t)
  (st : state) : completion unit * state :=
  let (c, s') := BlobGameFileRepository.save guildId game (resources st) in
  (c, {| blobGameRepositoryByGuildId := blobGameRepositoryByGuildId st;
         currentGameByGuildId := currentGameByGuildId st;
         resources := s' |}).

(** [startNewGame(guild, numberOfPlayers)].  [now] is the value of
    [new Date()] and [randomInt] the value that
    [randomService.getRandomInt(0, POSSIBLE_STORIES.length - 1)] returns
    ([RandomService] is not among the sources).  The new object is the
    current game from its construction on, so the story chosen on it, or the
    throw of [chooseStory], is seen through the table. *)
Definition startNewGame (guildId : string) (numberOfPlayers now randomInt : Z)
  (st : state) : completion unit * state :=
  let st := getBlobGameRepository guildId st in
  let nextId := BlobGameFileRepository.nextId guildId (resources st) in
  let game := BlobGame.constructor nextId now numberOfPlayers in
  let st := setCurrentGame guildId game st in
  match index BlobGame.POSSIBLE_STORIES randomInt with
  | None => (Throw (NotAPossibleStory "undefined"), st)
  | Some randomStory =>
      match BlobGame.chooseStory randomStory game with
      | (Throw e, game) => (Throw e, setCurrentGame guildId game st)
      | (Return _, game) =>
          repositorySave guildId game (setCurrentGame guildId game st)
      end
  end.

(** [continueLatestGame(guild)]: the creation date of the game it makes
    current, or [undefined]. *)
Definition continueLatestGame (guildId : string) (st : state)
  : completion (option Z) * state :=
  let st := getBlobGameRepository guildId st in
  let availableBlobGames := BlobGameFileRepository.load guildId (resources st) in
  if (length availableBlobGames =? 0)%nat then (Return None, st)
  else
    let runningGames :=
      filter (fun game => BlobGame.getDateEnded game = None)
             availableBlobGames in
    if (length runningGames =? 0)%nat then (Return None, st)
    else
      match Js.sort sortByDateDesc runningGames with
      | game :: _ =>
          (Return (Some (BlobGame.getDateCreated game)),
           setCurrentGame guildId game st)
      | [] => (Throw TypeError, st) (* [undefined.getDateCreated()] *)
      end.

Definition endGame (guildId : string) (now : Z) (st : state)
  : completion unit * state :=
  let st := getBlobGameRepository guildId st in
  match currentGameByGuildId st !! guildId with
  | None => (Throw TypeError, st)
  | Some game =>
      let game := BlobGame.endGame now game in
      repositorySave guildId game (setCurrentGame guildId game st)
  end.

Definition getBlobTotalHealth (guildId : string) (st : state) : option Z :=
  BlobGame.getBlobTotalHealth <$> currentGameByGuildId st !! guildId.

Definition getBlobRemainingHealth (guildId : string) (st : state)
  : option Z :=
  BlobGame.getBlobRemainingHealth <$> currentGameByGuildId st !! guildId.

Definition getNumberOfDamageDealtToBlob (guildId : string) (st : state)
  : option Z :=
  BlobGame.getNumberOfDamageDealtToBlob <$> currentGameByGuildId st !! guildId.

Definition dealDamageToBlob (guildId : string) (numberOfDamageDealt : Z)
  (st : state) : completion unit * state :=
  match currentGameByGuildId st !! guildId with
  | None => (Throw Rejected, st)
  | Some game =>
      let game := BlobGame.dealDamageToBlob numberOfDamageDealt game in
      let st := setCurrentGame guildId game st in
      repositorySave guildId game (getBlobGameRepository guildId st)
  end.

Definition getAct1ClueThreshold (guildId : string) (st : state) : option Z :=
  BlobGame.getAct1ClueThreshold <$> currentGameByGuildId st !! guildId.

Definition getNumberOfCluesOnAct1 (guildId : string) (st : state)
  : option Z :=
  BlobGame.getNumberOfCluesOnAct1 <$> currentGameByGuildId st !! guildId.

Definition placeCluesOnAct1 (guildId : string) (numberOfClues : Z)
  (st : state) : completion unit * state :=
  match currentGameByGuildId st !! guildId with
  | None => (Throw Rejected, st)
  | Some game =>
      let game := BlobGame.placeCluesOnAct1 numberOfClues game in
      let st := setCurrentGame guildId game st in
      repositorySave guildId game (getBlobGameRepository guildId st)
  end.

Definition getNumberOfCounterMeasures (guildId : string) (st : state)
  : option Z :=
  BlobGame.getNumberOfCounterMeasures <$> currentGameByGuildId st !! guildId.

Definition gainCounterMeasures (guildId : string) (numberOfCounterMeasures : Z)
  (st : state) : completion unit * state :=
  match currentGameByGuildId st !! guildId with
  | None => (Throw Rejected, st)
  | Some game =>
      let game := BlobGame.gainCounterMeasures numberOfCounterMeasures game in
      let st := setCurrentGame guildId game st in
      repositorySave guildId game (getBlobGameRepository guildId st)
  end.

Definition spendCounterMeasures (guildId : string) (numberOfCounterMeasures : Z)
  (st : state) : completion unit * state :=
  match currentGameByGuildId st !! guildId with
  | None => (Throw Rejected, st)
  | Some game =>
      let game := BlobGame.spendCounterMeasures numberOfCounterMeasures game in
      let st := setCurrentGame guildId game st in
      repositorySave guildId game (getBlobGameRepository guildId st)
  end.

Definition getStory (guildId : string) (st : state) : option string :=
  currentGameByGuildId st !! guildId ≫= BlobGame.getStory.

(** The four mutating calls of the service, as data. *)
Inductive mutation : Type :=
| DealDamageToBlob (n : Z)
| PlaceCluesOnAct1 (n : Z)
| GainCounterMeasures (n : Z)
| SpendCounterMeasures (n : Z).

Definition run (m : mutation) (guildId : string) (st : state)
  : completion unit * state :=
  match m with
  | DealDamageToBlob n => dealDamageToBlob guildId n st
  | PlaceCluesOnAct1 n => placeCluesOnAct1 guildId n st
  | GainCounterMeasures n => gainCounterMeasures guildId n st
  | SpendCounterMeasures n => spendCounterMeasures guildId n st
  end.

(** What the call does to the session object. *)
Definition onGame (m : mutation) : BlobGame.t -> BlobGame.t :=
  match m with
  | DealDamageToBlob n => BlobGame.dealDamageToBlob n
  | PlaceCluesOnAct1 n => BlobGame.placeCluesOnAct1 n
  | GainCounterMeasures n => BlobGame.gainCounterMeasures n
  | SpendCounterMeasures n => BlobGame.spendCounterMeasures n
  end.

(** The counter the call is about, and the read accessor of the service
    that shows it. *)
Definition counter (m : mutation) : BlobGame.t -> Z :=
  match m with
  | DealDamageToBlob _ => BlobGame.getNumberOfDamageDealtToBlob
  | PlaceCluesOnAct1 _ => BlobGame.getNumberOfCluesOnAct1
  | GainCounterMeasures _ | SpendCounterMeasures _ =>
      BlobGame.getNumberOfCounterMeasures
  end.

Definition read (m : mutation) (guildId : string) (st : state) : option Z :=
  match m with
  | DealDamageToBlob _ => getNumberOfDamageDealtToBlob guildId st
  | PlaceCluesOnAct1 _ => getNumberOfCluesOnAct1 guildId st
  | GainCounterMeasures _ | SpendCounterMeasures _ =>
      getNumberOfCounterMeasures guildId st
  end.

(** The signed amount the call adds to its counter. *)
Definition delta (m : mutation) : Z :=
  match m with
  | DealDamageToBlob n | PlaceCluesOnAct1 n | GainCounterMeasures n => n
  | SpendCounterMeasures n => - n
  end.

(** A run of mutating calls for one guild, one after the other, whatever
    each returns. *)
Definition runAll (ms : list mutation) (guildId : string) (st : state)
  : state :=
  fold_left (fun st m => snd (run m guildId st)) ms st.

(** The call the service makes on the session object. *)
Definition callOf (m : mutation) : BlobGame.call :=
  match m with
  | DealDamageToBlob n => BlobGame.DealDamageToBlob n
  | PlaceCluesOnAct1 n => BlobGame.PlaceCluesOnAct1 n
  | GainCounterMeasures n => BlobGame.GainCounterMeasures n
  | SpendCounterMeasures n => BlobGame.SpendCounterMeasures n
  end.

(** The calls of the service that change its state, as data. *)
Inductive operation : Type :=
| StartNewGame (numberOfPlayers now randomInt : Z)
| ContinueLatestGame
| EndGame (now : Z)
| Mutate (m : mutation).

Definition after (op : operation) (guildId : string) (st : state) : state :=
  match op with
  | StartNewGame numberOfPlayers now randomInt =>
      snd (startNewGame guildId numberOfPlayers now randomInt st)
  | ContinueLatestGame => snd (continueLatestGame guildId st)
  | EndGame now => snd (endGame guildId now st)
  | Mutate m => snd (run m guildId st)
  end.

End BlobGameService.

(** ** The messaging platform, as discord.js shows it to the services

    A guild with its channel cache, in insertion order, and what the
    services ask of the platform: the identifier it gives to the next
    channel, the calls of [channel.delete()] and of [channel.send], in
    call order, whatever became of them, and the requests that the
    platform refuses.  The promise of a refused request is rejected with a
    [DiscordAPIError]: a permission is missing, the channel is gone, a
    limit is reached.  The platform answers a request the same way each
    time it is made. *)

Module Discord.

Inductive ChannelType : Type :=
| GUILD_TEXT
| GUILD_VOICE
| GUILD_CATEGORY
| GUILD_NEWS
| GUILD_STAGE_VOICE.

#[global] Instance ChannelType_eq_dec : EqDecision ChannelType.
Proof. solve_decision. Defined.

Record GuildChannel : Type := mkChannel {
  id : string;
  name : string;
  type : ChannelType;
  parentId : option string
}.

Definition MessageEmbed : Type := string.

(** What [channel.send] is given. *)
Inductive MessageOptions : Type :=
| Content (content : string)
| Embeds (embeds : list MessageEmbed).

Record Message : Type := mkMessage {
  channelId : string;
  payload : MessageOptions
}.

(** The requests of the services to the platform. *)
Inductive Request : Type :=
| CreateChannel (name_ : string) (type_ : ChannelType)
| SetParent (channelId_ categoryId : string)
| DeleteChannel (channelId_ : string)
| SendMessage (channelId_ : string) (options : MessageOptions).

Record Guild : Type := mkGuild {
  guildId : string;
  cache : list GuildChannel;
  nextSnowflake : N;
  deleted : list string;
  sent : list Message;
  refuses : Request -> bool
}.

(** [guild.channels.cache.find(fn)] *)
Definition cacheFind (fn : GuildChannel -> bool) (guild : Guild)
  : option GuildChannel :=
  List.find fn (cache guild).

(** [channel.parent]: the cached channel of [parentId], or [null]. *)
Definition parent (guild : Guild) (channel : GuildChannel)
  : option GuildChannel :=
  parentId channel ≫= fun pid =>
    cacheFind (fun c => String.eqb (id c) pid) guild.

(** [guild.channels.create(name, { type })]: when the platform takes the
    request the new channel has the next identifier, no parent, and enters
    the cache; when it refuses, nothing changes. *)
Definition create (name_ : string) (type_ : ChannelType) (guild : Guild)
  : completion GuildChannel * Guild :=
  if refuses guild (CreateChannel name_ type_) then
    (Throw DiscordAPIError, guild)
  else
    let channel :=
      {| id := pretty (nextSnowflake guild); name := name_; type := type_;
         parentId := None |} in
    (Return channel,
     {| guildId := guildId guild;
        cache := cache guild ++ [channel];
        nextSnowflake := N.succ (nextSnowflake guild);
        deleted := deleted guild;
        sent := sent guild;
        refuses := refuses guild |}).

(** [channel.setParent(categoryId)]: when the platform takes the request
    the cached channel is patched in place. *)
Definition setParent (channelId_ categoryId : string) (guild : Guild)
  : completion unit * Guild :=
  if refuses guild (SetParent channelId_ categoryId) then
    (Throw DiscordAPIError, guild)
  else
    (Return tt,
     {| guildId := guildId guild;
        cache :=
          map (fun c =>
                 if String.eqb (id c) channelId_ then
                   {| id := id c; name := name c; type := type c;
                      parentId := Some categoryId |}
                 else c)
              (cache guild);
        nextSnowflake := nextSnowflake guild;
        deleted := deleted guild;
        sent := sent guild;
        refuses := refuses guild |}).

(** [channel.delete()]: the call is recorded, and the platform takes the
    request or refuses it.  The cache is left as it is: the library drops
    a channel from it when the gateway reports the deletion, not when the
    request returns. *)
Definition delete (channelId_ : string) (guild : Guild)
  : completion unit * Guild :=
  (if refuses guild (DeleteChannel channelId_) then Throw DiscordAPIError
   else Return tt,
   {| guildId := guildId guild;
      cache := cache guild;
      nextSnowflake := nextSnowflake guild;
      deleted := deleted guild ++ [channelId_];
      sent := sent guild;
      refuses := refuses guild |}).

(** A content that is the empty string: the library refuses it, with a
    [RangeError] of its own, before any request is made. *)
Definition emptyContent (options : MessageOptions) : bool :=
  match options with
  | Content s => String.eqb s ""
  | Embeds _ => false
  end.

(** Whether a message reaches its channel: the library takes its content
    and the platform its request. *)
Definition delivers (guild : Guild) (message : Message) : bool :=
  negb (emptyContent (payload message))
  && negb (refuses guild (SendMessage (channelId message) (payload message))).

(** [channel.send(options)]: the call is recorded; it gives the message
    when it is delivered. *)
Definition send (channel : GuildChannel) (options : MessageOptions)
  (guild : Guild) : completion Message * Guild :=
  let message := {| channelId := id channel; payload := options |} in
  (if emptyContent options then Throw DiscordjsError
   else if refuses guild (SendMessage (id channel) options) then
     Throw DiscordAPIError
   else Return message,
   {| guildId := guildId guild;
      cache := cache guild;
      nextSnowflake := nextSnowflake guild;
      deleted := deleted guild;
      sent := sent guild ++ [message];
      refuses := refuses guild |}).


End Discord.

(** ** services/EnvService *)

Module EnvService.

(** Modelled from the spec: [EnvService] is not among the sources; the
    two settings [MassMultiplayerEventService] reads from it are the
    "configured parent category" name and the "configured control-channel
    name", each of which can be unset ([string | undefined]). *)
Record t : Type := mk {
  massMultiplayerEventCategoryName : option string;
  massMultiplayerEventAdminChannelName : option string
}.

End EnvService.

(** ** services/MassMultiplayerEventService.ts *)

Module MassMultiplayerEventService.
Import ResourcesService Discord EnvService.

(** The table of the service and the store behind [saveState]. *)
Record state : Type := mkState {
  groupChannelsIdByGuildId : gmap string (list string);
  resources : store
}.

(** [string | MessageEmbed] *)
Inductive content : Type :=
| OfString (s : string)
| OfEmbed (e : MessageEmbed).

Definition setGroups (guildId_ : string) (groupsId : list string)
  (st : state) : state :=
  {| groupChannelsIdByGuildId :=
       <[guildId_ := groupsId]> (groupChannelsIdByGuildId st);
     resources := resources st |}.

(** [saveState(guild)]: a failure of the write is caught and logged, the
    call itself never fails.  [JSON.stringify(undefined)] is no content to
    write. *)
Definition saveState (guildId_ : string) (st : state) : state :=
  match groupChannelsIdByGuildId st !! guildId_ with
  | Some groupsId =>
      if writable (resources st) then
        {| groupChannelsIdByGuildId := groupChannelsIdByGuildId st;
           resources :=
             withGroups
               (<[guildId_ := groupsId]>
                  (massMultiplayerEventsGroups (resources st)))
               (resources st) |}
      else st
  | None => st
  end.

(** [loadState(guild)] *)
Definition loadState (guildId_ : string) (st : state) : state :=
  match massMultiplayerEventsGroups (resources st) !! guildId_ with
  | Some groupsId => setGroups guildId_ groupsId st
  | None => st
  end.

Definition runningEvent (guild : Guild) (st : state) : bool :=
  match groupChannelsIdByGuildId st !! guildId guild with
  | Some groupsId => negb (length groupsId =? 0)%nat
  | None => false
  end.

Definition getAdminChannel (env : EnvService.t) (guild : Guild)
  : completion (option GuildChannel) :=
  if negb (truthy (massMultiplayerEventCategoryName env)) &&
     negb (truthy (massMultiplayerEventAdminChannelName env))
  then Throw ConfigurationMissing
  else
    Return
      (cacheFind
         (fun channel =>
            match parent guild channel with
            | None => false
            | Some channelParent =>
                bool_decide (Some (name channelParent)
                             = massMultiplayerEventCategoryName env)
                && bool_decide (type channel = GUILD_TEXT)
                && bool_decide (Some (name channel)
                                = massMultiplayerEventAdminChannelName env)
            end)
         guild).


Definition getCategoryIdByName (guild : Guild) (categoryName : string)
  : option string :=
  id <$> cacheFind
           (fun guildChannel =>
              bool_decide (type guildChannel = GUILD_CATEGORY)
              && String.eqb (name guildChannel) categoryName)
           guild.

(** The body of the loop of [createGroupChannels], for one group.  Each
    request is awaited: a rejection leaves the turn where it is, with what
    the earlier requests have done. *)
Definition createGroup (categoryId : string) (groupNumber : Z)
  (gs : Guild * state) : completion unit * (Guild * state) :=
  let (guild, st) := gs in
  match create ("groupe-" +:+ pretty groupNumber) GUILD_TEXT guild with
  | (Throw e, guild) => (Throw e, (guild, st))
  | (Return groupChannel, guild) =>
  match setParent (id groupChannel) categoryId guild with
  | (Throw e, guild) => (Throw e, (guild, st))
  | (Return _, guild) =>
  match create ("voice-groupe-" +:+ pretty groupNumber) GUILD_VOICE guild with
  | (Throw e, guild) => (Throw e, (guild, st))
  | (Return groupVoiceChannel, guild) =>
  match setParent (id groupVoiceChannel) categoryId guild with
  | (Throw e, guild) => (Throw e, (guild, st))
  | (Return _, guild) =>
      match groupChannelsIdByGuildId st !! guildId guild with
      | Some groupsId =>
          (Return tt,
           (guild,
            setGroups (guildId guild)
              (groupsId ++ [id groupChannel] ++ [id groupVoiceChannel]) st))
      | None =>
          (Return tt,
           (guild,
            setGroups (guildId guild)
              [id groupChannel; id groupVoiceChannel] st))
      end
  end end end end.

(** [for (groupNumber = from; groupNumber <= numberOfGroups; groupNumber++)],
    with the number of turns left.  A rejection ends the loop. *)
Fixpoint createGroups (turns : nat) (categoryId : string) (groupNumber : Z)
  (gs : Guild * state) : completion unit * (Guild * state) :=
  match turns with
  | O => (Return tt, gs)
  | S turns' =>
      match createGroup categoryId groupNumber gs with
      | (Throw e, gs) => (Throw e, gs)
      | (Return _, gs) => createGroups turns' categoryId (groupNumber + 1) gs
      end
  end.

(** [createGroupChannels(guild, numberOfGroups)]: the list is saved after
    the loop, so not when the loop is left by a rejection. *)
Definition createGroupChannels (env : EnvService.t) (numberOfGroups : Z)
  (gs : Guild * state) : completion unit * (Guild * state) :=
  match massMultiplayerEventCategoryName env with
  | None => (Throw ConfigurationMissing, gs)
  | Some categoryName =>
      if negb (truthy (Some categoryName)) then
        (Throw ConfigurationMissing, gs)
      else
        match getCategoryIdByName (fst gs) categoryName with
        | None => (Throw (EventCategoryNotFound categoryName), gs)
        | Some categoryId =>
            if negb (truthy (Some categoryId)) then
              (Throw (EventCategoryNotFound categoryName), gs)
            else
              match createGroups (Z.to_nat numberOfGroups) categoryId 1 gs
              with
              | (Throw e, gs) => (Throw e, gs)
              | (Return _, (guild, st)) =>
                  (Return tt, (guild, saveState (guildId guild) st))
              end
        end
  end.

(** [channels.map(channel => channel.delete().then(() => null))]: every
    deletion is called, whatever becomes of the others. *)
Fixpoint deleteAll (channels : list GuildChannel) (guild : Guild)
  : list (completion unit) * Guild :=
  match channels with
  | [] => ([], guild)
  | channel :: channels' =>
      let (settled, guild) := delete (id channel) guild in
      let (rest, guild) := deleteAll channels' guild in
      (settled :: rest, guild)
  end.

(** [cleanGroupChannels(guild)].  The channels of the list are looked up
    and the deletion of those found is called; the identifiers that the
    cache does not know give a promise that is already resolved.  The list
    is cleared, and saved, after [Promise.all]: not when a deletion is
    refused. *)
Definition cleanGroupChannels (gs : Guild * state)
  : completion unit * (Guild * state) :=
  let (guild, st) := gs in
  match groupChannelsIdByGuildId st !! guildId guild with
  | None => (Throw TypeError, gs)
  | Some groupsId =>
      let channels :=
        omap (fun groupId =>
                cacheFind (fun channel => String.eqb (id channel) groupId)
                          guild)
             groupsId in
      let (settled, guild) := deleteAll channels guild in
      match promiseAll settled with
      | Throw e => (Throw e, (guild, st))
      | Return _ =>
          let st := setGroups (guildId guild) [] st in
          (Return tt, (guild, saveState (guildId guild) st))
      end
  end.

(** The channels [broadcastMessage] resolves from the identifiers of the
    groups: those that are a cached text channel. *)
Definition textChannels (guild : Guild) (groupsId : list string)
  : list GuildChannel :=
  fold_left
    (fun memo groupId =>
       match cacheFind (fun channel => String.eqb (id channel) groupId)
                       guild with
       | Some maybeChannel =>
           if bool_decide (type maybeChannel = GUILD_TEXT)
           then memo ++ [maybeChannel] else memo
       | None => memo
       end)
    groupsId [].

Definition sendTo (c : content) (channel : GuildChannel) (guild : Guild)
  : completion Message * Guild :=
  match c with
  | OfString s => send channel (Content s) guild
  | OfEmbed e => send channel (Embeds [e]) guild
  end.

(** [channels.map(channel => channel.send(...))]: every send is called,
    whatever becomes of the others. *)
Fixpoint sendAll (c : content) (channels : list GuildChannel)
  (guild : Guild) : list (completion Message) * Guild :=
  match channels with
  | [] => ([], guild)
  | channel :: channels' =>
      let (settled, guild) := sendTo c channel guild in
      let (rest, guild) := sendAll c channels' guild in
      (settled :: rest, guild)
  end.

Definition broadcastMessage (env : EnvService.t) (c : content)
  (excludeGroupIds : option (list string)) (gs : Guild * state)
  : completion (list Message) * Guild :=
  let (guild, st) := gs in
  match groupChannelsIdByGuildId st !! guildId guild with
  | None => (Throw TypeError, guild)
  | Some groupsId =>
      let groupsId :=
        match excludeGroupIds with
        | Some excluded =>
            List.filter (fun id_ => negb (includes excluded id_)) groupsId
        | None => groupsId
        end in
      let channels := textChannels guild groupsId in
      match getAdminChannel env guild with
      | Throw e => (Throw e, guild)
      | Return adminChannel =>
          let channels :=
            match adminChannel with
            | Some adminChannel => channels ++ [adminChannel]
            | None => channels
            end in
          let (settled, guild) := sendAll c channels guild in
          (promiseAll settled, guild)
      end
  end.

(** [init(client)]: the saved list of every guild of the client is
    loaded.  The loads touch one entry each, so their order is
    indifferent. *)
Definition init (guildIds : list string) (st : state) : state :=
  fold_left (fun st guildId_ => loadState guildId_ st) guildIds st.

(** [isEventChannel(channel)].  [isText] is [channel.isText()], which
    discord.js answers from the class of the channel. *)
Definition isEventChannel (isText : GuildChannel -> bool)
    (env : EnvService.t) (guild : Guild) (channel : GuildChannel) : bool :=
  if negb (isText channel) then false
  else if negb (truthy (massMultiplayerEventCategoryName env)) then false
  else
    match parent guild channel with
    | None => false
    | Some channelParent =>
        bool_decide (Some (name channelParent)
                     = massMultiplayerEventCategoryName env)
    end.

(** [isAdminChannel(channel)] *)
Definition isAdminChannel (isText : GuildChannel -> bool)
    (env : EnvService.t) (guild : Guild) (channel : GuildChannel) : bool :=
  if negb (isText channel) then false
  else if negb (truthy (massMultiplayerEventCategoryName env)) then false
  else if negb (truthy (massMultiplayerEventAdminChannelName env)) then false
  else
    match parent guild channel with
    | None => false
    | Some channelParent =>
        bool_decide (Some (name channelParent)
                     = massMultiplayerEventCategoryName env)
        && bool_decide (Some (name channel)
                        = massMultiplayerEventAdminChannelName env)
    end.

(** The channels that [turns] turns of the loop of [createGroupChannels]
    create, from the group number [groupNumber] on, when the platform
    gives the identifiers from [n] on. *)
Fixpoint groupChannels (categoryId : string) (n : N) (groupNumber : Z)
    (turns : nat) : list GuildChannel :=
  match turns with
  | O => []
  | S turns' =>
      mkChannel (pretty n) ("groupe-" +:+ pretty groupNumber)
        GUILD_TEXT (Some categoryId)
      :: mkChannel (pretty (N.succ n))
           ("voice-groupe-" +:+ pretty groupNumber)
           GUILD_VOICE (Some categoryId)
      :: groupChannels categoryId (N.succ (N.succ n)) (groupNumber + 1) turns'
  end.

End MassMultiplayerEventService.

(** ** services/ChaosBagService.ts *)

Module ChaosBagService.

Definition NIGHT_OF_THE_ZEALOT_STANDARD_BAG : list string :=
  [ "p1"; "p0"; "p0"; "m1"; "m1"; "m1"; "m2"; "m2"; "m3"; "m4";
    "ChaosSkull"; "ChaosSkull"; "ChaosCultist"; "ChaosTablet";
    "ChaosFail"; "ChaosElderSign" ]%string.

(** The object [TOKENS], by its own keys. *)
Definition TOKENS : list (string * string) :=
  [ ("p1", "+1"); ("p0", "0"); ("m1", "-1"); ("m2", "-2"); ("m3", "-3");
    ("m4", "-4"); ("ChaosSkull", "Skull"); ("ChaosCultist", "Cultist");
    ("ChaosTablet", "Tablet"); ("ChaosFail", "Autofail");
    ("ChaosElderSign", "Elder Sign") ]%string.

(** [this.TOKENS[key]]; the key [undefined] reads the property
    ["undefined"]. *)
Definition token (key : option string) : option string :=
  snd <$> List.find (fun entry => String.eqb (fst entry) (default "undefined" key))
                    TOKENS.

(** [pullToken()].  [randomInt] is what
    [randomService.getRandomInt(0, BAG.length)] returns and [getEmoji] is
    [emojiService.getEmoji]; neither service is among the sources. *)
Definition pullToken (getEmoji : option string -> option string)
    (randomInt : Z) : option string :=
  let tokenString := index NIGHT_OF_THE_ZEALOT_STANDARD_BAG randomInt in
  let emoji := getEmoji tokenString in
  if truthy emoji then emoji else token tokenString.

End ChaosBagService.

(** ** services/CardService.ts *)

Module CardService.

(** The fields of a card that the services below read. *)
Record ArkhamDBCard : Type := mkCard {
  code : string;
  name : string;
  real_name : string;
  faction_code : string;
  encounter_code : option string;
  type_code : string;
  permanent : bool;
  slot : option string;
  xp : option Z
}.

Inductive SearchType : Type := BY_CODE | BY_TITLE.

(** [s.includes(sub)] on strings. *)
Definition stringIncludes (s sub : string) : bool :=
  match String.index 0 sub s with Some _ => true | None => false end.

(** [matchCard(card, searchString)]; [toLowerCase] is the method of
    strings. *)
Definition matchCard (toLowerCase : string -> string)
    (card : ArkhamDBCard) (searchString : string) : bool :=
  stringIncludes (toLowerCase (name card)) (toLowerCase searchString)
  || stringIncludes (toLowerCase (real_name card)) (toLowerCase searchString).

(** [getCards({ searchString, searchType })] over [this.frenchCards].  The
    search string is [undefined] when the caller indexed an array out of
    range: no code equals it, and a search by title throws on its
    [toLowerCase] at the first card. *)
Definition getCards (toLowerCase : string -> string)
    (frenchCards : list ArkhamDBCard) (searchString : option string)
    (searchType : SearchType) : completion (list ArkhamDBCard) :=
  match searchType with
  | BY_CODE =>
      Return (List.filter
                (fun card => bool_decide (Some (code card) = searchString))
                frenchCards)
  | BY_TITLE =>
      match searchString, frenchCards with
      | Some searchString, _ =>
          Return (List.filter (fun card => matchCard toLowerCase card searchString)
                              frenchCards)
      | None, [] => Return []
      | None, _ :: _ => Throw TypeError
      end
  end.

(** [getAllPlayerCardCodes()] *)
Definition getAllPlayerCardCodes (frenchCards : list ArkhamDBCard)
  : list string :=
  map code
    (List.filter (fun card => bool_decide (encounter_code card = None))
       (List.filter
          (fun card => negb (String.eqb (faction_code card) "mythos"))
          frenchCards)).

End CardService.

(** ** services/CardOfTheDayService *)

Module CardOfTheDayService.
Import CardService.

(** The codes already sent, and the file [cardOfTheDay.json] behind them:
    its parsed content when there is one, and whether the file system
    takes a write.  [saveResource] logs a failed write and returns
    normally. *)
Record state : Type := mkState {
  cardCodesSent : list string;
  saved : option (list string);
  writable : bool
}.

(** [saveCardCodesSent()] *)
Definition saveCardCodesSent (st : state) : state :=
  if writable st then
    {| cardCodesSent := cardCodesSent st;
       saved := Some (cardCodesSent st);
       writable := writable st |}
  else st.

(** [loadCardCodesSent()] *)
Definition loadCardCodesSent (st : state) : state :=
  match saved st with
  | Some codes =>
      {| cardCodesSent := codes; saved := saved st; writable := writable st |}
  | None => st
  end.

(** [addCardSent(codes)] *)
Definition addCardSent (codes : list string) (st : state) : state :=
  saveCardCodesSent
    {| cardCodesSent :=
         fold_left (fun sent code_ => sent ++ [code_]) codes (cardCodesSent st);
       saved := saved st;
       writable := writable st |}.

(** The awaited steps of [sendCardOfTheDay] that can be rejected: the
    fetch of the channel, the making of the embed, the send of the
    message and its pin. *)
Inductive step : Type :=
| Fetch
| CreateEmbed
| Send
| Pin.

(** [sendCardOfTheDay()]: how the call ends, the card that the channel
    has received, if any, and the state after.  [rejects] tells the
    awaited steps that are rejected, [client] says whether the service has
    its client, [channelId] is the configured channel, [channelFound]
    whether the fetch gives a channel, and [randomInt] is what
    [randomService.getRandomInt(0, remainingCodes.length)] returns.  The
    search of the card is by code, which does not throw.  The code is
    pushed, and saved, after the pin. *)
Definition sendCardOfTheDay (toLowerCase : string -> string)
    (rejects : step -> bool)
    (client : bool) (channelId : option string)
    (channelFound : bool) (frenchCards : list ArkhamDBCard)
    (randomInt : Z) (st : state)
  : completion unit * (option ArkhamDBCard * state) :=
  if negb client then (Return tt, (None, st))
  else if negb (truthy channelId) then (Return tt, (None, st))
  else if rejects Fetch then (Throw DiscordAPIError, (None, st))
  else if negb channelFound then (Return tt, (None, st))
  else
    let allCodes := getAllPlayerCardCodes frenchCards in
    let remainingCodes :=
      List.filter (fun code_ => negb (includes (cardCodesSent st) code_))
                  allCodes in
    let randomCode := index remainingCodes randomInt in
    match getCards toLowerCase frenchCards randomCode BY_CODE with
    | Return randomCard =>
        match randomCard, randomCode with
        | card :: _, Some randomCode =>
            if rejects CreateEmbed then (Throw DiscordjsError, (None, st))
            else if rejects Send then (Throw DiscordAPIError, (None, st))
            else if rejects Pin then
              (Throw DiscordAPIError, (Some card, st))
            else
              (Return tt,
               (Some card,
                saveCardCodesSent
                  {| cardCodesSent := cardCodesSent st ++ [randomCode];
                     saved := saved st;
                     writable := writable st |}))
        | _, _ => (Return tt, (None, st))
        end
    | Throw e => (Throw e, (None, st))
    end.

End CardOfTheDayService.

(** ** services/deck.ts *)

Module DeckService.
Import CardService.

(** [ArkhamDBCard & WithQuantity] *)
Record CardInDeck : Type := mkCardInDeck {
  card : ArkhamDBCard;
  quantity : Z
}.

#[local] Unset Elimination Schemes.
Inductive DeckCategory : Type :=
| Category (title : string) (filter : CardInDeck -> bool)
    (subcategories : option (list DeckCategory)).
#[local] Set Elimination Schemes.

Definition title (c : DeckCategory) : string :=
  match c with Category t _ _ => t end.
Definition filter (c : DeckCategory) : CardInDeck -> bool :=
  match c with Category _ f _ => f end.
Definition subcategories (c : DeckCategory) : option (list DeckCategory) :=
  match c with Category _ _ s => s end.

Definition slotIs (s : string) (c : CardInDeck) : bool :=
  bool_decide (slot (card c) = Some s).

Definition SLOTS : list string :=
  [ "Main"; "Main x2"; "Accessoire"; "Corps"; "Allié"; "Arcane";
    "Arcane x2"; "Tarot" ]%string.

Definition typeIs (t : string) (c : CardInDeck) : bool :=
  String.eqb (type_code (card c)) t && negb (permanent (card c)).

Definition DECK_CATEGORIES : list DeckCategory :=
  [ Category "Soutiens" (typeIs "asset")
      (Some
         [ Category "Main" (slotIs "Main") None;
           Category "Main x2" (slotIs "Main x2") None;
           Category "Accessoire" (slotIs "Accessoire") None;
           Category "Corps" (slotIs "Corps") None;
           Category "Allié" (slotIs "Allié") None;
           Category "Arcane" (slotIs "Arcane") None;
           Category "Arcane x2" (slotIs "Arcane x2") None;
           Category "Tarot" (slotIs "Tarot") None;
           Category "Autre"
             (fun c =>
                match slot (card c) with
                | None => true
                | Some s => negb (includes SLOTS s)
                end)
             None ]);
    Category "Permanent" (fun c => permanent (card c)) None;
    Category "Evénements" (typeIs "event") None;
    Category "Compétences" (typeIs "skill") None;
    Category "Traîtrises" (typeIs "treachery") None;
    Category "Ennemis" (typeIs "enemy") None ]%string.

(** [byCardName]; [gt] is [>] on strings. *)
Definition byCardName (gt : string -> string -> bool) (c1 c2 : CardInDeck)
  : Z :=
  if String.eqb (name (card c1)) (name (card c2)) then 0
  else if gt (name (card c1)) (name (card c2)) then 1
  else -1.

(** In [createEmbed]: the cards listed under a category, and the number
    shown beside its title. *)
Definition cardsInCategory (gt : string -> string -> bool)
    (category : DeckCategory) (cardsInDeck : list CardInDeck)
  : list CardInDeck :=
  Js.sort (byCardName gt) (List.filter (filter category) cardsInDeck).

Definition numberOfCard (cards : list CardInDeck) : Z :=
  fold_left (fun sum c => sum + quantity c) cards 0.

End DeckService.

(** ** services/CommandParser.ts *)

Module CommandParser.

Section Parse.
(** A string is the list of its code units; [space] is the one of [" "]. *)
Context {A : Type} `{EqDecision A} (space : A).

(** [content.split(" ")[0]] *)
Fixpoint firstField (content : list A) : list A :=
  match content with
  | [] => []
  | a :: content' =>
      if decide (a = space) then [] else a :: firstField content'
  end.

(** [s.substring(start)] *)
Definition substring (start : Z) (s : list A) : list A :=
  drop (Z.to_nat start) s.

Fixpoint startsWith (s needle : list A) : bool :=
  match needle, s with
  | [], _ => true
  | _ :: _, [] => false
  | b :: needle', a :: s' =>
      if decide (a = b) then startsWith s' needle' else false
  end.

(** [s.indexOf(needle)] *)
Fixpoint indexOf (s needle : list A) : Z :=
  if startsWith s needle then 0
  else
    match s with
    | [] => -1
    | _ :: s' =>
        let i := indexOf s' needle in
        if i <? 0 then -1 else i + 1
    end.

(** In [handleCommand]: the constants [cmd] and [args]. *)
Definition cmd (content : list A) : list A :=
  substring 1 (firstField content).

Definition args (content : list A) : list A :=
  substring (indexOf content (cmd content)
             + Z.of_nat (length (cmd content)) + 1)
            content.
End Parse.

End CommandParser.

(** * Properties *)

(** ** JavaScript basics *)

Lemma includes_elem_of (a : list string) (s : string) :
  includes a s = true <-> s ∈ a.
Proof.
  unfold includes. rewrite existsb_exists. split.
  - intros (x & Hx & He). apply String.eqb_eq in He. subst x.
    by apply list_elem_of_In.
  - intros Hs. exists s. split; [by apply list_elem_of_In|].
    apply String.eqb_refl.
Qed.

Lemma includes_not_elem_of (a : list string) (s : string) :
  includes a s = false <-> s ∉ a.
Proof.
  rewrite <- includes_elem_of. destruct (includes a s); split; congruence.
Qed.

(** [Math.ceil(n / 2)] is the least integer whose double reaches [n]. *)
Lemma ceil_div_2 (n : Z) : ceil_div n 2 = (n + 1) / 2.
Proof.
  unfold ceil_div, Qceiling, Qfloor. cbn [Qopp Qnum Qden].
  pose proof (Z.div_mod (- n) 2 ltac:(lia)) as H1.
  pose proof (Z.mod_pos_bound (- n) 2 ltac:(lia)) as H2.
  pose proof (Z.div_mod (n + 1) 2 ltac:(lia)) as H3.
  pose proof (Z.mod_pos_bound (n + 1) 2 ltac:(lia)) as H4.
  lia.
Qed.

Lemma index_in_range {A} (a : list A) (i : Z) :
  0 <= i < Z.of_nat (length a) -> exists x, index a i = Some x /\ x ∈ a.
Proof.
  intros Hi. unfold index.
  destruct (Z.ltb_spec i 0) as [|_]; [lia|].
  destruct (lookup_lt_is_Some_2 a (Z.to_nat i)) as [x Hx]; [lia|].
  exists x. split; [done|]. by eapply list_elem_of_lookup_2.
Qed.

Section SortFacts.
Context {A : Type} (compareFn : A -> A -> Z).

Lemma insert_sorted_elem_of (x y : A) (l : list A) :
  y ∈ insert_sorted compareFn x l <-> y = x \/ y ∈ l.
Proof.
  induction l as [|z l IH]; simpl.
  - rewrite list_elem_of_singleton, elem_of_nil. tauto.
  - destruct (compareFn x z <=? 0); rewrite !elem_of_cons;
      [|rewrite IH]; tauto.
Qed.

Lemma sort_elem_of (y : A) (l : list A) :
  y ∈ Js.sort compareFn l <-> y ∈ l.
Proof.
  induction l as [|x l IH]; simpl; [done|].
  rewrite insert_sorted_elem_of, elem_of_cons, IH. tauto.
Qed.

Lemma insert_sorted_head (x : A) (l : list A) :
  head (insert_sorted compareFn x l) =
  match head l with
  | None => Some x
  | Some y => if compareFn x y <=? 0 then Some x else Some y
  end.
Proof.
  destruct l as [|y l]; simpl; [done|].
  by destruct (compareFn x y <=? 0).
Qed.

Lemma sort_nil_inv (l : list A) : Js.sort compareFn l = [] -> l = [].
Proof.
  destruct l as [|x l]; [done|]. simpl.
  destruct (Js.sort compareFn l) as [|y l']; simpl; [done|].
  by destruct (compareFn x y <=? 0).
Qed.
End SortFacts.

(** ** The session object *)

Section BlobGameFacts.
Import BlobGame.

Lemma POSSIBLE_STORIES_four :
  length POSSIBLE_STORIES = 4%nat /\ NoDup POSSIBLE_STORIES.
Proof.
  split; [reflexivity|].
  apply (bool_decide_unpack _). by vm_compute.
Qed.

Lemma chooseStory_possible (x : string) (g : BlobGame.t) :
  x ∈ POSSIBLE_STORIES ->
  chooseStory x g =
  (Return tt,
   {| id := id g; dateCreated := dateCreated g; dateEnded := dateEnded g;
      numberOfPlayers := numberOfPlayers g;
      numberOfDamageDealtToBlob := numberOfDamageDealtToBlob g;
      numberOfCluesOnAct1 := numberOfCluesOnAct1 g;
      numberOfCounterMeasures := numberOfCounterMeasures g;
      story := Some x |}).
Proof.
  intros Hx. apply includes_elem_of in Hx.
  unfold chooseStory. by rewrite Hx.
Qed.

Lemma chooseStory_impossible (x : string) (g : BlobGame.t) :
  x ∉ POSSIBLE_STORIES ->
  chooseStory x g = (Throw (NotAPossibleStory x), g).
Proof.
  intros Hx. apply includes_not_elem_of in Hx.
  unfold chooseStory. by rewrite Hx.
Qed.

(** No call changes the number of players, hence the total health and
    the clue threshold. *)
Lemma perform_numberOfPlayers (c : call) (g : BlobGame.t) :
  numberOfPlayers (perform c g) = numberOfPlayers g.
Proof.
  destruct c; simpl; try done.
  unfold chooseStory. by destruct (negb _).
Qed.

Lemma perform_damage (c : call) (g : BlobGame.t) :
  numberOfDamageDealtToBlob (perform c g) =
  numberOfDamageDealtToBlob g +
  match c with DealDamageToBlob amount => amount | _ => 0 end.
Proof.
  destruct c; simpl; try lia.
  unfold chooseStory. destruct (negb _); simpl; lia.
Qed.

Lemma perform_clues (c : call) (g : BlobGame.t) :
  numberOfCluesOnAct1 (perform c g) =
  numberOfCluesOnAct1 g +
  match c with PlaceCluesOnAct1 n => n | _ => 0 end.
Proof.
  destruct c; simpl; try lia.
  unfold chooseStory. destruct (negb _); simpl; lia.
Qed.

Lemma performAll_app (cs1 cs2 : list call) (g : BlobGame.t) :
  performAll (cs1 ++ cs2) g = performAll cs2 (performAll cs1 g).
Proof. unfold performAll. apply fold_left_app. Qed.

(** With amounts that are not negative, a run of calls lowers neither
    counter. *)
Lemma performAll_grows (cs : list call) (g : BlobGame.t) :
  Forall (fun c => 0 <= amountOf c) cs ->
  numberOfDamageDealtToBlob g <= numberOfDamageDealtToBlob (performAll cs g)
  /\ numberOfCluesOnAct1 g <= numberOfCluesOnAct1 (performAll cs g).
Proof.
  intros Hcs. revert g.
  induction Hcs as [|c cs Hc _ IH]; intros g; [simpl; lia|].
  change (performAll (c :: cs) g) with (performAll cs (perform c g)).
  specialize (IH (perform c g)).
  rewrite perform_damage, perform_clues in IH.
  destruct c; simpl in Hc; lia.
Qed.

(** The damage after a run of [dealDamageToBlob] calls. *)
Lemma dealDamage_all (ds : list Z) (g : BlobGame.t) :
  let g' := fold_left (fun g d => dealDamageToBlob d g) ds g in
  numberOfPlayers g' = numberOfPlayers g /\
  numberOfDamageDealtToBlob g' =
  numberOfDamageDealtToBlob g + foldr Z.add 0 ds.
Proof.
  revert g. induction ds as [|d ds IH]; intros g; simpl; [lia|].
  destruct (IH (dealDamageToBlob d g)) as [-> ->]. simpl. lia.
Qed.

End BlobGameFacts.

(** ** The session service *)

Section BlobGameServiceFacts.
Import ResourcesService BlobGameService.

Lemma put_elem_of (game : BlobGame.t) (games : list BlobGame.t) :
  game ∈ BlobGameFileRepository.put game games.
Proof.
  induction games as [|g games IH]; simpl.
  - apply list_elem_of_singleton. reflexivity.
  - destruct (BlobGame.id g =? BlobGame.id game);
      rewrite elem_of_cons; auto.
Qed.

Lemma repositorySave_writable guildId game st :
  writable (resources st) = true ->
  repositorySave guildId game st =
  (Return tt,
   {| blobGameRepositoryByGuildId := blobGameRepositoryByGuildId st;
      currentGameByGuildId := currentGameByGuildId st;
      resources :=
        withBlobGames
          (<[guildId := BlobGameFileRepository.put game
                          (BlobGameFileRepository.load guildId (resources st))]>
             (blobGames (resources st)))
          (resources st) |}).
Proof.
  intros Hw. unfold repositorySave, BlobGameFileRepository.save.
  by rewrite Hw.
Qed.

Lemma repositorySave_readonly guildId game st :
  writable (resources st) = false ->
  repositorySave guildId game st =
  (Throw WriteFailed,
   {| blobGameRepositoryByGuildId := blobGameRepositoryByGuildId st;
      currentGameByGuildId := currentGameByGuildId st;
      resources := resources st |}).
Proof.
  intros Hw. unfold repositorySave, BlobGameFileRepository.save.
  by rewrite Hw.
Qed.

(** Saving touches neither table of the service. *)
Lemma repositorySave_currentGame guildId game st :
  currentGameByGuildId (snd (repositorySave guildId game st))
  = currentGameByGuildId st.
Proof.
  unfold repositorySave.
  by destruct (BlobGameFileRepository.save guildId game (resources st)).
Qed.

End BlobGameServiceFacts.

(** C1. For every number of players above zero, the session that
    [startNewGame] has just made current has a total health and a clue
    threshold of fifteen per player, [Math.ceil(players / 2)] counter
    measures (the least integer whose double reaches the number of
    players), no damage dealt, no clue placed, and a story that is one of
    the four possible stories.  [randomInt] is what the random service
    returns for the range 0..3 it is asked. *)
Theorem startNewGame_fresh_session
    (guildId : string) (players now randomInt : Z)
    (st : BlobGameService.state) :
  0 < players ->
  0 <= randomInt <= 3 ->
  let st' :=
    snd (BlobGameService.startNewGame guildId players now randomInt st) in
  exists narrative : string,
    BlobGameService.getBlobTotalHealth guildId st' = Some (players * 15) /\
    BlobGameService.getAct1ClueThreshold guildId st' = Some (players * 15) /\
    BlobGameService.getNumberOfCounterMeasures guildId st'
      = Some (ceil_div players 2) /\
    ceil_div players 2 = (players + 1) / 2 /\
    players <= 2 * ceil_div players 2 < players + 2 /\
    BlobGameService.getNumberOfDamageDealtToBlob guildId st' = Some 0 /\
    BlobGameService.getNumberOfCluesOnAct1 guildId st' = Some 0 /\
    BlobGameService.getBlobRemainingHealth guildId st' = Some (players * 15) /\
    BlobGameService.getStory guildId st' = Some narrative /\
    narrative ∈ BlobGame.POSSIBLE_STORIES /\
    length BlobGame.POSSIBLE_STORIES = 4%nat.
Proof.
  intros Hplayers Hrandom st'.
  destruct (index_in_range BlobGame.POSSIBLE_STORIES randomInt)
    as (narrative & Hindex & Hin); [simpl; lia|].
  exists narrative.
  assert (Hcur : exists game,
    BlobGameService.currentGameByGuildId st' !! guildId = Some game /\
    BlobGame.numberOfPlayers game = players /\
    BlobGame.numberOfDamageDealtToBlob game = 0 /\
    BlobGame.numberOfCluesOnAct1 game = 0 /\
    BlobGame.numberOfCounterMeasures game = ceil_div players 2 /\
    BlobGame.story game = Some narrative).
  { subst st'. unfold BlobGameService.startNewGame.
    rewrite Hindex, (chooseStory_possible _ _ Hin).
    rewrite repositorySave_currentGame. simpl.
    eexists. rewrite lookup_insert_eq. split; [reflexivity|]. by simpl. }
  destruct Hcur as (game & Hgame & Hp & Hd & Hc & Hm & Hs).
  unfold BlobGameService.getBlobTotalHealth,
    BlobGameService.getAct1ClueThreshold,
    BlobGameService.getNumberOfCounterMeasures,
    BlobGameService.getNumberOfDamageDealtToBlob,
    BlobGameService.getNumberOfCluesOnAct1,
    BlobGameService.getBlobRemainingHealth,
    BlobGameService.getStory.
  rewrite Hgame. simpl.
  unfold BlobGame.getBlobTotalHealth, BlobGame.getAct1ClueThreshold,
    BlobGame.getNumberOfCounterMeasures, BlobGame.getBlobRemainingHealth,
    BlobGame.getNumberOfDamageDealtToBlob, BlobGame.getNumberOfCluesOnAct1,
    BlobGame.getBlobTotalHealth, BlobGame.getStory,
    BlobGame.PER_INVESTIGATOR_TOTAL_HEALTH,
    BlobGame.PER_INVESTIGATOR_ACT1_CLUE_THRESHOLD.
  rewrite Hp, Hd, Hc, Hm, Hs.
  pose proof (ceil_div_2 players) as Hceil.
  pose proof (Z.div_mod (players + 1) 2 ltac:(lia)) as Hdm.
  pose proof (Z.mod_pos_bound (players + 1) 2 ltac:(lia)) as Hmod.
  repeat split; try done; try (f_equal; lia); lia.
Qed.

Lemma startNewGame_fresh_session_witness :
  let st := BlobGameService.mkState ∅ ∅ (ResourcesService.mkStore ∅ ∅ true) in
  let st' := snd (BlobGameService.startNewGame "guild" 3 1000 2 st) in
  BlobGameService.getBlobTotalHealth "guild" st' = Some 45 /\
  BlobGameService.getNumberOfCounterMeasures "guild" st' = Some 2.
Proof.
  intros st st'.
  destruct (startNewGame_fresh_session "guild" 3 1000 2 st
              ltac:(lia) ltac:(lia))
    as (narrative & Hh & _ & Hm & Hc & _).
  fold st' in Hh, Hm. rewrite Hh, Hm, Hc. split; reflexivity.
Defined.

(** C4. After any run of [dealDamageToBlob] calls on a session, the
    remaining health is the total health minus all the damage dealt: what
    the session had already taken plus the sum of the amounts; on a
    session with no damage yet, the total health minus the sum.  Nothing
    is clamped: a sum above the total health gives a negative remaining
    health.  The amounts need not even be non-negative for the equation. *)
Theorem remainingHealth_after_dealDamage (g : BlobGame.t) (ds : list Z) :
  let g' := fold_left (fun g d => BlobGame.dealDamageToBlob d g) ds g in
  let sum := foldr Z.add 0 ds in
  BlobGame.getBlobTotalHealth g' = BlobGame.getBlobTotalHealth g /\
  BlobGame.getBlobRemainingHealth g'
    = BlobGame.getBlobTotalHealth g
      - (BlobGame.getNumberOfDamageDealtToBlob g + sum) /\
  (BlobGame.getNumberOfDamageDealtToBlob g = 0 ->
   BlobGame.getBlobRemainingHealth g' = BlobGame.getBlobTotalHealth g - sum) /\
  (BlobGame.getNumberOfDamageDealtToBlob g = 0 ->
   BlobGame.getBlobTotalHealth g < sum ->
   BlobGame.getBlobRemainingHealth g' < 0).
Proof.
  intros g' sum.
  destruct (dealDamage_all ds g) as [Hp Hd]. fold g' in Hp, Hd.
  unfold BlobGame.getBlobRemainingHealth, BlobGame.getBlobTotalHealth,
    BlobGame.getNumberOfDamageDealtToBlob.
  rewrite Hp, Hd. fold sum. repeat split; intros; lia.
Qed.

Lemma remainingHealth_after_dealDamage_witness :
  let g := BlobGame.constructor 1 1000 2 in
  BlobGame.getBlobRemainingHealth
    (fold_left (fun g d => BlobGame.dealDamageToBlob d g) [10; 0; 25] g)
  = 30 - 35.
Proof.
  intros g.
  destruct (remainingHealth_after_dealDamage g [10; 0; 25])
    as (_ & _ & Hfresh & _).
  apply Hfresh. reflexivity.
Defined.

(** C5. [chooseStory(x)] throws for every [x] that is not one of the four
    possible stories and leaves the session, hence its story, as it was;
    for every [x] among them it completes and the story of the session is
    [x], nothing else of the session being changed. *)
Theorem chooseStory_closed_set (x : string) (g : BlobGame.t) :
  (x ∉ BlobGame.POSSIBLE_STORIES ->
   BlobGame.chooseStory x g = (Throw (NotAPossibleStory x), g) /\
   BlobGame.getStory (snd (BlobGame.chooseStory x g)) = BlobGame.getStory g)
  /\
  (x ∈ BlobGame.POSSIBLE_STORIES ->
   fst (BlobGame.chooseStory x g) = Return tt /\
   BlobGame.getStory (snd (BlobGame.chooseStory x g)) = Some x /\
   snd (BlobGame.chooseStory x g)
   = BlobGame.mk (BlobGame.id g) (BlobGame.dateCreated g)
       (BlobGame.dateEnded g) (BlobGame.numberOfPlayers g)
       (BlobGame.numberOfDamageDealtToBlob g)
       (BlobGame.numberOfCluesOnAct1 g)
       (BlobGame.numberOfCounterMeasures g) (Some x))
  /\ length BlobGame.POSSIBLE_STORIES = 4%nat.
Proof.
  split; [|split; [|reflexivity]].
  - intros Hx. by rewrite (chooseStory_impossible x g Hx).
  - intros Hx. by rewrite (chooseStory_possible x g Hx).
Qed.

Lemma chooseStory_closed_set_witness :
  let g := BlobGame.constructor 1 1000 2 in
  BlobGame.chooseStory "SAVE_THE_CAT" g
    = (Throw (NotAPossibleStory "SAVE_THE_CAT"), g)
  /\ BlobGame.getStory (snd (BlobGame.chooseStory "DRIVE_OFF_THE_MIGO" g))
     = Some "DRIVE_OFF_THE_MIGO"%string.
Proof.
  intros g. split.
  - apply (chooseStory_closed_set "SAVE_THE_CAT" g).
    apply includes_not_elem_of. reflexivity.
  - apply (chooseStory_closed_set "DRIVE_OFF_THE_MIGO" g).
    apply includes_elem_of. reflexivity.
Defined.

(** C6, as stated, fails: the session object adds the amount it is given,
    whatever its sign.  On a new session, dealing -1 damage or placing -1
    clue lowers the counter, below zero. *)
Lemma counters_decrease_on_negative_amount :
  let g := BlobGame.constructor 1 1000 2 in
  BlobGame.getNumberOfDamageDealtToBlob
    (BlobGame.perform (BlobGame.DealDamageToBlob (-1)) g)
  < BlobGame.getNumberOfDamageDealtToBlob g
  /\ BlobGame.getNumberOfDamageDealtToBlob
       (BlobGame.perform (BlobGame.DealDamageToBlob (-1)) g) < 0
  /\ BlobGame.getNumberOfCluesOnAct1
       (BlobGame.perform (BlobGame.PlaceCluesOnAct1 (-1)) g)
     < BlobGame.getNumberOfCluesOnAct1 g
  /\ BlobGame.getNumberOfCluesOnAct1
       (BlobGame.perform (BlobGame.PlaceCluesOnAct1 (-1)) g) < 0.
Proof. vm_compute. repeat split. Qed.

(** C6, amended.  On a session whose two counters are not negative, as a
    new one, and along any sequence of calls of the session object whose
    damage and clue amounts are not negative, the damage dealt and the
    clues placed stay non-negative and never decrease: at every point of
    the sequence they are at least what they were at any earlier point.
    The other calls (counter measures, story) leave both as they are. *)
Theorem counters_monotone_on_nonnegative_amounts
    (g : BlobGame.t) (before after : list BlobGame.call) :
  0 <= BlobGame.getNumberOfDamageDealtToBlob g ->
  0 <= BlobGame.getNumberOfCluesOnAct1 g ->
  Forall (fun c => 0 <= BlobGame.amountOf c) (before ++ after) ->
  let g1 := BlobGame.performAll before g in
  let g2 := BlobGame.performAll (before ++ after) g in
  0 <= BlobGame.getNumberOfDamageDealtToBlob g1
    <= BlobGame.getNumberOfDamageDealtToBlob g2 /\
  0 <= BlobGame.getNumberOfCluesOnAct1 g1
    <= BlobGame.getNumberOfCluesOnAct1 g2.
Proof.
  intros Hd Hc Hall g1 g2. apply Forall_app in Hall as [Hb Ha].
  subst g2. rewrite performAll_app. fold g1.
  destruct (performAll_grows before g Hb) as [Hd1 Hc1]. fold g1 in Hd1, Hc1.
  destruct (performAll_grows after g1 Ha) as [Hd2 Hc2].
  unfold BlobGame.getNumberOfDamageDealtToBlob,
    BlobGame.getNumberOfCluesOnAct1 in *.
  lia.
Qed.

Lemma counters_monotone_on_nonnegative_amounts_witness :
  let g := BlobGame.constructor 1 1000 2 in
  let before := [BlobGame.DealDamageToBlob 2; BlobGame.SpendCounterMeasures 1] in
  let after := [BlobGame.PlaceCluesOnAct1 3; BlobGame.DealDamageToBlob 0] in
  0 <= BlobGame.getNumberOfDamageDealtToBlob (BlobGame.performAll before g)
    <= BlobGame.getNumberOfDamageDealtToBlob
         (BlobGame.performAll (before ++ after) g).
Proof.
  intros g before after.
  apply (counters_monotone_on_nonnegative_amounts g before after).
  - vm_compute. discriminate.
  - vm_compute. discriminate.
  - repeat constructor; vm_compute; discriminate.
Defined.

(** ** The mutating calls of the service *)

Section MutationFacts.
Import ResourcesService BlobGameService.

(** Each of the four calls adds its signed amount to its counter. *)
Lemma counter_onGame (m : mutation) (game : BlobGame.t) :
  counter m (onGame m game) = counter m game + delta m.
Proof. destruct m; simpl; reflexivity || (cbn; lia). Qed.

(** The four calls have one shape: reject when the guild has no current
    game; otherwise change the current game, then save it. *)
Lemma run_unfold (m : mutation) (guildId : string) (st : state) :
  run m guildId st =
  match currentGameByGuildId st !! guildId with
  | None => (Throw Rejected, st)
  | Some game =>
      repositorySave guildId (onGame m game)
        (getBlobGameRepository guildId
           (setCurrentGame guildId (onGame m game) st))
  end.
Proof.
  destruct m; simpl;
    unfold dealDamageToBlob, placeCluesOnAct1, gainCounterMeasures,
      spendCounterMeasures;
    by destruct (currentGameByGuildId st !! guildId).
Qed.

Lemma read_current (m : mutation) (guildId : string) (st : state) :
  read m guildId st = counter m <$> currentGameByGuildId st !! guildId.
Proof. by destruct m. Qed.

End MutationFacts.

(** C2, as stated, fails.  With a current game for the guild and a store
    that refuses the write, [dealDamageToBlob] and [spendCounterMeasures]
    fail, the files are as before, and yet the current game has taken the
    change: the reads that follow show 3 damage, and 1 counter measure
    left, where the stored session has 0 and 2. *)
Lemma failed_save_keeps_the_mutation_in_memory :
  let game := BlobGame.constructor 1 1000 4 in
  let st :=
    BlobGameService.mkState {["guild"%string]} {["guild"%string := game]}
      (ResourcesService.mkStore {["guild"%string := [game]]} ∅ false) in
  let damaged := BlobGameService.dealDamageToBlob "guild" 3 st in
  let spent := BlobGameService.spendCounterMeasures "guild" 1 st in
  fst damaged = Throw WriteFailed /\
  BlobGameService.resources (snd damaged) = BlobGameService.resources st /\
  BlobGameService.getNumberOfDamageDealtToBlob "guild" st = Some 0 /\
  BlobGameService.getNumberOfDamageDealtToBlob "guild" (snd damaged) = Some 3 /\
  BlobGame.getNumberOfDamageDealtToBlob
    <$> BlobGameFileRepository.load "guild"
          (BlobGameService.resources (snd damaged)) = [0] /\
  BlobGameService.currentGameByGuildId (snd damaged)
    <> BlobGameService.currentGameByGuildId st /\
  fst spent = Throw WriteFailed /\
  BlobGameService.resources (snd spent) = BlobGameService.resources st /\
  BlobGameService.getNumberOfCounterMeasures "guild" st = Some 2 /\
  BlobGameService.getNumberOfCounterMeasures "guild" (snd spent) = Some 1.
Proof.
  intros game st damaged spent.
  repeat split; try (vm_compute; reflexivity).
  intros Heq.
  assert (H : BlobGameService.getNumberOfDamageDealtToBlob "guild" (snd damaged)
              = BlobGameService.getNumberOfDamageDealtToBlob "guild" st)
    by (unfold BlobGameService.getNumberOfDamageDealtToBlob; by rewrite Heq).
  vm_compute in H. discriminate.
Qed.

(** C2, amended.  A mutating call of the service on a guild without a
    current game is rejected and changes nothing, in memory or in the
    store.  With a current game, the change is made on it first, so the
    read that follows shows the counter moved by the amount, whatever the
    save does; when the store takes the write the call completes and the
    stored list of the guild holds the updated session, the lists of the
    other guilds being as before; when the write fails the call fails with
    that failure, the store is unchanged, and the current game keeps the
    change. *)
Theorem mutation_then_save
    (m : BlobGameService.mutation) (guildId : string)
    (st : BlobGameService.state) :
  let c := fst (BlobGameService.run m guildId st) in
  let st' := snd (BlobGameService.run m guildId st) in
  match BlobGameService.currentGameByGuildId st !! guildId with
  | None => c = Throw Rejected /\ st' = st
  | Some game =>
      BlobGameService.currentGameByGuildId st'
        = <[guildId := BlobGameService.onGame m game]>
            (BlobGameService.currentGameByGuildId st) /\
      BlobGameService.read m guildId st'
        = Some (BlobGameService.counter m game + BlobGameService.delta m) /\
      if ResourcesService.writable (BlobGameService.resources st) then
        c = Return tt /\
        BlobGameService.onGame m game
          ∈ BlobGameFileRepository.load guildId
              (BlobGameService.resources st') /\
        (forall other : string, other <> guildId ->
           BlobGameFileRepository.load other (BlobGameService.resources st')
           = BlobGameFileRepository.load other (BlobGameService.resources st))
      else
        c = Throw WriteFailed /\
        BlobGameService.resources st' = BlobGameService.resources st
  end.
Proof.
  intros c st'. subst c st'. rewrite run_unfold.
  destruct (BlobGameService.currentGameByGuildId st !! guildId)
    as [game|] eqn:Hcur; [|by split].
  set (game' := BlobGameService.onGame m game).
  set (st1 := BlobGameService.getBlobGameRepository guildId
                (BlobGameService.setCurrentGame guildId game' st)).
  assert (Hres : BlobGameService.resources st1 = BlobGameService.resources st)
    by reflexivity.
  split; [by rewrite repositorySave_currentGame|].
  split.
  { rewrite read_current, repositorySave_currentGame. simpl.
    rewrite lookup_insert_eq. simpl. subst game'.
    by rewrite counter_onGame. }
  rewrite <- Hres.
  destruct (ResourcesService.writable (BlobGameService.resources st1)) eqn:Hw.
  - rewrite (repositorySave_writable _ _ _ Hw). simpl.
    split; [done|]. unfold BlobGameFileRepository.load. simpl. split.
    + rewrite lookup_insert_eq. simpl. apply put_elem_of.
    + intros other Hother. by rewrite lookup_insert_ne.
  - by rewrite (repositorySave_readonly _ _ _ Hw).
Qed.

Lemma mutation_then_save_witness :
  let game := BlobGame.constructor 1 1000 4 in
  let st :=
    BlobGameService.mkState ∅ {["guild"%string := game]}
      (ResourcesService.mkStore {["guild"%string := [game]]} ∅ true) in
  BlobGameService.read (BlobGameService.PlaceCluesOnAct1 2) "guild"
    (snd (BlobGameService.run (BlobGameService.PlaceCluesOnAct1 2) "guild" st))
  = Some (0 + 2).
Proof.
  intros game st.
  pose proof (mutation_then_save (BlobGameService.PlaceCluesOnAct1 2)
                "guild" st) as H.
  change (BlobGameService.currentGameByGuildId st !! "guild"%string)
    with (Some game) in H.
  exact (proj1 (proj2 H)).
Defined.

(** ** Continuing the latest game *)

Section ContinueFacts.
Import ResourcesService BlobGameService.

Lemma sortByDateDesc_le (bg1 bg2 : BlobGame.t) :
  (sortByDateDesc bg1 bg2 <=? 0) = true
  <-> BlobGame.dateCreated bg2 <= BlobGame.dateCreated bg1.
Proof.
  unfold sortByDateDesc, BlobGame.getDateCreated.
  destruct (Z.ltb_spec (BlobGame.dateCreated bg1) (BlobGame.dateCreated bg2));
    [simpl; split; [discriminate|lia]|].
  destruct (BlobGame.dateCreated bg1 >? BlobGame.dateCreated bg2);
    simpl; split; auto.
Qed.

(** The first element after sorting is one of the latest. *)
Lemma sort_head_latest (l : list BlobGame.t) (g : BlobGame.t) :
  head (Js.sort sortByDateDesc l) = Some g ->
  g ∈ l /\
  forall g', g' ∈ l -> BlobGame.dateCreated g' <= BlobGame.dateCreated g.
Proof.
  revert g. induction l as [|x l IH]; intros g; simpl; [done|].
  rewrite insert_sorted_head.
  destruct (head (Js.sort sortByDateDesc l)) as [y|] eqn:Hhead.
  - destruct (IH y eq_refl) as [Hy Hmax].
    destruct (sortByDateDesc x y <=? 0) eqn:Hcmp; intros [= <-].
    + apply sortByDateDesc_le in Hcmp. split; [apply elem_of_cons; auto|].
      intros g' [->|Hg']%elem_of_cons; [lia|].
      specialize (Hmax g' Hg'). lia.
    + assert (~ BlobGame.dateCreated y <= BlobGame.dateCreated x) as Hlt.
      { rewrite <- sortByDateDesc_le. congruence. }
      split; [apply elem_of_cons; auto|].
      intros g' [->|Hg']%elem_of_cons; [lia|]. by apply Hmax.
  - intros [= <-].
    assert (l = []) as ->.
    { apply (sort_nil_inv sortByDateDesc).
      by destruct (Js.sort sortByDateDesc l). }
    split; [apply elem_of_cons; auto|].
    intros g' [->|Hg']%elem_of_cons; [lia|]. by apply elem_of_nil in Hg'.
Qed.

End ContinueFacts.

(** C3, as stated, fails in what the call returns: [continueLatestGame]
    resolves with the creation date of the game it makes current, not
    with the game.  Two stores whose running games differ, but were
    created at the same instant, give the same result while the current
    games differ. *)
Lemma continueLatestGame_returns_the_date :
  let gameOfTwo := BlobGame.constructor 1 1000 2 in
  let gameOfSix := BlobGame.constructor 1 1000 6 in
  let st1 :=
    BlobGameService.mkState ∅ ∅
      (ResourcesService.mkStore {["guild"%string := [gameOfTwo]]} ∅ true) in
  let st2 :=
    BlobGameService.mkState ∅ ∅
      (ResourcesService.mkStore {["guild"%string := [gameOfSix]]} ∅ true) in
  fst (BlobGameService.continueLatestGame "guild" st1) = Return (Some 1000) /\
  fst (BlobGameService.continueLatestGame "guild" st2) = Return (Some 1000) /\
  BlobGameService.currentGameByGuildId
    (snd (BlobGameService.continueLatestGame "guild" st1)) !! "guild"%string
  = Some gameOfTwo /\
  BlobGameService.currentGameByGuildId
    (snd (BlobGameService.continueLatestGame "guild" st2)) !! "guild"%string
  = Some gameOfSix /\
  gameOfTwo <> gameOfSix.
Proof.
  intros gameOfTwo gameOfSix st1 st2.
  repeat split; try (vm_compute; reflexivity).
  intros Heq. apply (f_equal BlobGame.numberOfPlayers) in Heq.
  vm_compute in Heq. discriminate.
Qed.

(** C3, amended.  [continueLatestGame] loads the stored sessions of the
    guild and keeps those without an end date.  When there is none, the
    store being empty or all its sessions ended, it returns [undefined]
    and the current game is as before.  Otherwise it makes current a
    stored running session whose creation date no other running session
    exceeds, and returns that creation date.  The store is only read. *)
Theorem continueLatestGame_latest_running
    (guildId : string) (st : BlobGameService.state) :
  let stored :=
    BlobGameFileRepository.load guildId (BlobGameService.resources st) in
  let c := fst (BlobGameService.continueLatestGame guildId st) in
  let st' := snd (BlobGameService.continueLatestGame guildId st) in
  BlobGameService.resources st' = BlobGameService.resources st /\
  ((forall game, game ∈ stored -> BlobGame.getDateEnded game <> None) ->
   c = Return None /\
   BlobGameService.currentGameByGuildId st'
   = BlobGameService.currentGameByGuildId st) /\
  (forall running,
     running ∈ stored -> BlobGame.getDateEnded running = None ->
     exists game,
       game ∈ stored /\
       BlobGame.getDateEnded game = None /\
       (forall other,
          other ∈ stored -> BlobGame.getDateEnded other = None ->
          BlobGame.getDateCreated other <= BlobGame.getDateCreated game) /\
       c = Return (Some (BlobGame.getDateCreated game)) /\
       BlobGameService.currentGameByGuildId st'
       = <[guildId := game]> (BlobGameService.currentGameByGuildId st)).
Proof.
  intros stored c st'. subst c st'.
  unfold BlobGameService.continueLatestGame.
  cbn [BlobGameService.getBlobGameRepository BlobGameService.resources].
  fold stored.
  set (runningGames :=
         filter (fun game => BlobGame.getDateEnded game = None) stored).
  assert (Hrun : forall g, g ∈ runningGames
                           <-> BlobGame.getDateEnded g = None /\ g ∈ stored)
    by (intros g; unfold runningGames; by rewrite list_elem_of_filter).
  destruct (Nat.eqb_spec (length stored) 0) as [Hnil|Hcons].
  { apply nil_length_inv in Hnil. rewrite Hnil. simpl.
    split; [done|]. split; [done|].
    intros running Hin. by apply elem_of_nil in Hin. }
  destruct (Nat.eqb_spec (length runningGames) 0) as [Hnone|Hsome].
  { apply nil_length_inv in Hnone. simpl.
    split; [done|]. split; [done|].
    intros running Hin Hended.
    assert (running ∈ runningGames) as Habs by (by apply Hrun).
    rewrite Hnone in Habs. by apply elem_of_nil in Habs. }
  destruct (Js.sort BlobGameService.sortByDateDesc runningGames)
    as [|game rest] eqn:Hsort.
  { apply sort_nil_inv in Hsort. by rewrite Hsort in Hsome. }
  destruct (sort_head_latest runningGames game) as [Hgame Hmax];
    [by rewrite Hsort|].
  apply Hrun in Hgame as [Hended Hstored]. simpl.
  split; [done|]. split.
  { intros Hall. by destruct (Hall game Hstored). }
  intros _ _ _. exists game. repeat split; try done.
  intros other Hother Hoended. apply Hmax, Hrun. by split.
Qed.

Lemma continueLatestGame_latest_running_witness :
  let older := BlobGame.constructor 1 1000 2 in
  let ended := BlobGame.endGame 5000 (BlobGame.constructor 2 3000 4) in
  let newer := BlobGame.constructor 3 2000 6 in
  let st :=
    BlobGameService.mkState ∅ ∅
      (ResourcesService.mkStore
         {["guild"%string := [older; ended; newer]]} ∅ true) in
  exists game,
    BlobGame.getDateEnded game = None /\
    fst (BlobGameService.continueLatestGame "guild" st)
    = Return (Some (BlobGame.getDateCreated game)).
Proof.
  intros older ended newer st.
  destruct (continueLatestGame_latest_running "guild" st)
    as (_ & _ & Hrunning).
  destruct (Hrunning older) as (game & _ & Hended & _ & Hc & _).
  - apply elem_of_cons. left. reflexivity.
  - reflexivity.
  - exists game. split; assumption.
Defined.

(** ** The channel cache *)

Section DiscordFacts.
Import Discord.

Lemma cacheFind_id_Some (guild : Guild) (groupId : string) (ch : GuildChannel) :
  cacheFind (fun channel => String.eqb (id channel) groupId) guild = Some ch ->
  id ch = groupId /\ ch ∈ cache guild.
Proof.
  intros Hfind. apply find_some in Hfind as [Hin Heq].
  apply String.eqb_eq in Heq. split; [done|]. by apply list_elem_of_In.
Qed.

Lemma cacheFind_id_cached (guild : Guild) (groupId : string) :
  groupId ∈ id <$> cache guild ->
  exists ch,
    cacheFind (fun channel => String.eqb (id channel) groupId) guild = Some ch.
Proof.
  intros (c & -> & Hc)%list_elem_of_fmap.
  destruct (cacheFind (fun channel => String.eqb (id channel) (id c)) guild)
    as [ch|] eqn:Hfind; [by exists ch|].
  eapply find_none in Hfind; [|by apply list_elem_of_In].
  simpl in Hfind. by rewrite String.eqb_refl in Hfind.
Qed.

Lemma includes_fmap_id_cached (guild : Guild) (groupId : string) :
  includes (id <$> cache guild) groupId = true <->
  exists ch,
    cacheFind (fun channel => String.eqb (id channel) groupId) guild = Some ch.
Proof.
  rewrite includes_elem_of. split.
  - apply cacheFind_id_cached.
  - intros (ch & Hch). apply cacheFind_id_Some in Hch as [<- Hin].
    by apply list_elem_of_fmap_2.
Qed.

(** The identifiers of the channels that the clean-up finds: those of the
    list that are cached, in the order of the list. *)
Lemma omap_cacheFind_cached (guild : Guild) (groupsId : list string) :
  id <$> omap (fun groupId =>
                 cacheFind (fun channel => String.eqb (id channel) groupId)
                           guild)
              groupsId
  = List.filter (fun groupId => includes (id <$> cache guild) groupId)
                groupsId.
Proof.
  induction groupsId as [|groupId groupsId IH]; [done|].
  cbn [omap list_omap List.filter].
  destruct (cacheFind _ guild) as [ch|] eqn:Hfind.
  - rewrite (proj2 (includes_fmap_id_cached guild groupId)) by eauto.
    apply cacheFind_id_Some in Hfind as [Hid _].
    rewrite fmap_cons. by rewrite Hid, IH.
  - destruct (includes (id <$> cache guild) groupId) eqn:Hinc; [|done].
    apply includes_fmap_id_cached in Hinc as (ch & Hch). congruence.
Qed.

(** Identifiers that are all cached are all kept. *)
Lemma filter_cached_all (guild : Guild) (groupsId : list string) :
  Forall (fun groupId => groupId ∈ id <$> cache guild) groupsId ->
  List.filter (fun groupId => includes (id <$> cache guild) groupId) groupsId
  = groupsId.
Proof.
  induction 1 as [|groupId groupsId Hin _ IH]; [done|].
  cbn [List.filter]. apply includes_elem_of in Hin. by rewrite Hin, IH.
Qed.

Lemma existsb_none {A} (f : A -> bool) (l : list A) :
  (forall x, x ∈ l -> f x = false) -> existsb f l = false.
Proof.
  intros Hall. destruct (existsb f l) eqn:Hex; [|done].
  apply existsb_exists in Hex as (x & Hin & Hx).
  rewrite Hall in Hx; [done|by apply list_elem_of_In].
Qed.

Lemma existsb_some {A} (f : A -> bool) (l : list A) (x : A) :
  x ∈ l -> f x = true -> existsb f l = true.
Proof.
  intros Hin Hx. apply existsb_exists. exists x.
  split; [by apply list_elem_of_In|done].
Qed.

(** Every deletion is called, in order, and only the record of the calls
    changes. *)
Lemma deleteAll_spec (channels : list GuildChannel) (guild : Guild) :
  MassMultiplayerEventService.deleteAll channels guild
  = ((fun ch =>
        if refuses guild (DeleteChannel (id ch))
        then Throw DiscordAPIError else Return tt) <$> channels,
     {| guildId := guildId guild; cache := cache guild;
        nextSnowflake := nextSnowflake guild;
        deleted := deleted guild ++ (id <$> channels);
        sent := sent guild; refuses := refuses guild |}).
Proof.
  revert guild. induction channels as [|ch channels IH]; intros guild.
  - simpl. rewrite app_nil_r. by destruct guild.
  - cbn [MassMultiplayerEventService.deleteAll]. unfold delete.
    rewrite IH. simpl. by rewrite <- app_assoc.
Qed.

(** [Promise.all] of the deletions: rejected as soon as one is refused. *)
Lemma promiseAll_deletions (guild : Guild) (channels : list GuildChannel) :
  promiseAll
    ((fun ch =>
        if refuses guild (DeleteChannel (id ch))
        then Throw DiscordAPIError else Return tt) <$> channels)
  = if existsb (fun groupId => refuses guild (DeleteChannel groupId))
               (id <$> channels)
    then Throw DiscordAPIError
    else Return ((fun _ => tt) <$> channels).
Proof.
  induction channels as [|ch channels IH]; [done|].
  rewrite !fmap_cons. cbn [promiseAll existsb].
  destruct (refuses guild (DeleteChannel (id ch))); cbn [orb]; [done|].
  rewrite IH. by destruct (existsb _ _).
Qed.

(** Every send is called, in order, and only the record of the calls
    changes. *)
Lemma sendAll_spec (c : MassMultiplayerEventService.content)
    (channels : list GuildChannel) (guild : Guild) :
  let payload_ :=
    match c with
    | MassMultiplayerEventService.OfString s => Content s
    | MassMultiplayerEventService.OfEmbed e => Embeds [e]
    end in
  let messages := (fun ch => mkMessage (id ch) payload_) <$> channels in
  MassMultiplayerEventService.sendAll c channels guild
  = ((fun message =>
        if emptyContent (payload message) then Throw DiscordjsError
        else if refuses guild
                  (SendMessage (channelId message) (payload message))
        then Throw DiscordAPIError
        else Return message) <$> messages,
     {| guildId := guildId guild; cache := cache guild;
        nextSnowflake := nextSnowflake guild; deleted := deleted guild;
        sent := sent guild ++ messages; refuses := refuses guild |}).
Proof.
  intros payload_ messages. subst messages.
  revert guild. induction channels as [|ch channels IH]; intros guild.
  - simpl. rewrite app_nil_r. by destruct guild.
  - cbn [MassMultiplayerEventService.sendAll].
    assert (MassMultiplayerEventService.sendTo c ch guild
            = send ch payload_ guild) as -> by (by destruct c).
    unfold send. rewrite IH. simpl. by rewrite <- app_assoc.
Qed.

(** [Promise.all] of the sends of one content: the messages when each is
    delivered, a rejection otherwise. *)
Lemma promiseAll_sends (guild : Guild) (payload_ : MessageOptions)
    (messages : list Message) :
  Forall (fun message => payload message = payload_) messages ->
  promiseAll
    ((fun message =>
        if emptyContent (payload message) then Throw DiscordjsError
        else if refuses guild
                  (SendMessage (channelId message) (payload message))
        then Throw DiscordAPIError
        else Return message) <$> messages)
  = if forallb (delivers guild) messages then Return messages
    else Throw (if emptyContent payload_ then DiscordjsError
                else DiscordAPIError).
Proof.
  induction 1 as [|message messages Hpayload _ IH]; [done|].
  rewrite fmap_cons. cbn [promiseAll forallb]. unfold delivers at 1.
  rewrite Hpayload.
  destruct (emptyContent payload_); cbn [negb andb]; [done|].
  destruct (refuses guild _); cbn [negb andb]; [done|].
  rewrite IH. by destruct (forallb _ _).
Qed.

End DiscordFacts.

(** ** The channel-group registry *)

Section RegistryFacts.
Import ResourcesService Discord EnvService MassMultiplayerEventService.

(** What [broadcastMessage] keeps of the identifiers of the groups, whom it
    sends to and how it ends. *)
Lemma broadcastMessage_unfold (env : EnvService.t) (c : content)
    (excludeGroupIds : option (list string)) (guild : Guild) (st : state)
    (groupsId : list string) :
  groupChannelsIdByGuildId st !! guildId guild = Some groupsId ->
  let kept :=
    match excludeGroupIds with
    | Some excluded =>
        List.filter (fun id_ => negb (includes excluded id_)) groupsId
    | None => groupsId
    end in
  let payload_ :=
    match c with OfString s => Content s | OfEmbed e => Embeds [e] end in
  broadcastMessage env c excludeGroupIds (guild, st) =
  match getAdminChannel env guild with
  | Throw e => (Throw e, guild)
  | Return adminChannel =>
      let messages :=
        (fun ch => mkMessage (id ch) payload_)
          <$> (textChannels guild kept ++ option_list adminChannel) in
      (if forallb (delivers guild) messages then Return messages
       else Throw (if emptyContent payload_ then DiscordjsError
                   else DiscordAPIError),
       {| guildId := guildId guild; cache := cache guild;
          nextSnowflake := nextSnowflake guild; deleted := deleted guild;
          sent := sent guild ++ messages; refuses := refuses guild |})
  end.
Proof.
  intros Hgroups kept payload_. unfold broadcastMessage. rewrite Hgroups.
  fold kept. destruct (getAdminChannel env guild) as [adminChannel|e]; [|done].
  assert (match adminChannel with
          | Some adminChannel => textChannels guild kept ++ [adminChannel]
          | None => textChannels guild kept
          end = textChannels guild kept ++ option_list adminChannel) as ->.
  { destruct adminChannel; simpl; [done|by rewrite app_nil_r]. }
  rewrite sendAll_spec. cbv zeta. fold payload_.
  rewrite (promiseAll_sends guild payload_); [done|].
  apply Forall_fmap, Forall_forall. by intros ch _.
Qed.

Lemma getAdminChannel_unset_category (env : EnvService.t) (guild : Guild) :
  massMultiplayerEventCategoryName env = None ->
  truthy (massMultiplayerEventAdminChannelName env) = true ->
  getAdminChannel env guild = Return None.
Proof.
  intros Hcat Hadmin. unfold getAdminChannel. rewrite Hcat, Hadmin. simpl.
  f_equal. unfold cacheFind.
  destruct (find _ (cache guild)) as [ch|] eqn:Hfind; [|done].
  apply find_some in Hfind as [_ Hch]. cbv beta in Hch.
  by destruct (parent guild ch).
Qed.

Lemma getAdminChannel_unset_admin (env : EnvService.t) (guild : Guild) :
  massMultiplayerEventAdminChannelName env = None ->
  truthy (massMultiplayerEventCategoryName env) = true ->
  getAdminChannel env guild = Return None.
Proof.
  intros Hadmin Hcat. unfold getAdminChannel. rewrite Hcat, Hadmin. simpl.
  f_equal. unfold cacheFind.
  destruct (find _ (cache guild)) as [ch|] eqn:Hfind; [|done].
  apply find_some in Hfind as [_ Hch]. cbv beta in Hch.
  destruct (parent guild ch); [|done].
  by rewrite andb_false_r in Hch.
Qed.

(** What [cleanGroupChannels] does with a list: the deletion of every
    identifier of the list that is cached is called, in order; when the
    platform takes them all the list is cleared and saved, and when it
    refuses one the call fails and the list stays. *)
Lemma cleanGroupChannels_unfold (guild : Guild) (st : state)
    (groupsId : list string) :
  groupChannelsIdByGuildId st !! guildId guild = Some groupsId ->
  let attempts :=
    List.filter (fun groupId => includes (id <$> cache guild) groupId)
                groupsId in
  let guild' :=
    {| guildId := guildId guild; cache := cache guild;
       nextSnowflake := nextSnowflake guild;
       deleted := deleted guild ++ attempts;
       sent := sent guild; refuses := refuses guild |} in
  cleanGroupChannels (guild, st)
  = if existsb (fun groupId => refuses guild (DeleteChannel groupId)) attempts
    then (Throw DiscordAPIError, (guild', st))
    else (Return tt,
          (guild',
           saveState (guildId guild) (setGroups (guildId guild) [] st))).
Proof.
  intros Hgroups attempts guild'. unfold cleanGroupChannels.
  rewrite Hgroups, deleteAll_spec, promiseAll_deletions.
  rewrite omap_cacheFind_cached. fold attempts guild'.
  by destruct (existsb _ attempts).
Qed.

End RegistryFacts.

(** C9. For a guild without an entry in the table of group channels (no
    group was created for it, and no saved list was loaded) the clean-up
    throws, on the read of [map] from [undefined], and changes nothing.
    With an entry, even an empty list, it does not throw so: it completes,
    unless the platform refuses one of the deletions it asks, those of the
    identifiers of the list that are cached.  A load with no saved list
    leaves the entry absent. *)
Theorem cleanGroupChannels_needs_the_list
    (guild : Discord.Guild) (st : MassMultiplayerEventService.state) :
  (MassMultiplayerEventService.groupChannelsIdByGuildId st
     !! Discord.guildId guild = None ->
   MassMultiplayerEventService.cleanGroupChannels (guild, st)
   = (Throw TypeError, (guild, st))) /\
  (forall groupsId,
     MassMultiplayerEventService.groupChannelsIdByGuildId st
       !! Discord.guildId guild = Some groupsId ->
     fst (MassMultiplayerEventService.cleanGroupChannels (guild, st))
     = if existsb
            (fun groupId =>
               Discord.refuses guild (Discord.DeleteChannel groupId))
            (List.filter
               (fun groupId =>
                  includes (Discord.id <$> Discord.cache guild) groupId)
               groupsId)
       then Throw DiscordAPIError
       else Return tt) /\
  (ResourcesService.massMultiplayerEventsGroups
     (MassMultiplayerEventService.resources st) !! Discord.guildId guild = None ->
   MassMultiplayerEventService.groupChannelsIdByGuildId
     (MassMultiplayerEventService.loadState (Discord.guildId guild) st)
   = MassMultiplayerEventService.groupChannelsIdByGuildId st).
Proof.
  split; [|split].
  - intros Hnone. unfold MassMultiplayerEventService.cleanGroupChannels.
    by rewrite Hnone.
  - intros groupsId Hsome.
    rewrite (cleanGroupChannels_unfold guild st groupsId Hsome).
    by destruct (existsb _ _).
  - intros Hfile. unfold MassMultiplayerEventService.loadState.
    by rewrite Hfile.
Qed.

Lemma cleanGroupChannels_needs_the_list_witness :
  let guild := Discord.mkGuild "guild" [] 100 [] [] (fun _ => false) in
  let st :=
    MassMultiplayerEventService.loadState "guild"
      (MassMultiplayerEventService.mkState ∅
         (ResourcesService.mkStore ∅ ∅ true)) in
  MassMultiplayerEventService.cleanGroupChannels (guild, st)
  = (Throw TypeError, (guild, st)).
Proof.
  intros guild st.
  apply (cleanGroupChannels_needs_the_list guild st). reflexivity.
Defined.

(** C10. [getAdminChannel] throws the configuration error exactly when
    neither the category name nor the admin channel name is set (both are
    falsy); with one of them set it returns.  When exactly one of the two
    is unset it finds no channel, and returns [undefined]: no channel has
    a name, or a parent with a name, that is [undefined].  A broadcast
    then sends to the text channels of the groups alone, and it returns
    their messages when each of them is delivered. *)
Theorem getAdminChannel_half_configured
    (env : EnvService.t) (guild : Discord.Guild) :
  let category := EnvService.massMultiplayerEventCategoryName env in
  let admin := EnvService.massMultiplayerEventAdminChannelName env in
  (truthy category = false /\ truthy admin = false <->
   MassMultiplayerEventService.getAdminChannel env guild
   = Throw ConfigurationMissing) /\
  (truthy category = true \/ truthy admin = true <->
   exists found,
     MassMultiplayerEventService.getAdminChannel env guild = Return found) /\
  (category = None /\ truthy admin = true \/
   admin = None /\ truthy category = true ->
   MassMultiplayerEventService.getAdminChannel env guild = Return None /\
   forall c excluded st groupsId,
     MassMultiplayerEventService.groupChannelsIdByGuildId st
       !! Discord.guildId guild = Some groupsId ->
     let payload_ :=
       match c with
       | MassMultiplayerEventService.OfString s => Discord.Content s
       | MassMultiplayerEventService.OfEmbed e => Discord.Embeds [e]
       end in
     let messages :=
       (fun ch => Discord.mkMessage (Discord.id ch) payload_)
         <$> MassMultiplayerEventService.textChannels guild
               match excluded with
               | Some excluded =>
                   List.filter (fun id_ => negb (includes excluded id_))
                               groupsId
               | None => groupsId
               end in
     let r :=
       MassMultiplayerEventService.broadcastMessage env c excluded
         (guild, st) in
     Discord.sent (snd r) = Discord.sent guild ++ messages /\
     fst r
     = if forallb (Discord.delivers guild) messages then Return messages
       else Throw (if Discord.emptyContent payload_ then DiscordjsError
                   else DiscordAPIError)).
Proof.
  intros category admin. split; [|split].
  - unfold MassMultiplayerEventService.getAdminChannel.
    fold category admin.
    destruct (truthy category), (truthy admin); simpl;
      split; (intros [? ?] || intros ?); (done || by split).
  - unfold MassMultiplayerEventService.getAdminChannel.
    fold category admin.
    destruct (truthy category), (truthy admin); simpl; split;
      try (intros _; eauto; fail);
      try (intros [?|?]; done);
      try (intros [? ?]; done).
  - intros Hhalf.
    assert (MassMultiplayerEventService.getAdminChannel env guild
            = Return None) as Hnone.
    { destruct Hhalf as [[Hc Ha]|[Ha Hc]].
      - by apply getAdminChannel_unset_category.
      - by apply getAdminChannel_unset_admin. }
    split; [done|]. intros c excluded st groupsId Hgroups payload_ messages r.
    subst r.
    rewrite (broadcastMessage_unfold env c excluded guild st groupsId Hgroups).
    rewrite Hnone. cbn [option_list fst snd Discord.sent].
    rewrite app_nil_r. by split.
Qed.

Lemma getAdminChannel_half_configured_witness :
  let env := EnvService.mk (Some "evenement"%string) None in
  let guild :=
    Discord.mkGuild "guild"
      [ Discord.mkChannel "1" "evenement" Discord.GUILD_CATEGORY None;
        Discord.mkChannel "2" "admin" Discord.GUILD_TEXT (Some "1"%string) ]
      100 [] [] (fun _ => false) in
  MassMultiplayerEventService.getAdminChannel env guild = Return None.
Proof.
  intros env guild.
  apply (getAdminChannel_half_configured env guild).
  right. split; reflexivity.
Defined.

(** ** Creating and cleaning the group channels *)

Section CreateFacts.
Import ResourcesService Discord EnvService MassMultiplayerEventService.

Lemma reparent_same (categoryId : string) (c : GuildChannel) :
  parentId c = Some categoryId ->
  {| id := id c; name := name c; type := type c;
     parentId := Some categoryId |} = c.
Proof. destruct c; simpl. by intros ->. Qed.

(** One turn of the loop, when the platform takes the requests: the text
    channel and the voice channel of the group enter the cache under the
    category, with the next two identifiers, which are appended to the
    list of the guild.  The channels already cached keep their place,
    identifier, name and type; a channel is moved under the category only
    if it has one of the two new identifiers. *)
Lemma createGroup_spec (categoryId : string) (groupNumber : Z)
    (guild : Guild) (st : state) :
  (forall name_ type_, refuses guild (CreateChannel name_ type_) = false) ->
  (forall channelId_ categoryId_,
     refuses guild (SetParent channelId_ categoryId_) = false) ->
  let n := nextSnowflake guild in
  let textChannel :=
    mkChannel (pretty n) ("groupe-" +:+ pretty groupNumber)
      GUILD_TEXT (Some categoryId) in
  let voiceChannel :=
    mkChannel (pretty (N.succ n)) ("voice-groupe-" +:+ pretty groupNumber)
      GUILD_VOICE (Some categoryId) in
  exists patch : GuildChannel -> GuildChannel,
    (forall c, parentId c = Some categoryId -> patch c = c) /\
    (forall c,
       id (patch c) = id c /\ name (patch c) = name c /\
       type (patch c) = type c /\
       (parentId (patch c) = parentId c \/
        parentId (patch c) = Some categoryId)) /\
    (forall c, (forall m, (n <= m)%N -> id c <> pretty m) -> patch c = c) /\
    createGroup categoryId groupNumber (guild, st) =
    (Return tt,
     ({| guildId := guildId guild;
         cache := map patch (cache guild) ++ [textChannel; voiceChannel];
         nextSnowflake := N.succ (N.succ n);
         deleted := deleted guild;
         sent := sent guild;
         refuses := refuses guild |},
      setGroups (guildId guild)
        (default [] (groupChannelsIdByGuildId st !! guildId guild)
         ++ [pretty n; pretty (N.succ n)])
        st)).
Proof.
  intros Hcreate HsetParent n textChannel voiceChannel.
  set (patchId := fun (i : string) (c : GuildChannel) =>
         if String.eqb (id c) i then
           {| id := id c; name := name c; type := type c;
              parentId := Some categoryId |}
         else c).
  assert (Hpatch : forall i c, parentId c = Some categoryId -> patchId i c = c).
  { intros i c Hc. unfold patchId. destruct (String.eqb (id c) i); [|done].
    by apply reparent_same. }
  assert (Hkeeps : forall i c,
            id (patchId i c) = id c /\ name (patchId i c) = name c /\
            type (patchId i c) = type c /\
            (parentId (patchId i c) = parentId c \/
             parentId (patchId i c) = Some categoryId)).
  { intros i c. unfold patchId. destruct (String.eqb (id c) i); cbn; auto. }
  assert (Hother : forall i c, id c <> i -> patchId i c = c).
  { intros i c Hne. unfold patchId.
    by destruct (String.eqb_spec (id c) i). }
  exists (fun c => patchId (pretty (N.succ n)) (patchId (pretty n) c)).
  split; [|split; [|split]].
  { intros c Hc. rewrite (Hpatch _ c Hc). by apply Hpatch. }
  { intros c.
    destruct (Hkeeps (pretty n) c) as (E1 & E2 & E3 & E4).
    destruct (Hkeeps (pretty (N.succ n)) (patchId (pretty n) c))
      as (F1 & F2 & F3 & F4).
    rewrite F1, F2, F3, E1, E2, E3. repeat split.
    destruct F4 as [F4|F4]; [|by right]. rewrite F4. exact E4. }
  { intros c Hfresh. rewrite (Hother (pretty n) c) by (apply Hfresh; lia).
    apply Hother, Hfresh. lia. }
  unfold createGroup, create, setParent.
  rewrite Hcreate. cbn -[pretty String.eqb].
  rewrite HsetParent. cbn -[pretty String.eqb].
  rewrite Hcreate. cbn -[pretty String.eqb].
  rewrite HsetParent. cbn -[pretty String.eqb].
  fold n. fold (patchId (pretty n)). fold (patchId (pretty (N.succ n))).
  rewrite !map_app, map_map. cbn [map].
  assert (patchId (pretty n)
            (mkChannel (pretty n) ("groupe-" +:+ pretty groupNumber)
               GUILD_TEXT None) = textChannel) as ->.
  { unfold patchId. cbn [id]. by rewrite String.eqb_refl. }
  assert (patchId (pretty (N.succ n))
            (mkChannel (pretty (N.succ n))
               ("voice-groupe-" +:+ pretty groupNumber) GUILD_VOICE None)
          = voiceChannel) as ->.
  { unfold patchId. cbn [id]. by rewrite String.eqb_refl. }
  rewrite (Hpatch _ textChannel eq_refl).
  rewrite <- app_assoc. cbn [app].
  destruct (groupChannelsIdByGuildId st !! guildId guild); reflexivity.
Qed.

End CreateFacts.

Section CreateThreeFacts.
Import ResourcesService Discord EnvService MassMultiplayerEventService.

(** The six channels of three groups, for a platform whose next
    identifier is [n] and which takes the requests. *)
Lemma createGroups_three (categoryId : string) (guild : Guild) (st : state) :
  (forall name_ type_, refuses guild (CreateChannel name_ type_) = false) ->
  (forall channelId_ categoryId_,
     refuses guild (SetParent channelId_ categoryId_) = false) ->
  let n := nextSnowflake guild in
  let channel k name_ type_ :=
    mkChannel (pretty (n + k)%N) name_ type_ (Some categoryId) in
  exists existing : list GuildChannel,
    length existing = length (cache guild) /\
    createGroups 3 categoryId 1 (guild, st) =
    (Return tt,
     ({| guildId := guildId guild;
         cache :=
           existing ++
           [ channel 0%N "groupe-1"%string GUILD_TEXT;
             channel 1%N "voice-groupe-1"%string GUILD_VOICE;
             channel 2%N "groupe-2"%string GUILD_TEXT;
             channel 3%N "voice-groupe-2"%string GUILD_VOICE;
             channel 4%N "groupe-3"%string GUILD_TEXT;
             channel 5%N "voice-groupe-3"%string GUILD_VOICE ];
         nextSnowflake := (n + 6)%N;
         deleted := deleted guild;
         sent := sent guild;
         refuses := refuses guild |},
      setGroups (guildId guild)
        (default [] (groupChannelsIdByGuildId st !! guildId guild)
         ++ [ pretty n; pretty (n + 1)%N; pretty (n + 2)%N;
              pretty (n + 3)%N; pretty (n + 4)%N; pretty (n + 5)%N ])
        st)).
Proof.
  intros Hcreate HsetParent n channel. cbn [createGroups].
  change (1 + 1) with 2. change (2 + 1) with 3.
  destruct (createGroup_spec categoryId 1 guild st Hcreate HsetParent)
    as (p1 & Hp1 & _ & _ & ->).
  match goal with
  | |- context [createGroup categoryId 2 (?g, ?s)] =>
      destruct (createGroup_spec categoryId 2 g s Hcreate HsetParent)
        as (p2 & Hp2 & _ & _ & ->)
  end.
  match goal with
  | |- context [createGroup categoryId 3 (?g, ?s)] =>
      destruct (createGroup_spec categoryId 3 g s Hcreate HsetParent)
        as (p3 & Hp3 & _ & _ & ->)
  end.
  cbn [guildId cache nextSnowflake deleted sent refuses].
  fold n.
  exists (map p3 (map p2 (map p1 (cache guild)))).
  split; [by rewrite !length_map|].
  rewrite !map_app. cbn [map].
  rewrite !Hp2, !Hp3 by reflexivity.
  rewrite <- !app_assoc. cbn [app].
  replace (N.succ n) with (n + 1)%N by lia.
  replace (N.succ (n + 1)) with (n + 2)%N by lia.
  replace (N.succ (n + 2)) with (n + 3)%N by lia.
  replace (N.succ (n + 3)) with (n + 4)%N by lia.
  replace (N.succ (n + 4)) with (n + 5)%N by lia.
  replace (N.succ (n + 5)) with (n + 6)%N by lia.
  unfold channel. rewrite N.add_0_r.
  f_equal. f_equal.
  unfold setGroups. cbn [groupChannelsIdByGuildId resources].
  rewrite !lookup_insert_eq. cbn [default from_option].
  unfold Datatypes.id.
  rewrite !insert_insert_eq. rewrite <- !app_assoc. reflexivity.
Qed.

End CreateThreeFacts.

Section CleanFacts.
Import ResourcesService Discord EnvService MassMultiplayerEventService.

Lemma saveState_groups (guildId_ : string) (st : state) :
  groupChannelsIdByGuildId (saveState guildId_ st)
  = groupChannelsIdByGuildId st.
Proof.
  unfold saveState.
  destruct (groupChannelsIdByGuildId st !! guildId_); [|done].
  by destruct (writable (resources st)).
Qed.

Lemma saveState_saved (guildId_ : string) (st : state)
    (groupsId : list string) :
  groupChannelsIdByGuildId st !! guildId_ = Some groupsId ->
  writable (resources st) = true ->
  massMultiplayerEventsGroups (resources (saveState guildId_ st)) !! guildId_
  = Some groupsId.
Proof.
  intros Hgroups Hw. unfold saveState. rewrite Hgroups, Hw. simpl.
  apply lookup_insert_eq.
Qed.

Lemma saveState_writable (guildId_ : string) (st : state) :
  writable (resources (saveState guildId_ st)) = writable (resources st).
Proof.
  unfold saveState.
  destruct (groupChannelsIdByGuildId st !! guildId_); [|done].
  by destruct (writable (resources st)) eqn:Hw.
Qed.

Lemma saveState_cleared (guildId_ : string) (st : state) :
  saveState guildId_ (setGroups guildId_ [] st)
  = {| groupChannelsIdByGuildId :=
         <[guildId_ := []]> (groupChannelsIdByGuildId st);
       resources :=
         if writable (resources st) then
           withGroups
             (<[guildId_ := []]> (massMultiplayerEventsGroups (resources st)))
             (resources st)
         else resources st |}.
Proof.
  unfold saveState, setGroups. cbn [groupChannelsIdByGuildId resources].
  rewrite lookup_insert_eq. by destruct (writable (resources st)).
Qed.

(** Clearing and saving twice is clearing and saving once. *)
Lemma clear_and_save_twice (guildId_ : string) (st : state) :
  let st' := saveState guildId_ (setGroups guildId_ [] st) in
  saveState guildId_ (setGroups guildId_ [] st') = st'.
Proof.
  intros st'. subst st'. rewrite !saveState_cleared.
  cbn [groupChannelsIdByGuildId resources]. rewrite insert_insert_eq.
  f_equal.
  destruct (writable (resources st)) eqn:Hw; cbn [withGroups writable].
  - rewrite Hw. unfold withGroups. cbn [massMultiplayerEventsGroups blobGames
      writable]. by rewrite insert_insert_eq.
  - by rewrite Hw.
Qed.

End CleanFacts.

(** C7, as stated, fails: the list is cleared after the deletions have all
    been accepted, not after they have been attempted.  Three groups are
    created, and the platform then refuses the deletion of the voice
    channel "103" of the second group: the clean-up has asked the six
    deletions, fails, and leaves the six identifiers in the list of the
    guild and in its file; the event still runs. *)
Lemma refused_deletion_keeps_the_list :
  let env := EnvService.mk (Some "evenement"%string) (Some "admin"%string) in
  let guild :=
    Discord.mkGuild "guild"
      [ Discord.mkChannel "1" "evenement" Discord.GUILD_CATEGORY None;
        Discord.mkChannel "2" "admin" Discord.GUILD_TEXT (Some "1"%string) ]
      100 [] []
      (fun request =>
         match request with
         | Discord.DeleteChannel channelId_ => String.eqb channelId_ "103"
         | _ => false
         end) in
  let st :=
    MassMultiplayerEventService.mkState ∅
      (ResourcesService.mkStore ∅ ∅ true) in
  let created := ["100"; "101"; "102"; "103"; "104"; "105"]%string in
  let afterCreate :=
    MassMultiplayerEventService.createGroupChannels env 3 (guild, st) in
  let afterClean :=
    MassMultiplayerEventService.cleanGroupChannels (snd afterCreate) in
  fst afterCreate = Return tt /\
  MassMultiplayerEventService.groupChannelsIdByGuildId (snd (snd afterCreate))
    !! "guild"%string = Some created /\
  fst afterClean = Throw DiscordAPIError /\
  Discord.deleted (fst (snd afterClean)) = created /\
  MassMultiplayerEventService.groupChannelsIdByGuildId (snd (snd afterClean))
    !! "guild"%string = Some created /\
  ResourcesService.massMultiplayerEventsGroups
    (MassMultiplayerEventService.resources (snd (snd afterClean)))
    !! "guild"%string = Some created /\
  MassMultiplayerEventService.runningEvent
    (fst (snd afterClean)) (snd (snd afterClean)) = true.
Proof.
  intros env guild st created afterCreate afterClean.
  repeat split; vm_compute; reflexivity.
Qed.

Section CreateThenClean.
Import ResourcesService Discord EnvService MassMultiplayerEventService.

(** C7, amended.  With the category configured and found, no group
    channel yet for the guild, and a platform that takes the creations,
    creating three groups puts six channels in the cache (a text channel
    and a voice channel per group, under the category) and their six
    identifiers, all different, in the list of the guild.  The clean-up
    that follows asks the deletion of exactly these six, in order.  When
    the platform takes the six deletions the clean-up leaves the list
    empty and saves it so, and a second clean-up completes as well and
    changes nothing.  When the platform refuses one of them the clean-up
    fails and the service is as it was before it: the six identifiers are
    still listed. *)
Theorem createGroupChannels_then_cleanGroupChannels
    (env : EnvService.t) (guild : Guild) (st : state)
    (categoryName categoryId : string) :
  massMultiplayerEventCategoryName env = Some categoryName ->
  categoryName <> ""%string ->
  getCategoryIdByName guild categoryName = Some categoryId ->
  categoryId <> ""%string ->
  default [] (groupChannelsIdByGuildId st !! guildId guild) = [] ->
  (forall name_ type_, refuses guild (CreateChannel name_ type_) = false) ->
  (forall channelId_ categoryId_,
     refuses guild (SetParent channelId_ categoryId_) = false) ->
  let n := nextSnowflake guild in
  let created :=
    [ pretty n; pretty (n + 1)%N; pretty (n + 2)%N;
      pretty (n + 3)%N; pretty (n + 4)%N; pretty (n + 5)%N ] in
  let channel k name_ type_ :=
    mkChannel (pretty (n + k)%N) name_ type_ (Some categoryId) in
  let afterCreate := createGroupChannels env 3 (guild, st) in
  let afterClean := cleanGroupChannels (snd afterCreate) in
  let afterSecondClean := cleanGroupChannels (snd afterClean) in
  fst afterCreate = Return tt /\
  groupChannelsIdByGuildId (snd (snd afterCreate)) !! guildId guild
    = Some created /\
  NoDup created /\
  (exists existing,
     length existing = length (cache guild) /\
     cache (fst (snd afterCreate)) =
     existing ++
     [ channel 0%N "groupe-1"%string GUILD_TEXT;
       channel 1%N "voice-groupe-1"%string GUILD_VOICE;
       channel 2%N "groupe-2"%string GUILD_TEXT;
       channel 3%N "voice-groupe-2"%string GUILD_VOICE;
       channel 4%N "groupe-3"%string GUILD_TEXT;
       channel 5%N "voice-groupe-3"%string GUILD_VOICE ]) /\
  deleted (fst (snd afterClean)) = deleted guild ++ created /\
  ((forall groupId,
      groupId ∈ created -> refuses guild (DeleteChannel groupId) = false) ->
   fst afterClean = Return tt /\
   groupChannelsIdByGuildId (snd (snd afterClean)) !! guildId guild
     = Some [] /\
   (writable (resources st) = true ->
    massMultiplayerEventsGroups (resources (snd (snd afterClean)))
      !! guildId guild = Some []) /\
   fst afterSecondClean = Return tt /\
   snd afterSecondClean = snd afterClean) /\
  ((exists groupId,
      groupId ∈ created /\ refuses guild (DeleteChannel groupId) = true) ->
   fst afterClean = Throw DiscordAPIError /\
   snd (snd afterClean) = snd (snd afterCreate)).
Proof.
  intros Hcat Hname Hfind Hid Hempty Hcreates HsetParents n created channel
    afterCreate afterClean afterSecondClean.
  destruct (createGroups_three categoryId guild st Hcreates HsetParents)
    as (existing & Hlen & Hcreate).
  fold n in Hcreate. rewrite Hempty in Hcreate. cbn [app] in Hcreate.
  fold created in Hcreate.
  set (guild3 := mkGuild _ _ _ _ _ _) in Hcreate.
  set (st3 := saveState (guildId guild) (setGroups (guildId guild) created st)).
  assert (HafterCreate : afterCreate = (Return tt, (guild3, st3))).
  { subst afterCreate. unfold createGroupChannels. rewrite Hcat.
    apply String.eqb_neq in Hname, Hid.
    cbn [truthy fst]. rewrite Hname, Hfind. cbn [negb]. rewrite Hid.
    cbn [negb]. change (Z.to_nat 3) with 3%nat. by rewrite Hcreate. }
  assert (Hlist : groupChannelsIdByGuildId st3 !! guildId guild3
                  = Some created).
  { subst st3. rewrite saveState_groups. apply lookup_insert_eq. }
  assert (Hcached :
    Forall (fun groupId => groupId ∈ id <$> cache guild3) created).
  { subst guild3. cbn [cache]. rewrite fmap_app.
    apply Forall_forall. intros groupId Hin.
    apply elem_of_app. right. cbn [fmap list_fmap id].
    by rewrite N.add_0_r. }
  pose proof (cleanGroupChannels_unfold guild3 st3 created Hlist) as Hclean.
  cbv zeta in Hclean. rewrite (filter_cached_all guild3 created Hcached)
    in Hclean.
  change (guildId guild3) with (guildId guild) in Hclean.
  change (refuses guild3) with (refuses guild) in Hclean.
  change (deleted guild3) with (deleted guild) in Hclean.
  set (guild4 := mkGuild _ _ _ _ _ _) in Hclean.
  assert (HafterClean :
    afterClean
    = if existsb (fun groupId => refuses guild (DeleteChannel groupId)) created
      then (Throw DiscordAPIError, (guild4, st3))
      else (Return tt,
            (guild4,
             saveState (guildId guild) (setGroups (guildId guild) [] st3))))
    by (subst afterClean; rewrite HafterCreate; exact Hclean).
  split; [by rewrite HafterCreate|].
  split; [by rewrite HafterCreate|].
  split.
  { change created
      with (pretty <$> [n; n + 1; n + 2; n + 3; n + 4; n + 5]%N).
    apply (NoDup_fmap_2 pretty).
    repeat (apply NoDup_cons; split;
            [rewrite ?elem_of_cons, elem_of_nil; lia|]).
    apply NoDup_nil_2. }
  split.
  { exists existing. split; [done|]. rewrite HafterCreate. subst guild3.
    cbn [fst snd cache]. unfold channel. reflexivity. }
  split.
  { rewrite HafterClean. by destruct (existsb _ created). }
  split.
  - intros Haccepted.
    rewrite (existsb_none _ created Haccepted) in HafterClean.
    set (st4 := saveState (guildId guild) (setGroups (guildId guild) [] st3))
      in HafterClean.
    assert (Hlist4 : groupChannelsIdByGuildId st4 !! guildId guild4 = Some []).
    { subst st4. rewrite saveState_groups. apply lookup_insert_eq. }
    pose proof (cleanGroupChannels_unfold guild4 st4 [] Hlist4) as Hsecond.
    cbv zeta in Hsecond. cbn [List.filter existsb app] in Hsecond.
    rewrite app_nil_r in Hsecond.
    change (guildId guild4) with (guildId guild) in Hsecond.
    assert (HafterSecondClean :
      afterSecondClean = (Return tt, (guild4, st4))).
    { subst afterSecondClean. rewrite HafterClean. cbn [snd].
      rewrite Hsecond. subst st4. by rewrite clear_and_save_twice. }
    rewrite HafterClean, HafterSecondClean. cbn [fst snd].
    split; [done|]. split; [exact Hlist4|]. split; [|done].
    intros Hw. subst st4. eapply saveState_saved.
    + apply lookup_insert_eq.
    + cbn [setGroups resources]. subst st3. rewrite saveState_writable.
      exact Hw.
  - intros (groupId & Hin & Hrefused).
    rewrite (existsb_some _ created groupId Hin Hrefused) in HafterClean.
    rewrite HafterClean, HafterCreate. by split.
Qed.

End CreateThenClean.

Section BroadcastFacts.
Import ResourcesService Discord EnvService MassMultiplayerEventService.



End BroadcastFacts.

Lemma createGroupChannels_then_cleanGroupChannels_witness :
  let env := EnvService.mk (Some "evenement"%string) (Some "admin"%string) in
  let guild :=
    Discord.mkGuild "guild"
      [ Discord.mkChannel "1" "evenement" Discord.GUILD_CATEGORY None;
        Discord.mkChannel "2" "admin" Discord.GUILD_TEXT (Some "1"%string) ]
      100 [] [] (fun _ => false) in
  let st :=
    MassMultiplayerEventService.mkState ∅
      (ResourcesService.mkStore ∅ ∅ true) in
  let afterClean :=
    MassMultiplayerEventService.cleanGroupChannels
      (snd (MassMultiplayerEventService.createGroupChannels
              env 3 (guild, st))) in
  fst afterClean = Return tt /\
  MassMultiplayerEventService.groupChannelsIdByGuildId (snd (snd afterClean))
    !! "guild"%string = Some [] /\
  Discord.deleted (fst (snd afterClean))
  = ["100"; "101"; "102"; "103"; "104"; "105"]%string.
Proof.
  intros env guild st afterClean.
  destruct (createGroupChannels_then_cleanGroupChannels
              env guild st "evenement" "1")
    as (_ & _ & _ & _ & Hdeleted & Haccepted & _).
  - reflexivity.
  - discriminate.
  - reflexivity.
  - discriminate.
  - reflexivity.
  - reflexivity.
  - reflexivity.
  - destruct Haccepted as (Hreturn & Hlist & _); [reflexivity|].
    split; [exact Hreturn|]. split; [exact Hlist|exact Hdeleted].
Defined.


Section BroadcastTargets.
Import ResourcesService Discord EnvService MassMultiplayerEventService.


End BroadcastTargets.


(** * Further properties of the session object *)

Section BlobGameRuns.
Import BlobGame.

Lemma perform_counterMeasures (c : call) (g : BlobGame.t) :
  numberOfCounterMeasures (perform c g)
  = numberOfCounterMeasures g + counterMeasuresOf c.
Proof.
  destruct c; simpl; try lia.
  unfold chooseStory. destruct (negb _); simpl; lia.
Qed.

Lemma perform_identity (c : call) (g : BlobGame.t) :
  id (perform c g) = id g /\
  dateCreated (perform c g) = dateCreated g /\
  dateEnded (perform c g) = dateEnded g.
Proof.
  destruct c; simpl; try done.
  unfold chooseStory. by destruct (negb _).
Qed.

Lemma perform_story (c : call) (g : BlobGame.t) :
  story (perform c g) =
  match c with
  | ChooseStory s => if includes POSSIBLE_STORIES s then Some s else story g
  | _ => story g
  end.
Proof.
  destruct c; cbn [perform]; try reflexivity.
  unfold chooseStory. by destruct (includes POSSIBLE_STORIES story_).
Qed.

Lemma performAll_cons (c : call) (cs : list call) (g : BlobGame.t) :
  performAll (c :: cs) g = performAll cs (perform c g).
Proof. reflexivity. Qed.

Lemma total_permutation (f : call -> Z) (cs cs' : list call) :
  cs ≡ₚ cs' -> total f cs = total f cs'.
Proof.
  unfold total. induction 1; simpl; lia.
Qed.

Lemma performAll_no_choice (cs : list call) (g : BlobGame.t) :
  Forall (fun c => choosesStory c = false) cs ->
  story (performAll cs g) = story g.
Proof.
  intros Hcs. revert g. induction Hcs as [|c cs Hc _ IH]; intros g; [done|].
  rewrite performAll_cons, IH, perform_story.
  destruct c; try done. cbn [choosesStory] in Hc. by rewrite Hc.
Qed.

Lemma performAll_counters (cs : list call) (g : BlobGame.t) :
  numberOfDamageDealtToBlob (performAll cs g)
  = numberOfDamageDealtToBlob g + total damageOf cs /\
  numberOfCluesOnAct1 (performAll cs g)
  = numberOfCluesOnAct1 g + total cluesOf cs /\
  numberOfCounterMeasures (performAll cs g)
  = numberOfCounterMeasures g + total counterMeasuresOf cs.
Proof.
  revert g. induction cs as [|c cs IH]; intros g.
  - unfold total. simpl. lia.
  - rewrite performAll_cons.
    destruct (IH (perform c g)) as (Hd & Hc & Hm). rewrite Hd, Hc, Hm.
    rewrite perform_damage, perform_clues, perform_counterMeasures.
    unfold total. cbn [map foldr].
    destruct c; simpl; lia.
Qed.

Lemma performAll_identity (cs : list call) (g : BlobGame.t) :
  id (performAll cs g) = id g /\
  dateCreated (performAll cs g) = dateCreated g /\
  dateEnded (performAll cs g) = dateEnded g /\
  numberOfPlayers (performAll cs g) = numberOfPlayers g.
Proof.
  revert g. induction cs as [|c cs IH]; intros g; [done|].
  rewrite performAll_cons.
  destruct (IH (perform c g)) as (H1 & H2 & H3 & H4).
  destruct (perform_identity c g) as (E1 & E2 & E3).
  rewrite H1, H2, H3, H4, E1, E2, E3. by rewrite perform_numberOfPlayers.
Qed.

End BlobGameRuns.

(** X1. Whatever calls are made on a session, and in whatever order they
    interleave, each counter ends at its value before the run plus the
    signed sum of the amounts addressed to it: damage dealt, clues placed,
    and counter measures gained minus counter measures spent.  Nothing is
    clamped; spending more counter measures than there are gives a
    negative number of them. *)
Theorem counters_after_calls (g : BlobGame.t) (cs : list BlobGame.call) :
  let g' := BlobGame.performAll cs g in
  BlobGame.getNumberOfDamageDealtToBlob g'
  = BlobGame.getNumberOfDamageDealtToBlob g
    + BlobGame.total BlobGame.damageOf cs /\
  BlobGame.getNumberOfCluesOnAct1 g'
  = BlobGame.getNumberOfCluesOnAct1 g + BlobGame.total BlobGame.cluesOf cs /\
  BlobGame.getNumberOfCounterMeasures g'
  = BlobGame.getNumberOfCounterMeasures g
    + BlobGame.total BlobGame.counterMeasuresOf cs.
Proof.
  unfold BlobGame.getNumberOfDamageDealtToBlob,
    BlobGame.getNumberOfCluesOnAct1, BlobGame.getNumberOfCounterMeasures.
  revert g. induction cs as [|c cs IH]; intros g.
  - unfold BlobGame.total. simpl. lia.
  - rewrite performAll_cons.
    destruct (IH (BlobGame.perform c g)) as (Hd & Hc & Hm).
    cbv zeta in *. rewrite Hd, Hc, Hm.
    rewrite perform_damage, perform_clues, perform_counterMeasures.
    unfold BlobGame.total. cbn [map foldr].
    destruct c; simpl; lia.
Qed.

(** X2. None of the mutating calls of the class (dealing damage, placing
    clues, gaining or spending counter measures, choosing the story)
    changes the identifier of a session, its creation date or its number
    of players; the total health of the blob and the clue threshold of
    act 1 are therefore the same after any run of these calls. *)
Theorem session_identity_is_kept (g : BlobGame.t) (cs : list BlobGame.call) :
  let g' := BlobGame.performAll cs g in
  BlobGame.getId g' = BlobGame.getId g /\
  BlobGame.getDateCreated g' = BlobGame.getDateCreated g /\
  BlobGame.getNumberOfPlayers g' = BlobGame.getNumberOfPlayers g /\
  BlobGame.getBlobTotalHealth g' = BlobGame.getBlobTotalHealth g /\
  BlobGame.getAct1ClueThreshold g' = BlobGame.getAct1ClueThreshold g.
Proof.
  unfold BlobGame.getId, BlobGame.getDateCreated,
    BlobGame.getNumberOfPlayers, BlobGame.getBlobTotalHealth,
    BlobGame.getAct1ClueThreshold.
  assert (H : BlobGame.id (BlobGame.performAll cs g) = BlobGame.id g /\
              BlobGame.dateCreated (BlobGame.performAll cs g)
              = BlobGame.dateCreated g /\
              BlobGame.numberOfPlayers (BlobGame.performAll cs g)
              = BlobGame.numberOfPlayers g).
  { revert g. induction cs as [|c cs IH]; intros g; [done|].
    rewrite performAll_cons.
    destruct (IH (BlobGame.perform c g)) as (H1 & H2 & H4).
    destruct (perform_identity c g) as (E1 & E2 & _).
    rewrite H1, H2, H4, E1, E2. by rewrite perform_numberOfPlayers. }
  destruct H as (H1 & H2 & H4). cbv zeta.
  by rewrite H1, H2, H4.
Qed.

(** X3. From its construction on, and whatever calls are made on it,
    rejected ones included, a session has either no story or one of the
    four possible stories. *)
Theorem story_is_undefined_or_possible
    (id_ dateCreated_ players : Z) (cs : list BlobGame.call) :
  match BlobGame.getStory
          (BlobGame.performAll cs
             (BlobGame.constructor id_ dateCreated_ players)) with
  | None => True
  | Some s => s ∈ BlobGame.POSSIBLE_STORIES
  end.
Proof.
  unfold BlobGame.getStory.
  assert (H : forall g,
            match BlobGame.story g with
            | None => True
            | Some s => s ∈ BlobGame.POSSIBLE_STORIES
            end ->
            match BlobGame.story (BlobGame.performAll cs g) with
            | None => True
            | Some s => s ∈ BlobGame.POSSIBLE_STORIES
            end).
  { induction cs as [|c cs IH]; intros g Hg; [done|].
    rewrite performAll_cons. apply IH. rewrite perform_story.
    destruct c; try done.
    destruct (includes BlobGame.POSSIBLE_STORIES story_) eqn:Hs; [|done].
    by apply includes_elem_of. }
  by apply H.
Qed.

(** X4. The story of a session is not fixed by its first choice: the last
    [chooseStory] that is not rejected decides, whatever was chosen
    before it; the calls after it that choose no story, rejected
    [chooseStory] calls among them, leave it in place. *)
Theorem last_accepted_story_wins
    (g : BlobGame.t) (before after : list BlobGame.call) (x : string) :
  x ∈ BlobGame.POSSIBLE_STORIES ->
  Forall (fun c => BlobGame.choosesStory c = false) after ->
  BlobGame.getStory
    (BlobGame.performAll (before ++ BlobGame.ChooseStory x :: after) g)
  = Some x.
Proof.
  intros Hx Hafter. unfold BlobGame.getStory.
  rewrite performAll_app, performAll_cons.
  rewrite (performAll_no_choice after _ Hafter), perform_story.
  apply includes_elem_of in Hx. by rewrite Hx.
Qed.

Lemma last_accepted_story_wins_witness :
  BlobGame.getStory
    (BlobGame.performAll
       [ BlobGame.ChooseStory "RESCUE_THE_CHEMIST";
         BlobGame.ChooseStory "DRIVE_OFF_THE_MIGO";
         BlobGame.ChooseStory "SAVE_THE_CAT";
         BlobGame.DealDamageToBlob 2 ]
       (BlobGame.constructor 1 1000 2))
  = Some "DRIVE_OFF_THE_MIGO"%string.
Proof.
  apply (last_accepted_story_wins (BlobGame.constructor 1 1000 2)
           [BlobGame.ChooseStory "RESCUE_THE_CHEMIST"]
           [BlobGame.ChooseStory "SAVE_THE_CAT"; BlobGame.DealDamageToBlob 2]
           "DRIVE_OFF_THE_MIGO").
  - apply includes_elem_of. reflexivity.
  - repeat constructor.
Defined.

(** X5. The counters of a session do not depend on the order in which the
    calls reach it: two runs that make the same calls, in any two orders,
    end with the same damage dealt, clues placed and counter measures. *)
Theorem counters_do_not_depend_on_order
    (g : BlobGame.t) (cs cs' : list BlobGame.call) :
  cs ≡ₚ cs' ->
  let g1 := BlobGame.performAll cs g in
  let g2 := BlobGame.performAll cs' g in
  BlobGame.getNumberOfDamageDealtToBlob g1
  = BlobGame.getNumberOfDamageDealtToBlob g2 /\
  BlobGame.getNumberOfCluesOnAct1 g1 = BlobGame.getNumberOfCluesOnAct1 g2 /\
  BlobGame.getNumberOfCounterMeasures g1
  = BlobGame.getNumberOfCounterMeasures g2 /\
  BlobGame.getBlobRemainingHealth g1 = BlobGame.getBlobRemainingHealth g2.
Proof.
  intros Hperm g1 g2.
  destruct (performAll_counters cs g) as (Hd1 & Hc1 & Hm1).
  destruct (performAll_counters cs' g) as (Hd2 & Hc2 & Hm2).
  destruct (performAll_identity cs g) as (_ & _ & _ & Hp1).
  destruct (performAll_identity cs' g) as (_ & _ & _ & Hp2).
  fold g1 in Hd1, Hc1, Hm1, Hp1. fold g2 in Hd2, Hc2, Hm2, Hp2.
  unfold BlobGame.getBlobRemainingHealth, BlobGame.getBlobTotalHealth,
    BlobGame.getNumberOfDamageDealtToBlob, BlobGame.getNumberOfCluesOnAct1,
    BlobGame.getNumberOfCounterMeasures.
  rewrite Hp1, Hp2, Hd1, Hd2, Hc1, Hc2, Hm1, Hm2.
  by rewrite !(total_permutation _ cs cs' Hperm).
Qed.

Lemma counters_do_not_depend_on_order_witness :
  let g := BlobGame.constructor 1 1000 2 in
  BlobGame.getNumberOfCounterMeasures
    (BlobGame.performAll
       [BlobGame.SpendCounterMeasures 1; BlobGame.GainCounterMeasures 3] g)
  = BlobGame.getNumberOfCounterMeasures
      (BlobGame.performAll
         [BlobGame.GainCounterMeasures 3; BlobGame.SpendCounterMeasures 1] g).
Proof.
  intros g.
  apply (counters_do_not_depend_on_order g
           [BlobGame.SpendCounterMeasures 1; BlobGame.GainCounterMeasures 3]
           [BlobGame.GainCounterMeasures 3; BlobGame.SpendCounterMeasures 1]).
  apply Permutation_swap.
Defined.

(** * Further properties of the session service *)

Section ServiceRuns.
Import ResourcesService BlobGameService.

Lemma onGame_callOf (m : mutation) (game : BlobGame.t) :
  onGame m game = BlobGame.perform (callOf m) game.
Proof. by destruct m. Qed.

(** Saving writes the list of its guild only. *)
Lemma repositorySave_load_other guildId other game st :
  other <> guildId ->
  BlobGameFileRepository.load other
    (resources (snd (repositorySave guildId game st)))
  = BlobGameFileRepository.load other (resources st).
Proof.
  intros Hother. unfold repositorySave, BlobGameFileRepository.save.
  destruct (writable (resources st)); [|done].
  unfold BlobGameFileRepository.load. simpl. by rewrite lookup_insert_ne.
Qed.

Lemma run_current_Some m guildId st game :
  currentGameByGuildId st !! guildId = Some game ->
  currentGameByGuildId (snd (run m guildId st))
  = <[guildId := onGame m game]> (currentGameByGuildId st).
Proof.
  intros Hcur. rewrite run_unfold, Hcur.
  by rewrite repositorySave_currentGame.
Qed.

Lemma run_current_None m guildId st :
  currentGameByGuildId st !! guildId = None ->
  run m guildId st = (Throw Rejected, st).
Proof. intros Hcur. by rewrite run_unfold, Hcur. Qed.

(** A run of calls of the service is the run of the same calls on the
    current game. *)
Lemma runAll_current ms guildId st game :
  currentGameByGuildId st !! guildId = Some game ->
  currentGameByGuildId (runAll ms guildId st) !! guildId
  = Some (BlobGame.performAll (callOf <$> ms) game).
Proof.
  revert st game. induction ms as [|m ms IH]; intros st game Hcur; [done|].
  change (runAll (m :: ms) guildId st)
    with (runAll ms guildId (snd (run m guildId st))).
  rewrite (IH _ (onGame m game)).
  - by rewrite onGame_callOf.
  - rewrite (run_current_Some _ _ _ _ Hcur). apply lookup_insert_eq.
Qed.

End ServiceRuns.

(** X6. The service keeps the guilds apart: starting, continuing or
    ending a game, or any mutating call, for one guild leaves the current
    game of every other guild, what the read accessors return for it, and
    its stored sessions as they were. *)
Theorem operations_touch_one_guild
    (op : BlobGameService.operation) (guildId other : string)
    (st : BlobGameService.state) :
  other <> guildId ->
  let st' := BlobGameService.after op guildId st in
  BlobGameService.currentGameByGuildId st' !! other
  = BlobGameService.currentGameByGuildId st !! other /\
  BlobGameService.getBlobRemainingHealth other st'
  = BlobGameService.getBlobRemainingHealth other st /\
  BlobGameService.getNumberOfCluesOnAct1 other st'
  = BlobGameService.getNumberOfCluesOnAct1 other st /\
  BlobGameService.getNumberOfCounterMeasures other st'
  = BlobGameService.getNumberOfCounterMeasures other st /\
  BlobGameService.getStory other st' = BlobGameService.getStory other st /\
  BlobGameFileRepository.load other (BlobGameService.resources st')
  = BlobGameFileRepository.load other (BlobGameService.resources st).
Proof.
  intros Hother st'.
  assert (Hne : guildId <> other) by congruence.
  assert (H : BlobGameService.currentGameByGuildId st' !! other
              = BlobGameService.currentGameByGuildId st !! other /\
              BlobGameFileRepository.load other
                (BlobGameService.resources st')
              = BlobGameFileRepository.load other
                  (BlobGameService.resources st)).
  { subst st'. destruct op as [players now randomInt| |now|m];
      cbn [BlobGameService.after].
    - unfold BlobGameService.startNewGame.
      destruct (index BlobGame.POSSIBLE_STORIES randomInt) as [s|].
      + destruct (BlobGame.chooseStory s _) as [[[]|e] game'].
        * rewrite repositorySave_currentGame,
            (repositorySave_load_other _ _ _ _ Hother).
          simpl. by rewrite !lookup_insert_ne.
        * simpl. by rewrite !lookup_insert_ne.
      + simpl. by rewrite lookup_insert_ne.
    - unfold BlobGameService.continueLatestGame.
      destruct (length _ =? 0)%nat; [done|].
      destruct (length _ =? 0)%nat; [done|].
      destruct (Js.sort _ _); [done|].
      simpl. by rewrite lookup_insert_ne.
    - unfold BlobGameService.endGame.
      cbn [BlobGameService.getBlobGameRepository
             BlobGameService.currentGameByGuildId].
      destruct (BlobGameService.currentGameByGuildId st !! guildId); [|done].
      rewrite repositorySave_currentGame,
        (repositorySave_load_other _ _ _ _ Hother).
      simpl. by rewrite lookup_insert_ne.
    - rewrite run_unfold.
      destruct (BlobGameService.currentGameByGuildId st !! guildId); [|done].
      rewrite repositorySave_currentGame,
        (repositorySave_load_other _ _ _ _ Hother).
      simpl. by rewrite lookup_insert_ne. }
  destruct H as [Hcur Hload].
  unfold BlobGameService.getBlobRemainingHealth,
    BlobGameService.getNumberOfCluesOnAct1,
    BlobGameService.getNumberOfCounterMeasures, BlobGameService.getStory.
  by rewrite Hcur, Hload.
Qed.

Lemma operations_touch_one_guild_witness :
  let st :=
    BlobGameService.mkState ∅
      {["other"%string := BlobGame.constructor 1 1000 4]}
      (ResourcesService.mkStore ∅ ∅ true) in
  BlobGameService.getBlobRemainingHealth "other"
    (BlobGameService.after (BlobGameService.StartNewGame 2 2000 0) "guild" st)
  = BlobGameService.getBlobRemainingHealth "other" st.
Proof.
  intros st.
  apply (operations_touch_one_guild
           (BlobGameService.StartNewGame 2 2000 0) "guild" "other" st).
  discriminate.
Defined.

(** X7. [endGame] needs a current game: without one it throws, on the
    call of [endGame] on [undefined], and neither the current games nor
    the store change.  With one, the game is given its end date and stays
    the current game of the guild: the read accessors answer as before,
    and the mutating calls that follow are not rejected for want of a
    game. *)
Theorem endGame_keeps_the_game_current
    (guildId : string) (now : Z) (st : BlobGameService.state) :
  let c := fst (BlobGameService.endGame guildId now st) in
  let st' := snd (BlobGameService.endGame guildId now st) in
  match BlobGameService.currentGameByGuildId st !! guildId with
  | None =>
      c = Throw TypeError /\
      BlobGameService.currentGameByGuildId st'
      = BlobGameService.currentGameByGuildId st /\
      BlobGameService.resources st' = BlobGameService.resources st
  | Some game =>
      BlobGameService.currentGameByGuildId st' !! guildId
      = Some (BlobGame.endGame now game) /\
      BlobGameService.getBlobRemainingHealth guildId st'
      = BlobGameService.getBlobRemainingHealth guildId st /\
      BlobGameService.getNumberOfCluesOnAct1 guildId st'
      = BlobGameService.getNumberOfCluesOnAct1 guildId st /\
      BlobGameService.getNumberOfCounterMeasures guildId st'
      = BlobGameService.getNumberOfCounterMeasures guildId st /\
      BlobGameService.getStory guildId st'
      = BlobGameService.getStory guildId st /\
      (forall m, fst (BlobGameService.run m guildId st') <> Throw Rejected) /\
      (forall m,
         BlobGameService.read m guildId
           (snd (BlobGameService.run m guildId st'))
         = Some (BlobGameService.counter m game + BlobGameService.delta m))
  end.
Proof.
  intros c st'. subst c st'. unfold BlobGameService.endGame.
  cbn [BlobGameService.getBlobGameRepository
         BlobGameService.currentGameByGuildId].
  destruct (BlobGameService.currentGameByGuildId st !! guildId)
    as [game|] eqn:Hcur; [|done].
  set (st1 := BlobGameService.setCurrentGame guildId _ _).
  assert (Hafter :
    BlobGameService.currentGameByGuildId
      (snd (BlobGameService.repositorySave guildId
              (BlobGame.endGame now game) st1)) !! guildId
    = Some (BlobGame.endGame now game)).
  { rewrite repositorySave_currentGame. apply lookup_insert_eq. }
  unfold BlobGameService.getBlobRemainingHealth,
    BlobGameService.getNumberOfCluesOnAct1,
    BlobGameService.getNumberOfCounterMeasures, BlobGameService.getStory.
  rewrite Hafter, Hcur. repeat split; try done.
  - intros m. rewrite run_unfold, Hafter.
    unfold BlobGameService.repositorySave, BlobGameFileRepository.save.
    by destruct (ResourcesService.writable _).
  - intros m. rewrite read_current, (run_current_Some _ _ _ _ Hafter).
    rewrite lookup_insert_eq. simpl. rewrite counter_onGame.
    by destruct m.
Qed.

(** X8. Mutating calls made one after the other for a guild with a
    current game add up, none being lost: after the run the accessors show
    the damage, the clues and the counter measures of the game moved by the
    signed sums of the amounts, and the remaining health lowered by the
    damage, whether the saves succeed or not.  For a guild without a
    current game every call of the run is rejected and nothing changes. *)
Theorem sequential_mutations_add_up
    (ms : list BlobGameService.mutation) (guildId : string)
    (st : BlobGameService.state) :
  let st' := BlobGameService.runAll ms guildId st in
  let calls := BlobGameService.callOf <$> ms in
  match BlobGameService.currentGameByGuildId st !! guildId with
  | None => st' = st
  | Some game =>
      BlobGameService.getNumberOfDamageDealtToBlob guildId st'
      = Some (BlobGame.getNumberOfDamageDealtToBlob game
              + BlobGame.total BlobGame.damageOf calls) /\
      BlobGameService.getNumberOfCluesOnAct1 guildId st'
      = Some (BlobGame.getNumberOfCluesOnAct1 game
              + BlobGame.total BlobGame.cluesOf calls) /\
      BlobGameService.getNumberOfCounterMeasures guildId st'
      = Some (BlobGame.getNumberOfCounterMeasures game
              + BlobGame.total BlobGame.counterMeasuresOf calls) /\
      BlobGameService.getBlobRemainingHealth guildId st'
      = Some (BlobGame.getBlobRemainingHealth game
              - BlobGame.total BlobGame.damageOf calls)
  end.
Proof.
  intros st' calls.
  destruct (BlobGameService.currentGameByGuildId st !! guildId)
    as [game|] eqn:Hcur.
  - pose proof (runAll_current ms guildId st game Hcur) as Hrun.
    fold st' calls in Hrun.
    destruct (performAll_counters calls game) as (Hd & Hc & Hm).
    destruct (performAll_identity calls game) as (_ & _ & _ & Hp).
    unfold BlobGameService.getNumberOfDamageDealtToBlob,
      BlobGameService.getNumberOfCluesOnAct1,
      BlobGameService.getNumberOfCounterMeasures,
      BlobGameService.getBlobRemainingHealth.
    rewrite Hrun. simpl.
    unfold BlobGame.getNumberOfDamageDealtToBlob,
      BlobGame.getNumberOfCluesOnAct1, BlobGame.getNumberOfCounterMeasures,
      BlobGame.getBlobRemainingHealth, BlobGame.getBlobTotalHealth.
    rewrite Hd, Hc, Hm, Hp. repeat split; f_equal; lia.
  - subst st'. clear calls. induction ms as [|m ms IH]; [done|].
    change (BlobGameService.runAll (m :: ms) guildId st)
      with (BlobGameService.runAll ms guildId
              (snd (BlobGameService.run m guildId st))).
    by rewrite (run_current_None m guildId st Hcur).
Qed.

Lemma sequential_mutations_add_up_witness :
  let st :=
    BlobGameService.mkState ∅
      {["guild"%string := BlobGame.constructor 1 1000 4]}
      (ResourcesService.mkStore ∅ ∅ false) in
  BlobGameService.getNumberOfDamageDealtToBlob "guild"
    (BlobGameService.runAll
       (replicate 5 (BlobGameService.DealDamageToBlob 1)) "guild" st)
  = Some (0 + 5).
Proof.
  intros st.
  pose proof (sequential_mutations_add_up
                (replicate 5 (BlobGameService.DealDamageToBlob 1))
                "guild" st) as H.
  change (BlobGameService.currentGameByGuildId st !! "guild"%string)
    with (Some (BlobGame.constructor 1 1000 4)) in H.
  exact (proj1 H).
Defined.

(** * Further properties of the channel-group registry *)

Section CreateAnyNumber.
Import ResourcesService Discord EnvService MassMultiplayerEventService.

Lemma groupChannels_length categoryId n groupNumber turns :
  length (groupChannels categoryId n groupNumber turns) = (2 * turns)%nat.
Proof.
  revert n groupNumber. induction turns as [|turns IH]; intros n k; [done|].
  cbn [groupChannels length]. rewrite IH. lia.
Qed.

Lemma groupChannels_shape categoryId n groupNumber turns :
  Forall (fun c =>
            parentId c = Some categoryId /\
            (type c = GUILD_TEXT \/ type c = GUILD_VOICE) /\
            exists m, (n <= m)%N /\ id c = pretty m)
         (groupChannels categoryId n groupNumber turns).
Proof.
  revert n groupNumber. induction turns as [|turns IH]; intros n k;
    cbn [groupChannels]; [constructor|].
  constructor; [|constructor].
  - cbn [parentId type id]. split; [done|]. split; [by left|].
    exists n. split; [lia|done].
  - cbn [parentId type id]. split; [done|]. split; [by right|].
    exists (N.succ n). split; [lia|done].
  - eapply Forall_impl; [apply IH|].
    intros c (Hp & Ht & m & Hm & Hid). repeat split; try done.
    exists m. split; [lia|done].
Qed.

Lemma groupChannels_NoDup categoryId n groupNumber turns :
  NoDup (id <$> groupChannels categoryId n groupNumber turns).
Proof.
  revert n groupNumber. induction turns as [|turns IH]; intros n k;
    cbn [groupChannels fmap list_fmap id]; [constructor|].
  pose proof (groupChannels_shape categoryId (N.succ (N.succ n)) (k + 1) turns)
    as Hshape.
  assert (Hfresh : forall m, (m < N.succ (N.succ n))%N ->
            pretty m ∉ id <$> groupChannels categoryId (N.succ (N.succ n))
                                  (k + 1) turns).
  { intros m Hm (c & Hid & Hc)%list_elem_of_fmap.
    rewrite Forall_forall in Hshape.
    destruct (Hshape c Hc) as (_ & _ & m' & Hle & Hid').
    rewrite Hid' in Hid. apply (inj pretty) in Hid. lia. }
  apply NoDup_cons. split.
  - rewrite elem_of_cons. intros [Heq|Hin].
    + apply (inj pretty) in Heq. lia.
    + apply (Hfresh n); [lia|done].
  - apply NoDup_cons. split; [|apply IH].
    apply Hfresh. lia.
Qed.

(** Any number of turns of the loop, when the platform takes the
    requests. *)
Lemma createGroups_spec (turns : nat) (categoryId : string) (groupNumber : Z)
    (guild : Guild) (st : state) :
  (forall name_ type_, refuses guild (CreateChannel name_ type_) = false) ->
  (forall channelId_ categoryId_,
     refuses guild (SetParent channelId_ categoryId_) = false) ->
  let created :=
    groupChannels categoryId (nextSnowflake guild) groupNumber turns in
  exists patch : GuildChannel -> GuildChannel,
    (forall c, parentId c = Some categoryId -> patch c = c) /\
    (forall c,
       id (patch c) = id c /\ name (patch c) = name c /\
       type (patch c) = type c /\
       (parentId (patch c) = parentId c \/
        parentId (patch c) = Some categoryId)) /\
    (forall c,
       (forall m, (nextSnowflake guild <= m)%N -> id c <> pretty m) ->
       patch c = c) /\
    createGroups turns categoryId groupNumber (guild, st) =
    (Return tt,
     ({| guildId := guildId guild;
         cache := map patch (cache guild) ++ created;
         nextSnowflake := (nextSnowflake guild + N.of_nat (2 * turns))%N;
         deleted := deleted guild;
         sent := sent guild;
         refuses := refuses guild |},
      match turns with
      | O => st
      | S _ =>
          setGroups (guildId guild)
            (default [] (groupChannelsIdByGuildId st !! guildId guild)
             ++ (id <$> created))
            st
      end)).
Proof.
  intros Hcreate HsetParent. revert groupNumber guild st Hcreate HsetParent.
  induction turns as [|turns IH];
    intros k guild st Hcreate HsetParent created.
  - exists (fun c => c). split; [done|]. split; [by intros c; auto|].
    split; [done|]. subst created.
    cbn [createGroups groupChannels]. rewrite map_id, app_nil_r.
    replace (nextSnowflake guild + N.of_nat (2 * 0))%N
      with (nextSnowflake guild) by lia.
    by destruct guild.
  - cbn [createGroups].
    destruct (createGroup_spec categoryId k guild st Hcreate HsetParent)
      as (p1 & Hp1 & Hk1 & Hf1 & ->).
    match goal with
    | |- context [createGroups turns categoryId (k + 1) (?g, ?s)] =>
        destruct (IH (k + 1) g s Hcreate HsetParent)
          as (p & Hp & Hk & Hf & ->)
    end.
    cbn [guildId cache nextSnowflake deleted sent refuses] in *.
    exists (fun c => p (p1 c)). split; [|split; [|split]].
    { intros c Hc. rewrite (Hp1 c Hc). by apply Hp. }
    { intros c. destruct (Hk1 c) as (E1 & E2 & E3 & E4).
      destruct (Hk (p1 c)) as (F1 & F2 & F3 & F4).
      rewrite F1, F2, F3, E1, E2, E3. repeat split.
      destruct F4 as [F4|F4]; [|by right]. rewrite F4. exact E4. }
    { intros c Hfresh. rewrite (Hf1 c Hfresh). apply Hf.
      intros m Hm. apply Hfresh. lia. }
    subst created. cbn [groupChannels].
    rewrite map_app, map_map. cbn [map].
    rewrite !Hp by reflexivity.
    rewrite <- app_assoc. cbn [app].
    f_equal. f_equal.
    + f_equal. lia.
    + unfold setGroups. cbn [groupChannelsIdByGuildId resources].
      rewrite lookup_insert_eq. cbn [default from_option].
      unfold Datatypes.id. cbn [fmap list_fmap id].
      destruct turns as [|turns'].
      * cbn [groupChannels fmap list_fmap]. reflexivity.
      * rewrite insert_insert_eq, <- app_assoc. reflexivity.
Qed.



End CreateAnyNumber.

Section CreateAndClean.
Import ResourcesService Discord EnvService MassMultiplayerEventService.

(** X9. With the category configured and found, and a platform that
    takes the creations and the moves under the category,
    [createGroupChannels] completes for any number of groups [n]: it adds
    [2 * max(n, 0)] channels at the end of the cache, each under the
    category and of text or voice type, with identifiers that differ from
    one another, and appends these identifiers, in order, to the list of
    the guild.  The channels cached before keep their place, their
    identifier, their name and their type, and their parent unless they
    are moved under the category; they are left as they were when none of
    them has an identifier that the platform gives later.  Nothing is
    deleted or sent.  With a positive number the event is running
    afterwards; with zero or a negative number nothing is created. *)
Theorem createGroupChannels_any_number
    (env : EnvService.t) (numberOfGroups : Z) (guild : Guild) (st : state)
    (categoryName categoryId : string) :
  massMultiplayerEventCategoryName env = Some categoryName ->
  categoryName <> ""%string ->
  getCategoryIdByName guild categoryName = Some categoryId ->
  categoryId <> ""%string ->
  (forall name_ type_, refuses guild (CreateChannel name_ type_) = false) ->
  (forall channelId_ categoryId_,
     refuses guild (SetParent channelId_ categoryId_) = false) ->
  let r := createGroupChannels env numberOfGroups (guild, st) in
  let guild' := fst (snd r) in
  let st' := snd (snd r) in
  exists existing created : list GuildChannel,
    fst r = Return tt /\
    guildId guild' = guildId guild /\
    cache guild' = existing ++ created /\
    Forall2 (fun before after =>
               id after = id before /\ name after = name before /\
               type after = type before /\
               (parentId after = parentId before \/
                parentId after = Some categoryId))
            (cache guild) existing /\
    ((forall c m, c ∈ cache guild -> (nextSnowflake guild <= m)%N ->
                  id c <> pretty m) ->
     existing = cache guild) /\
    length created = (2 * Z.to_nat numberOfGroups)%nat /\
    Forall (fun c => parentId c = Some categoryId /\
                     (type c = GUILD_TEXT \/ type c = GUILD_VOICE)) created /\
    NoDup (id <$> created) /\
    default [] (groupChannelsIdByGuildId st' !! guildId guild)
    = default [] (groupChannelsIdByGuildId st !! guildId guild)
      ++ (id <$> created) /\
    deleted guild' = deleted guild /\
    sent guild' = sent guild /\
    (0 < numberOfGroups -> runningEvent guild' st' = true) /\
    (numberOfGroups <= 0 -> created = []).
Proof.
  intros Hcat Hname Hfind Hid Hcreates HsetParents r guild' st'.
  set (turns := Z.to_nat numberOfGroups).
  destruct (createGroups_spec turns categoryId 1 guild st Hcreates HsetParents)
    as (patch & _ & Hkeeps & Hfresh & Hcreate).
  set (created := groupChannels categoryId (nextSnowflake guild) 1 turns)
    in Hcreate.
  set (guild1 := mkGuild _ _ _ _ _ _) in Hcreate.
  set (st1 := match turns with O => st | S _ => _ end) in Hcreate.
  assert (Hr : r = (Return tt, (guild1, saveState (guildId guild) st1))).
  { subst r. unfold createGroupChannels. rewrite Hcat.
    apply String.eqb_neq in Hname, Hid.
    cbn [truthy fst]. rewrite Hname, Hfind. cbn [negb]. rewrite Hid.
    cbn [negb]. fold turns. by rewrite Hcreate. }
  assert (Hlist :
    default [] (groupChannelsIdByGuildId (saveState (guildId guild) st1)
                  !! guildId guild)
    = default [] (groupChannelsIdByGuildId st !! guildId guild)
      ++ (id <$> created)).
  { rewrite saveState_groups. subst st1 created.
    destruct turns as [|turns'].
    - cbn [groupChannels fmap list_fmap]. by rewrite app_nil_r.
    - unfold setGroups. cbn [groupChannelsIdByGuildId].
      by rewrite lookup_insert_eq. }
  exists (map patch (cache guild)), created.
  subst guild' st'. rewrite Hr. cbn [fst snd].
  split; [done|]. split; [done|]. split; [done|].
  split.
  { clear -Hkeeps. induction (cache guild) as [|c l IH]; cbn [map];
      constructor; [apply Hkeeps|exact IH]. }
  split.
  { intros Hold. rewrite <- (map_id (cache guild)) at 2.
    apply map_ext_in. intros c Hc. apply Hfresh. intros m Hm.
    apply Hold; [by apply list_elem_of_In|done]. }
  split; [subst created; apply groupChannels_length|].
  split.
  { eapply Forall_impl; [apply groupChannels_shape|].
    by intros c (Hp & Ht & _). }
  split; [apply groupChannels_NoDup|].
  split; [exact Hlist|]. split; [done|]. split; [done|].
  split.
  - intros Hpos. unfold runningEvent.
    change (guildId guild1) with (guildId guild).
    destruct (groupChannelsIdByGuildId (saveState (guildId guild) st1)
                !! guildId guild) as [groupsId|] eqn:Hentry;
      cbn [default from_option] in Hlist; unfold Datatypes.id in Hlist.
    + apply negb_true_iff, Nat.eqb_neq. rewrite Hlist.
      rewrite length_app, length_fmap. subst created.
      rewrite groupChannels_length. subst turns. lia.
    + apply (f_equal length) in Hlist.
      rewrite length_app, length_fmap in Hlist. subst created.
      rewrite groupChannels_length in Hlist. subst turns.
      simpl in Hlist. lia.
  - intros Hle. subst created turns.
    by replace (Z.to_nat numberOfGroups) with 0%nat by lia.
Qed.

Lemma createGroupChannels_any_number_witness :
  let env := EnvService.mk (Some "evenement"%string) None in
  let guild :=
    Discord.mkGuild "guild"
      [ Discord.mkChannel "1" "evenement" Discord.GUILD_CATEGORY None ]
      100 [] [] (fun _ => false) in
  let st :=
    MassMultiplayerEventService.mkState ∅
      (ResourcesService.mkStore ∅ ∅ true) in
  runningEvent
    (fst (snd (createGroupChannels env 2 (guild, st))))
    (snd (snd (createGroupChannels env 2 (guild, st)))) = true.
Proof.
  intros env guild st.
  destruct (createGroupChannels_any_number env 2 guild st "evenement" "1")
    as (existing & created & H).
  - reflexivity.
  - discriminate.
  - reflexivity.
  - discriminate.
  - reflexivity.
  - reflexivity.
  - apply H. reflexivity.
Defined.

(** A creation that the platform refuses in the second turn: the channels
    of the first group exist and are listed, in memory only, and the call
    has failed. *)
Lemma createGroupChannels_refused_midway :
  let env := EnvService.mk (Some "evenement"%string) None in
  let guild :=
    Discord.mkGuild "guild"
      [ Discord.mkChannel "1" "evenement" Discord.GUILD_CATEGORY None ]
      100 [] []
      (fun request =>
         match request with
         | CreateChannel name_ _ => String.eqb name_ "voice-groupe-2"
         | _ => false
         end) in
  let st :=
    MassMultiplayerEventService.mkState ∅
      (ResourcesService.mkStore ∅ ∅ true) in
  let r := createGroupChannels env 3 (guild, st) in
  fst r = Throw DiscordAPIError /\
  id <$> cache (fst (snd r)) = ["1"; "100"; "101"; "102"]%string /\
  groupChannelsIdByGuildId (snd (snd r)) !! "guild"%string
  = Some ["100"; "101"]%string /\
  massMultiplayerEventsGroups (resources (snd (snd r))) !! "guild"%string
  = None.
Proof.
  intros env guild st r. repeat split; vm_compute; reflexivity.
Qed.


End CreateAndClean.

Section CleanAnyListTheorem.
Import ResourcesService Discord EnvService MassMultiplayerEventService.

(** X11. For any list of the guild, [cleanGroupChannels] asks the
    deletion of the identifiers of the list that are cached, in the order
    of the list, and of nothing else (an identifier that no longer
    resolves is skipped without an error); it sends nothing and leaves the
    cache to the platform.  It completes exactly when the platform takes
    every deletion asked: the list of the guild is then empty, so the
    event no longer runs, and the empty list is saved when the store takes
    the write, the store being unchanged otherwise.  When the platform
    refuses one of them the call fails with its rejection and the service
    is left as it was, the list still full. *)
Theorem cleanGroupChannels_any_list
    (guild : Guild) (st : state) (groupsId : list string) :
  groupChannelsIdByGuildId st !! guildId guild = Some groupsId ->
  let r := cleanGroupChannels (guild, st) in
  let guild' := fst (snd r) in
  let st' := snd (snd r) in
  let attempts :=
    List.filter (fun groupId => includes (id <$> cache guild) groupId)
                groupsId in
  deleted guild' = deleted guild ++ attempts /\
  cache guild' = cache guild /\
  sent guild' = sent guild /\
  (fst r = Return tt <->
   forall groupId,
     groupId ∈ attempts -> refuses guild (DeleteChannel groupId) = false) /\
  (fst r = Throw DiscordAPIError <->
   exists groupId,
     groupId ∈ attempts /\ refuses guild (DeleteChannel groupId) = true) /\
  (fst r = Return tt ->
   groupChannelsIdByGuildId st' !! guildId guild = Some [] /\
   runningEvent guild' st' = false /\
   resources st'
   = (if writable (resources st) then
        withGroups
          (<[guildId guild := []]>
             (massMultiplayerEventsGroups (resources st)))
          (resources st)
      else resources st)) /\
  (forall e, fst r = Throw e -> e = DiscordAPIError /\ st' = st).
Proof.
  intros Hgroups r guild' st' attempts.
  pose proof (cleanGroupChannels_unfold guild st groupsId Hgroups) as Hr.
  cbv zeta in Hr. fold attempts in Hr. fold r in Hr.
  subst guild' st'.
  destruct (existsb (fun groupId => refuses guild (DeleteChannel groupId))
                    attempts) eqn:Hex; rewrite Hr; cbn [fst snd deleted cache
                                                        sent].
  - apply existsb_exists in Hex as (groupId & Hin & Hrefused).
    apply list_elem_of_In in Hin.
    split; [done|]. split; [done|]. split; [done|].
    split; [split; [done|]|].
    { intros Hall. rewrite (Hall groupId Hin) in Hrefused. done. }
    split; [split; [eauto|done]|].
    split; [done|]. by intros e [= <-].
  - split; [done|]. split; [done|]. split; [done|].
    split; [split; [|done]|].
    { intros _ groupId Hin.
      destruct (refuses guild (DeleteChannel groupId)) eqn:Hrefused; [|done].
      by rewrite (existsb_some _ attempts groupId Hin Hrefused) in Hex. }
    split; [split; [done|]|].
    { intros (groupId & Hin & Hrefused).
      by rewrite (existsb_some _ attempts groupId Hin Hrefused) in Hex. }
    split; [|done]. intros _.
    rewrite saveState_cleared. cbn [groupChannelsIdByGuildId resources].
    split; [apply lookup_insert_eq|]. split; [|done].
    unfold runningEvent. cbn [groupChannelsIdByGuildId guildId].
    by rewrite lookup_insert_eq.
Qed.

Lemma cleanGroupChannels_any_list_witness :
  let guild :=
    Discord.mkGuild "guild"
      [ Discord.mkChannel "1" "evenement" Discord.GUILD_CATEGORY None;
        Discord.mkChannel "100" "groupe-1" Discord.GUILD_TEXT
          (Some "1"%string) ]
      102 [] [] (fun _ => false) in
  let st :=
    MassMultiplayerEventService.mkState
      {["guild"%string := ["100"; "101"]%string]}
      (ResourcesService.mkStore ∅ ∅ true) in
  deleted (fst (snd (cleanGroupChannels (guild, st)))) = ["100"%string].
Proof.
  intros guild st.
  destruct (cleanGroupChannels_any_list guild st ["100"; "101"]%string)
    as (Hdeleted & _).
  - reflexivity.
  - exact Hdeleted.
Defined.

Lemma init_lookup (guildIds : list string) (st : state) (guildId_ : string) :
  groupChannelsIdByGuildId (init guildIds st) !! guildId_
  = if bool_decide (guildId_ ∈ guildIds) then
      match massMultiplayerEventsGroups (resources st) !! guildId_ with
      | Some groupsId => Some groupsId
      | None => groupChannelsIdByGuildId st !! guildId_
      end
    else groupChannelsIdByGuildId st !! guildId_.
Proof.
  unfold init. revert st.
  induction guildIds as [|g guildIds IH]; intros st; [done|].
  cbn [fold_left]. rewrite IH.
  assert (Hres : resources (loadState g st) = resources st).
  { unfold loadState. by destruct (_ !! g). }
  rewrite Hres.
  assert (Hload : groupChannelsIdByGuildId (loadState g st) !! guildId_
                  = if bool_decide (guildId_ = g) then
                      match massMultiplayerEventsGroups (resources st)
                              !! guildId_ with
                      | Some groupsId => Some groupsId
                      | None => groupChannelsIdByGuildId st !! guildId_
                      end
                    else groupChannelsIdByGuildId st !! guildId_).
  { unfold loadState. destruct (decide (guildId_ = g)) as [->|Hne].
    - rewrite bool_decide_eq_true_2 by done.
      destruct (massMultiplayerEventsGroups (resources st) !! g); [|done].
      cbn [setGroups groupChannelsIdByGuildId]. apply lookup_insert_eq.
    - rewrite bool_decide_eq_false_2 by done.
      destruct (massMultiplayerEventsGroups (resources st) !! g); [|done].
      cbn [setGroups groupChannelsIdByGuildId].
      by rewrite lookup_insert_ne. }
  rewrite Hload.
  destruct (decide (guildId_ = g)) as [->|Hne].
  - rewrite (bool_decide_eq_true_2 (g ∈ g :: guildIds))
      by (apply elem_of_cons; auto).
    rewrite (bool_decide_eq_true_2 (g = g)) by done.
    destruct (bool_decide (g ∈ guildIds));
      by destruct (massMultiplayerEventsGroups (resources st) !! g).
  - rewrite (bool_decide_eq_false_2 (guildId_ = g)) by done.
    destruct (decide (guildId_ ∈ guildIds)) as [Hin|Hnin].
    + rewrite (bool_decide_eq_true_2 (guildId_ ∈ guildIds)) by done.
      rewrite (bool_decide_eq_true_2 (guildId_ ∈ g :: guildIds)); [done|].
      apply elem_of_cons. by right.
    + rewrite (bool_decide_eq_false_2 (guildId_ ∈ guildIds)) by done.
      rewrite (bool_decide_eq_false_2 (guildId_ ∈ g :: guildIds)); [done|].
      intros [?|?]%elem_of_cons; done.
Qed.

(** X12. The list of a guild survives a restart through its file: when
    [saveState] has written it, a service that starts with an empty table
    and loads the guilds of the client finds the same list again.  When
    the write failed, which [saveState] does not report, the restart gives
    back what the file held before, and no entry at all if there was no
    file; a guild that is not among those of the client gets no entry. *)
Theorem list_survives_restart
    (guildIds : list string) (guildId_ : string) (st : state)
    (groupsId : list string) :
  groupChannelsIdByGuildId st !! guildId_ = Some groupsId ->
  let restarted :=
    init guildIds (mkState ∅ (resources (saveState guildId_ st))) in
  (guildId_ ∈ guildIds -> writable (resources st) = true ->
   groupChannelsIdByGuildId restarted !! guildId_ = Some groupsId) /\
  (guildId_ ∈ guildIds -> writable (resources st) = false ->
   groupChannelsIdByGuildId restarted !! guildId_
   = massMultiplayerEventsGroups (resources st) !! guildId_) /\
  (guildId_ ∉ guildIds ->
   groupChannelsIdByGuildId restarted !! guildId_ = None).
Proof.
  intros Hgroups restarted. subst restarted.
  rewrite init_lookup. cbn [groupChannelsIdByGuildId resources].
  rewrite lookup_empty. split; [|split].
  - intros Hin Hw. rewrite bool_decide_eq_true_2 by done.
    by rewrite (saveState_saved _ _ _ Hgroups Hw).
  - intros Hin Hw. rewrite bool_decide_eq_true_2 by done.
    unfold saveState. rewrite Hgroups, Hw.
    by destruct (massMultiplayerEventsGroups (resources st) !! guildId_).
  - intros Hnin. by rewrite bool_decide_eq_false_2.
Qed.

Lemma list_survives_restart_witness :
  let st :=
    MassMultiplayerEventService.mkState
      {["guild"%string := ["100"; "101"]%string]}
      (ResourcesService.mkStore ∅ ∅ true) in
  groupChannelsIdByGuildId
    (init ["autre"; "guild"]%string
       (mkState ∅ (resources (saveState "guild" st))))
    !! "guild"%string
  = Some ["100"; "101"]%string.
Proof.
  intros st.
  apply (list_survives_restart ["autre"; "guild"]%string "guild" st
           ["100"; "101"]%string).
  - reflexivity.
  - apply elem_of_cons. right. apply elem_of_cons. left. reflexivity.
  - reflexivity.
Defined.

End CleanAnyListTheorem.

Section AdminAndBroadcast.
Import ResourcesService Discord EnvService MassMultiplayerEventService.

(** X13. The three ways the service has to tell the channels of the
    event agree.  A channel that [isAdminChannel] accepts is accepted by
    [isEventChannel].  With both names configured, the channel that
    [getAdminChannel] returns is cached and accepted by [isAdminChannel]
    (text channels being text-based for the library); and when a cached
    text channel is accepted by [isAdminChannel], [getAdminChannel] finds
    an admin channel. *)
Theorem admin_channel_checks_agree
    (isText : GuildChannel -> bool) (env : EnvService.t) (guild : Guild) :
  (forall ch,
     isAdminChannel isText env guild ch = true ->
     isEventChannel isText env guild ch = true) /\
  (forall ch,
     (forall c, type c = GUILD_TEXT -> isText c = true) ->
     truthy (massMultiplayerEventCategoryName env) = true ->
     truthy (massMultiplayerEventAdminChannelName env) = true ->
     getAdminChannel env guild = Return (Some ch) ->
     ch ∈ cache guild /\ isAdminChannel isText env guild ch = true) /\
  (forall ch,
     ch ∈ cache guild -> type ch = GUILD_TEXT ->
     isAdminChannel isText env guild ch = true ->
     exists found, getAdminChannel env guild = Return (Some found)).
Proof.
  split; [|split].
  - intros ch. unfold isAdminChannel, isEventChannel.
    destruct (isText ch); cbn [negb]; [|done].
    destruct (truthy (massMultiplayerEventCategoryName env)); cbn [negb];
      [|done].
    destruct (truthy (massMultiplayerEventAdminChannelName env)); cbn [negb];
      [|done].
    destruct (parent guild ch); [|done].
    by intros [? _]%andb_true_iff.
  - intros ch Htext Hcat Hadmin. unfold getAdminChannel, isAdminChannel.
    rewrite Hcat, Hadmin. cbn [negb andb]. intros [= Hfind].
    unfold cacheFind in Hfind. apply find_some in Hfind as [Hin Hch].
    cbv beta in Hch. split; [by apply list_elem_of_In|].
    destruct (parent guild ch); [|done].
    apply andb_true_iff in Hch as [[Hp Ht]%andb_true_iff Hn].
    apply bool_decide_eq_true_1 in Ht. rewrite (Htext ch Ht). cbn [negb].
    by rewrite Hp, Hn.
  - intros ch Hin Htype. unfold isAdminChannel, getAdminChannel.
    destruct (isText ch) eqn:HisText; cbn [negb]; [|done].
    destruct (truthy (massMultiplayerEventCategoryName env)) eqn:Hcat;
      cbn [negb]; [|done].
    destruct (truthy (massMultiplayerEventAdminChannelName env)) eqn:Hadmin;
      cbn [negb andb]; [|done].
    destruct (parent guild ch) as [p|] eqn:Hparent; [|done].
    intros [Hp Hn]%andb_true_iff.
    destruct (cacheFind _ guild) as [found|] eqn:Hfind.
    + by exists found.
    + exfalso. unfold cacheFind in Hfind.
      eapply find_none in Hfind; [|by apply list_elem_of_In].
      cbv beta in Hfind. rewrite Hparent, Hp, Hn in Hfind.
      by rewrite bool_decide_eq_true_2 in Hfind.
Qed.

End AdminAndBroadcast.

Lemma admin_channel_checks_agree_witness :
  let env := EnvService.mk (Some "evenement"%string) (Some "admin"%string) in
  let adminChannel :=
    Discord.mkChannel "2" "admin" Discord.GUILD_TEXT (Some "1"%string) in
  let guild :=
    Discord.mkGuild "guild"
      [ Discord.mkChannel "1" "evenement" Discord.GUILD_CATEGORY None;
        adminChannel ]
      100 [] [] (fun _ => false) in
  let isText :=
    fun c => bool_decide (Discord.type c = Discord.GUILD_TEXT) in
  MassMultiplayerEventService.isAdminChannel isText env guild adminChannel
  = true.
Proof.
  intros env adminChannel guild isText.
  apply (admin_channel_checks_agree isText env guild).
  - intros c Hc. unfold isText. by rewrite bool_decide_eq_true_2.
  - reflexivity.
  - reflexivity.
  - reflexivity.
Defined.

Section BroadcastOutcome.
Import ResourcesService Discord EnvService MassMultiplayerEventService.

(** When the messages of one content are all delivered. *)
Lemma forallb_delivers (guild : Guild) (payload_ : MessageOptions)
    (messages : list Message) :
  Forall (fun message => payload message = payload_) messages ->
  forallb (delivers guild) messages
  = if emptyContent payload_ then bool_decide (messages = [])
    else negb (existsb
                 (fun message =>
                    refuses guild (SendMessage (channelId message) payload_))
                 messages).
Proof.
  induction 1 as [|message messages Hpayload _ IH].
  - by destruct (emptyContent payload_).
  - cbn [forallb existsb]. rewrite IH. unfold delivers. rewrite Hpayload.
    destruct (emptyContent payload_); cbn [negb andb]; [done|].
    by destruct (refuses guild _).
Qed.

(** X14. [broadcastMessage] fails in four ways only.  With a type error
    exactly when the guild has no list of group channels, and with the
    configuration error exactly when it has one but neither the category
    name nor the admin channel name is set: no send is then called.
    Otherwise the send of the content is called for every target, and the
    call ends as these sends do together: it returns the messages, in
    order, exactly when each is delivered; it fails with the error of the
    library exactly when the content is the empty string and there is a
    target; and it fails with the rejection of the platform exactly when
    the content is not empty and the platform refuses the request for one
    of the targets.  In every case the calls are recorded after those made
    before, and no channel is created or deleted. *)
Theorem broadcastMessage_outcome
    (env : EnvService.t) (c : content) (excludeGroupIds : option (list string))
    (guild : Guild) (st : state) :
  let r := broadcastMessage env c excludeGroupIds (guild, st) in
  let configured :=
    truthy (massMultiplayerEventCategoryName env)
    || truthy (massMultiplayerEventAdminChannelName env) in
  let listed := groupChannelsIdByGuildId st !! guildId guild in
  let payload_ :=
    match c with OfString s => Content s | OfEmbed e => Embeds [e] end in
  exists asked : list Message,
    snd r
    = {| guildId := guildId guild; cache := cache guild;
         nextSnowflake := nextSnowflake guild; deleted := deleted guild;
         sent := sent guild ++ asked; refuses := refuses guild |} /\
    Forall (fun message => payload message = payload_) asked /\
    (fst r = Throw TypeError <-> listed = None) /\
    (fst r = Throw ConfigurationMissing <->
     is_Some listed /\ configured = false) /\
    (fst r = Throw TypeError \/ fst r = Throw ConfigurationMissing ->
     asked = []) /\
    (fst r = Return asked <->
     is_Some listed /\ configured = true /\
     forallb (delivers guild) asked = true) /\
    (forall messages, fst r = Return messages -> messages = asked) /\
    (fst r = Throw DiscordjsError <->
     is_Some listed /\ configured = true /\
     emptyContent payload_ = true /\ asked <> []) /\
    (fst r = Throw DiscordAPIError <->
     is_Some listed /\ configured = true /\
     emptyContent payload_ = false /\
     exists message,
       message ∈ asked /\
       refuses guild (SendMessage (channelId message) payload_) = true) /\
    (forall e,
       fst r = Throw e ->
       e = TypeError \/ e = ConfigurationMissing \/
       e = DiscordjsError \/ e = DiscordAPIError).
Proof.
  intros r configured listed payload_.
  assert (Hguild :
    guild = {| guildId := guildId guild; cache := cache guild;
               nextSnowflake := nextSnowflake guild; deleted := deleted guild;
               sent := sent guild ++ []; refuses := refuses guild |}).
  { rewrite app_nil_r. by destruct guild. }
  destruct (groupChannelsIdByGuildId st !! guildId guild) as [groupsId|]
    eqn:Hgroups; subst listed.
  2:{ exists []. subst r. unfold broadcastMessage. rewrite Hgroups.
      cbn [fst snd].
      split; [exact Hguild|]. split; [constructor|].
      split; [done|].
      split; [split; [done|intros [[? ?] _]; done]|].
      split; [done|].
      split; [split; [done|intros [[? ?] _]; done]|].
      split; [done|].
      split; [split; [done|intros [[? ?] _]; done]|].
      split; [split; [done|intros [[? ?] _]; done]|].
      intros e [= <-]. by left. }
  subst r.
  rewrite (broadcastMessage_unfold env c excludeGroupIds guild st groupsId
             Hgroups).
  fold payload_.
  assert (Hadmin :
    match getAdminChannel env guild with
    | Return _ => configured = true
    | Throw e => e = ConfigurationMissing /\ configured = false
    end).
  { unfold getAdminChannel. subst configured.
    destruct (truthy (massMultiplayerEventCategoryName env)),
      (truthy (massMultiplayerEventAdminChannelName env)); by cbn. }
  destruct (getAdminChannel env guild) as [adminChannel|e].
  2:{ destruct Hadmin as [-> Hconf]. exists []. cbn [fst snd]. rewrite Hconf.
      split; [exact Hguild|]. split; [constructor|].
      split; [done|].
      split; [split; [intros _; split; [by eexists|done]|done]|].
      split; [done|].
      split; [split; [done|intros (_ & ? & _); done]|].
      split; [done|].
      split; [split; [done|intros (_ & ? & _); done]|].
      split; [split; [done|intros (_ & ? & _); done]|].
      intros e [= <-]. right. by left. }
  cbv zeta.
  set (messages :=
         (fun ch => mkMessage (id ch) payload_) <$> (_ ++ option_list _)).
  assert (Hpayload : Forall (fun message => payload message = payload_)
                            messages).
  { subst messages. apply Forall_fmap, Forall_forall. by intros ch _. }
  clearbody messages. exists messages. cbn [fst snd]. rewrite Hadmin.
  rewrite (forallb_delivers guild payload_ messages Hpayload).
  split; [done|]. split; [exact Hpayload|].
  destruct (emptyContent payload_) eqn:Hempty.
  - destruct messages as [|message messages].
    + rewrite bool_decide_eq_true_2 by done.
      split; [done|].
      split; [split; [done|intros [_ ?]; done]|].
      split; [done|].
      split; [split; [intros _; split; [by eexists|done]|done]|].
      split; [by intros ? [= <-]|].
      split; [split; [done|intros (_ & _ & _ & ?); done]|].
      split; [split; [done|intros (_ & _ & ? & _); done]|].
      intros e ?. done.
    + rewrite bool_decide_eq_false_2 by done.
      split; [done|].
      split; [split; [done|intros [_ ?]; done]|].
      split; [intros [?|?]; done|].
      split; [split; [done|intros (_ & _ & ?); done]|].
      split; [done|].
      split; [split; [intros _; split; [by eexists|done]|done]|].
      split; [split; [done|intros (_ & _ & ? & _); done]|].
      intros e [= <-]. right. right. by left.
  - destruct (existsb _ messages) eqn:Hex; cbn [negb].
    + apply existsb_exists in Hex as (message & Hin & Hrefused).
      apply list_elem_of_In in Hin.
      split; [done|].
      split; [split; [done|intros [_ ?]; done]|].
      split; [intros [?|?]; done|].
      split; [split; [done|intros (_ & _ & ?); done]|].
      split; [done|].
      split; [split; [done|intros (_ & _ & ? & _); done]|].
      split; [split; [intros _; split; [by eexists|eauto]|done]|].
      intros e [= <-]. right. right. by right.
    + split; [done|].
      split; [split; [done|intros [_ ?]; done]|].
      split; [intros [?|?]; done|].
      split; [split; [intros _; split; [by eexists|done]|done]|].
      split; [by intros ? [= <-]|].
      split; [split; [done|intros (_ & _ & ? & _); done]|].
      split.
      { split; [done|]. intros (_ & _ & _ & message & Hin & Hrefused).
        by rewrite (existsb_some _ messages message Hin Hrefused) in Hex. }
      intros e ?. done.
Qed.

(** X15. Excluding nothing can be said in two ways, which give the same
    broadcast: no list of exclusions, or an empty one.  At the other end,
    when every identifier of the list of the guild is excluded, as when
    the list is empty after a clean-up, the broadcast reaches the admin
    channel alone, if there is one, and nobody otherwise. *)
Theorem broadcastMessage_exclusion_extremes
    (env : EnvService.t) (c : content) (guild : Guild) (st : state) :
  broadcastMessage env c None (guild, st)
  = broadcastMessage env c (Some []) (guild, st) /\
  (forall groupsId excluded adminChannel,
     groupChannelsIdByGuildId st !! guildId guild = Some groupsId ->
     Forall (fun groupId => groupId ∈ excluded) groupsId ->
     getAdminChannel env guild = Return adminChannel ->
     Discord.channelId
       <$> sent (snd (broadcastMessage env c (Some excluded) (guild, st)))
     = (Discord.channelId <$> sent guild)
       ++ option_list (id <$> adminChannel)).
Proof.
  split.
  - unfold broadcastMessage.
    destruct (groupChannelsIdByGuildId st !! guildId guild) as [groupsId|];
      [|done].
    assert (List.filter (fun id_ => negb (includes [] id_)) groupsId
            = groupsId) as Hall.
    { induction groupsId as [|groupId groupsId IH]; [done|].
      cbn [List.filter includes existsb negb]. f_equal. exact IH. }
    cbv beta iota zeta. by rewrite Hall.
  - intros groupsId excluded adminChannel Hgroups Hall Hadmin.
    rewrite (broadcastMessage_unfold env c (Some excluded) guild st groupsId
               Hgroups).
    rewrite Hadmin. cbn [snd sent].
    assert (List.filter (fun id_ => negb (includes excluded id_)) groupsId
            = []) as ->.
    { clear Hgroups.
      induction Hall as [|groupId groupsId Hin _ IH]; [done|].
      cbn [List.filter]. apply includes_elem_of in Hin.
      rewrite Hin. cbn [negb]. exact IH. }
    unfold textChannels. cbn [fold_left app].
    rewrite fmap_app, <- list_fmap_compose. f_equal.
    by destruct adminChannel.
Qed.

Lemma broadcastMessage_exclusion_extremes_witness :
  let env := EnvService.mk (Some "evenement"%string) (Some "admin"%string) in
  let adminChannel :=
    Discord.mkChannel "2" "admin" Discord.GUILD_TEXT (Some "1"%string) in
  let guild :=
    Discord.mkGuild "guild"
      [ Discord.mkChannel "1" "evenement" Discord.GUILD_CATEGORY None;
        adminChannel;
        Discord.mkChannel "100" "groupe-1" Discord.GUILD_TEXT
          (Some "1"%string) ]
      102 [] [] (fun _ => false) in
  let st :=
    MassMultiplayerEventService.mkState
      {["guild"%string := ["100"; "101"]%string]}
      (ResourcesService.mkStore ∅ ∅ true) in
  Discord.channelId
    <$> sent (snd (broadcastMessage env (OfString "bonjour")
                     (Some ["101"; "100"]%string) (guild, st)))
  = ["2"%string].
Proof.
  intros env adminChannel guild st.
  apply (proj2 (broadcastMessage_exclusion_extremes env (OfString "bonjour")
                  guild st)
           ["100"; "101"]%string ["101"; "100"]%string (Some adminChannel)).
  - reflexivity.
  - repeat constructor; apply includes_elem_of; reflexivity.
  - reflexivity.
Defined.

End BroadcastOutcome.

(** * Properties of the other services *)

Section ChaosBagFacts.
Import ChaosBagService.

(** X16. A token is always drawn from the bag when the draw is an index
    of the bag: [pullToken] then returns a text that is not empty, the
    emoji of the token when the emoji service has one and the label of the
    token otherwise, every token of the bag having a label.  Drawn at the
    length of the bag, which is the upper bound the random service is
    given, it returns [undefined] unless the emoji service answers for
    [undefined]. *)
Theorem pullToken_in_the_bag
    (getEmoji : option string -> option string) (randomInt : Z) :
  (0 <= randomInt < Z.of_nat (length NIGHT_OF_THE_ZEALOT_STANDARD_BAG) ->
   exists tokenString text,
     index NIGHT_OF_THE_ZEALOT_STANDARD_BAG randomInt = Some tokenString /\
     pullToken getEmoji randomInt = Some text /\
     text <> ""%string /\
     (truthy (getEmoji (Some tokenString)) = true ->
      getEmoji (Some tokenString) = Some text) /\
     (truthy (getEmoji (Some tokenString)) = false ->
      (tokenString, text) ∈ TOKENS)) /\
  (truthy (getEmoji None) = false ->
   pullToken getEmoji (Z.of_nat (length NIGHT_OF_THE_ZEALOT_STANDARD_BAG))
   = None).
Proof.
  split.
  - intros Hrange.
    destruct (index_in_range NIGHT_OF_THE_ZEALOT_STANDARD_BAG randomInt Hrange)
      as (tokenString & Hindex & Hin).
    exists tokenString. unfold pullToken. rewrite Hindex. cbv zeta.
    destruct (truthy (getEmoji (Some tokenString))) eqn:Hemoji.
    + destruct (getEmoji (Some tokenString)) as [text|] eqn:Htext; [|done].
      exists text. repeat split; try done.
      cbn [truthy] in Hemoji. apply negb_true_iff, String.eqb_neq in Hemoji.
      done.
    + assert (Hlabel : forall t, t ∈ NIGHT_OF_THE_ZEALOT_STANDARD_BAG ->
                exists text, token (Some t) = Some text /\
                             text <> ""%string /\ (t, text) ∈ TOKENS).
      { intros t Ht. unfold NIGHT_OF_THE_ZEALOT_STANDARD_BAG in Ht.
        repeat (apply elem_of_cons in Ht as [->|Ht];
                [eexists; split; [reflexivity|];
                 split; [discriminate|];
                 apply list_elem_of_In; cbn; tauto|]).
        by apply elem_of_nil in Ht. }
      destruct (Hlabel tokenString Hin) as (text & Htoken & Hne & Hentry).
      exists text. repeat split; try done.
  - intros Hemoji. unfold pullToken.
    change (index NIGHT_OF_THE_ZEALOT_STANDARD_BAG
              (Z.of_nat (length NIGHT_OF_THE_ZEALOT_STANDARD_BAG)))
      with (@None string).
    cbv zeta. by rewrite Hemoji.
Qed.

Lemma pullToken_in_the_bag_witness :
  exists text,
    pullToken (fun _ => None) 14 = Some text /\ text <> ""%string.
Proof.
  destruct (proj1 (pullToken_in_the_bag (fun _ => None) 14))
    as (tokenString & text & Hindex & Hpull & Hne & _).
  - cbn. lia.
  - exists text. split; assumption.
Defined.

End ChaosBagFacts.

Section CardOfTheDayFacts.
Import CardService CardOfTheDayService.





(** A pin that the platform rejects: the card "01030" is in the channel,
    it is not recorded, and the next call, with the same draw, sends it
    again. *)
Lemma card_of_the_day_sent_twice :
  let cards :=
    [ mkCard "01016" ".45 Automatique" ".45 Automatic" "guardian" None
        "asset" false (Some "Main"%string) (Some 0);
      mkCard "01030" "Dr. Milan Christopher" "Dr. Milan Christopher"
        "seeker" None "asset" false (Some "Allié"%string) (Some 0) ] in
  let st := mkState ["01016"%string] None true in
  let pinRejected :=
    fun awaited => match awaited with Pin => true | _ => false end in
  let first :=
    sendCardOfTheDay (fun s => s) pinRejected true (Some "42"%string) true
      cards 0 st in
  let second :=
    sendCardOfTheDay (fun s => s) (fun _ => false) true (Some "42"%string)
      true cards 0 (snd (snd first)) in
  fst first = Throw DiscordAPIError /\
  code <$> fst (snd first) = Some "01030"%string /\
  cardCodesSent (snd (snd first)) = ["01016"%string] /\
  code <$> fst (snd second) = Some "01030"%string /\
  cardCodesSent (snd (snd second)) = ["01016"; "01030"]%string.
Proof.
  intros cards st pinRejected first second.
  repeat split; vm_compute; reflexivity.
Qed.

(** X18. The codes given to [addCardSent] are appended, in order, to the
    codes already sent, and written to the file: a service that loads the
    file afterwards holds the same codes.  When the file system refuses
    the write, which the service does not report, the file keeps what it
    held and a later load gives that back. *)
Theorem addCardSent_then_load (codes : list string) (st : state) :
  let st' := addCardSent codes st in
  cardCodesSent st' = cardCodesSent st ++ codes /\
  (writable st = true ->
   cardCodesSent (loadCardCodesSent (mkState [] (saved st') (writable st')))
   = cardCodesSent st ++ codes) /\
  (writable st = false ->
   saved st' = saved st /\
   cardCodesSent (loadCardCodesSent (mkState [] (saved st') (writable st')))
   = default [] (saved st)).
Proof.
  intros st'.
  assert (Hfold : forall sent,
            fold_left (fun sent code_ => sent ++ [code_]) codes sent
            = sent ++ codes).
  { induction codes as [|c codes IH]; intros sent; cbn [fold_left].
    - by rewrite app_nil_r.
    - rewrite IH, <- app_assoc. reflexivity. }
  subst st'. unfold addCardSent, saveCardCodesSent, loadCardCodesSent.
  cbn [writable cardCodesSent saved]. rewrite Hfold.
  destruct (writable st) eqn:Hw; cbn [writable cardCodesSent saved].
  - split; [done|]. split; [done|]. intros Habs. discriminate Habs.
  - split; [done|]. split; [intros Habs; discriminate Habs|].
    intros _. split; [done|]. by destruct (saved st).
Qed.

Lemma addCardSent_then_load_witness :
  let st := mkState ["01016"%string] None true in
  cardCodesSent
    (loadCardCodesSent
       (mkState [] (saved (addCardSent ["01030"; "01031"]%string st))
          (writable (addCardSent ["01030"; "01031"]%string st))))
  = ["01016"; "01030"; "01031"]%string.
Proof.
  intros st.
  apply (addCardSent_then_load ["01030"; "01031"]%string st). reflexivity.
Defined.

End CardOfTheDayFacts.

Section DeckFacts.
Import CardService DeckService.

Lemma numberOfCard_from (cards : list CardInDeck) (n : Z) :
  fold_left (fun sum c => sum + quantity c) cards n
  = n + numberOfCard cards.
Proof.
  unfold numberOfCard. revert n.
  induction cards as [|c cards IH]; intros n; cbn [fold_left]; [lia|].
  rewrite (IH (n + quantity c)), (IH (0 + quantity c)). lia.
Qed.

Lemma numberOfCard_cons (c : CardInDeck) (cards : list CardInDeck) :
  numberOfCard (c :: cards) = quantity c + numberOfCard cards.
Proof.
  unfold numberOfCard at 1. cbn [fold_left]. rewrite numberOfCard_from. lia.
Qed.

Lemma numberOfCard_permutation (cards cards' : list CardInDeck) :
  cards ≡ₚ cards' -> numberOfCard cards = numberOfCard cards'.
Proof.
  induction 1; rewrite ?numberOfCard_cons; lia.
Qed.

Lemma insert_sorted_permutation {A} (compareFn : A -> A -> Z) (x : A)
    (l : list A) :
  insert_sorted compareFn x l ≡ₚ x :: l.
Proof.
  induction l as [|y l IH]; cbn [insert_sorted]; [done|].
  destruct (compareFn x y <=? 0); [done|].
  rewrite IH. apply Permutation_swap.
Qed.

Lemma sort_permutation {A} (compareFn : A -> A -> Z) (l : list A) :
  Js.sort compareFn l ≡ₚ l.
Proof.
  induction l as [|x l IH]; cbn [Js.sort]; [done|].
  by rewrite insert_sorted_permutation, IH.
Qed.

(** Filters of which each card passes exactly one share the cards, and
    their quantities, between them. *)
Lemma numberOfCard_shared (filters : list (CardInDeck -> bool))
    (cards : list CardInDeck) :
  (forall c, length (List.filter (fun f => f c) filters) = 1%nat) ->
  foldr Z.add 0 (map (fun f => numberOfCard (List.filter f cards)) filters)
  = numberOfCard cards.
Proof.
  intros Hone.
  induction cards as [|c cards IH].
  - clear Hone. induction filters as [|f filters IHf]; [done|].
    cbn [map foldr]. rewrite IHf. reflexivity.
  - assert (Hstep : forall fs : list (CardInDeck -> bool),
              foldr Z.add 0
                (map (fun f => numberOfCard (List.filter f (c :: cards))) fs)
              = quantity c
                * Z.of_nat (length (List.filter (fun f => f c) fs))
                + foldr Z.add 0
                    (map (fun f => numberOfCard (List.filter f cards)) fs)).
    { intros fs. induction fs as [|f fs IHf]; [cbn; lia|].
      cbn [map foldr]. rewrite IHf. cbn [List.filter].
      destruct (f c); cbn [length]; rewrite ?numberOfCard_cons; lia. }
    rewrite Hstep, IH, Hone, numberOfCard_cons. lia.
Qed.

Lemma bool_decide_Some_eqb (s k : string) :
  bool_decide (Some s = Some k) = String.eqb s k.
Proof.
  destruct (String.eqb_spec s k) as [->|Hne].
  - by apply bool_decide_eq_true_2.
  - apply bool_decide_eq_false_2. congruence.
Qed.

(** X19. In the description of a deck no card is listed under two
    categories: a card passes the filter of at most one of the six
    categories.  A permanent card is listed under "Permanent" only, and a
    card is listed nowhere exactly when it is not permanent and its type
    is none of asset, event, skill, treachery and enemy. *)
Theorem deck_categories_are_exclusive (c : CardInDeck) :
  let listedUnder :=
    map title (List.filter (fun category => filter category c)
                           DECK_CATEGORIES) in
  (length listedUnder <= 1)%nat /\
  (permanent (card c) = true -> listedUnder = ["Permanent"%string]) /\
  (listedUnder = [] <->
   permanent (card c) = false /\
   type_code (card c)
     ∉ ["asset"; "event"; "skill"; "treachery"; "enemy"]%string).
Proof.
  cbv zeta. unfold DECK_CATEGORIES.
  cbn [List.filter filter]. unfold typeIs.
  generalize (type_code (card c)) as t. intros t.
  rewrite !elem_of_cons, elem_of_nil.
  destruct (permanent (card c)); cbn [negb].
  - rewrite !andb_false_r. cbn [map title length].
    split; [lia|]. split; [done|]. split; [done|]. by intros [? _].
  - rewrite !andb_true_r.
    destruct (String.eqb_spec t "asset") as [->|H1].
    { cbn. split; [lia|]. split; [done|]. split; [done|].
      intros [_ H]. destruct H; auto. }
    destruct (String.eqb_spec t "event") as [->|H2].
    { cbn. split; [lia|]. split; [done|]. split; [done|].
      intros [_ H]. destruct H; auto. }
    destruct (String.eqb_spec t "skill") as [->|H3].
    { cbn. split; [lia|]. split; [done|]. split; [done|].
      intros [_ H]. destruct H; auto. }
    destruct (String.eqb_spec t "treachery") as [->|H4].
    { cbn. split; [lia|]. split; [done|]. split; [done|].
      intros [_ H]. destruct H; auto. }
    destruct (String.eqb_spec t "enemy") as [->|H5].
    { cbn. split; [lia|]. split; [done|]. split; [done|].
      intros [_ H]. destruct H; auto 6. }
    cbn. split; [lia|]. split; [done|]. split; [|done].
    intros _. split; [done|]. tauto.
Qed.

End DeckFacts.

Lemma deck_categories_are_exclusive_witness :
  map DeckService.title
    (List.filter
       (fun category =>
          DeckService.filter category
            (DeckService.mkCardInDeck
               (CardService.mkCard "01694" "Sur la brèche" "On Your Own"
                  "survivor" None "asset" true None (Some 3))
               1))
       DeckService.DECK_CATEGORIES)
  = ["Permanent"%string].
Proof.
  apply (deck_categories_are_exclusive
           (DeckService.mkCardInDeck
              (CardService.mkCard "01694" "Sur la brèche" "On Your Own"
                 "survivor" None "asset" true None (Some 3))
              1)).
  reflexivity.
Defined.

Section DeckSlots.
Import CardService DeckService.

(** X20. Under "Soutiens" every asset is listed once: each card passes
    the filter of exactly one of the nine slot subcategories, "Autre"
    taking the cards without a slot or with a slot that is none of the
    eight named ones.  So the number shown beside "Soutiens", the sum of
    the quantities of the cards of the category, is the sum of the
    quantities listed under its subcategories, and sorting the cards by
    name does not change it. *)
Theorem asset_slots_share_the_assets
    (gt : string -> string -> bool) (cardsInDeck : list CardInDeck)
    (soutiens : DeckCategory) (slots : list DeckCategory) :
  head DECK_CATEGORIES = Some soutiens ->
  subcategories soutiens = Some slots ->
  let listed := cardsInCategory gt soutiens cardsInDeck in
  length slots = 9%nat /\
  (forall c,
     length (List.filter (fun sub => filter sub c) slots) = 1%nat) /\
  foldr Z.add 0
    (map (fun sub => numberOfCard (List.filter (filter sub) listed)) slots)
  = numberOfCard listed /\
  numberOfCard listed
  = numberOfCard (List.filter (filter soutiens) cardsInDeck).
Proof.
  intros Hhead Hslots listed.
  assert (Hone : forall c,
            length (List.filter (fun sub => filter sub c) slots) = 1%nat).
  { intros c. injection Hhead as <-. injection Hslots as <-.
    cbn [List.filter filter]. unfold slotIs.
    destruct (slot (card c)) as [s|]; [|reflexivity].
    rewrite !bool_decide_Some_eqb. unfold SLOTS, includes. cbn [existsb].
    destruct (String.eqb_spec s "Main") as [->|H1]; [reflexivity|].
    destruct (String.eqb_spec s "Main x2") as [->|H2]; [reflexivity|].
    destruct (String.eqb_spec s "Accessoire") as [->|H3]; [reflexivity|].
    destruct (String.eqb_spec s "Corps") as [->|H4]; [reflexivity|].
    destruct (String.eqb_spec s "Allié") as [->|H5]; [reflexivity|].
    destruct (String.eqb_spec s "Arcane") as [->|H6]; [reflexivity|].
    destruct (String.eqb_spec s "Arcane x2") as [->|H7]; [reflexivity|].
    destruct (String.eqb_spec s "Tarot") as [->|H8]; reflexivity. }
  split.
  { injection Hhead as <-. by injection Hslots as <-. }
  split; [exact Hone|]. split.
  - rewrite <- (numberOfCard_shared (map filter slots) listed).
    + by rewrite map_map.
    + intros c. rewrite <- (Hone c). clear.
      induction slots as [|sub slots IH]; [done|].
      cbn [map List.filter]. destruct (filter sub c); cbn [length]; lia.
  - subst listed. unfold cardsInCategory.
    apply numberOfCard_permutation, sort_permutation.
Qed.

Lemma asset_slots_share_the_assets_witness :
  let pistol :=
    mkCardInDeck
      (mkCard "01016" ".45 Automatique" ".45 Automatic" "guardian" None
         "asset" false (Some "Main"%string) (Some 0)) 2 in
  let key :=
    mkCardInDeck
      (mkCard "02020" "Clef de Ys" "Key of Ys" "neutral" None
         "asset" false (Some "Relique"%string) (Some 5)) 1 in
  exists soutiens,
    numberOfCard
      (cardsInCategory (fun a b => String.ltb b a) soutiens [key; pistol])
    = numberOfCard (List.filter (filter soutiens) [key; pistol]).
Proof.
  intros pistol key.
  destruct (head DECK_CATEGORIES) as [soutiens|] eqn:Hhead; [|discriminate].
  destruct (subcategories soutiens) as [slots|] eqn:Hslots.
  - exists soutiens.
    apply (asset_slots_share_the_assets (fun a b => String.ltb b a)
             [key; pistol] soutiens slots Hhead Hslots).
  - injection Hhead as <-. discriminate Hslots.
Defined.

End DeckSlots.

Section ParseFacts.
Import CommandParser.
Context {A : Type} `{EqDecision A} (space : A).

Lemma firstField_app (word rest : list A) :
  space ∉ word ->
  firstField space (word ++ space :: rest) = word /\
  firstField space word = word.
Proof.
  induction word as [|a word IH]; intros Hword; cbn [firstField app].
  - by rewrite decide_True.
  - rewrite not_elem_of_cons in Hword. destruct Hword as [Ha Hword].
    rewrite !decide_False by congruence.
    destruct (IH Hword) as [H1 H2]. rewrite H1, H2. by split.
Qed.

Lemma startsWith_app (needle rest : list A) :
  startsWith (needle ++ rest) needle = true.
Proof.
  induction needle as [|b needle IH]; cbn [startsWith app].
  - by destruct rest.
  - by rewrite decide_True.
Qed.

Lemma indexOf_after_prefix (p first : A) (word rest : list A) :
  first <> p ->
  indexOf (p :: (first :: word) ++ rest) (first :: word) = 1.
Proof.
  intros Hp.
  change (indexOf (p :: (first :: word) ++ rest) (first :: word))
    with (if startsWith (p :: (first :: word) ++ rest) (first :: word)
          then 0
          else let i := indexOf ((first :: word) ++ rest) (first :: word) in
               if i <? 0 then -1 else i + 1).
  assert (startsWith (p :: (first :: word) ++ rest) (first :: word) = false)
    as ->.
  { cbn [startsWith]. by rewrite decide_False by congruence. }
  assert (indexOf ((first :: word) ++ rest) (first :: word) = 0) as ->;
    [|reflexivity].
  assert (Hstart : startsWith ((first :: word) ++ rest) (first :: word) = true)
    by apply startsWith_app.
  cbn [app] in *. cbn [indexOf]. by rewrite Hstart.
Qed.

(** X21. [handleCommand] reads a message made of the prefix character,
    the name of a command and, after a space, its arguments, back into
    this name and these arguments, and a message without arguments into
    the name and the empty string; this when the name has no space and
    does not begin with the prefix character, which is not a space
    itself. *)
Theorem handleCommand_reads_name_and_arguments
    (p first : A) (rest arguments : list A) :
  p <> space ->
  first <> p ->
  space ∉ first :: rest ->
  let name := first :: rest in
  cmd space (p :: name ++ space :: arguments) = name /\
  args space (p :: name ++ space :: arguments) = arguments /\
  cmd space (p :: name) = name /\
  args space (p :: name) = [].
Proof.
  intros Hp Hfirst Hname name.
  destruct (firstField_app name arguments Hname) as [Hfield Hword].
  assert (Hcmd : cmd space (p :: name ++ space :: arguments) = name).
  { unfold cmd. cbn [firstField]. rewrite decide_False by done.
    rewrite Hfield. reflexivity. }
  assert (Hcmd' : cmd space (p :: name) = name).
  { unfold cmd. cbn [firstField]. rewrite decide_False by done.
    rewrite Hword. reflexivity. }
  split; [done|]. split; [|split; [done|]].
  - unfold args. rewrite Hcmd. subst name.
    rewrite (indexOf_after_prefix p first rest (space :: arguments) Hfirst).
    unfold substring.
    replace (Z.to_nat (1 + Z.of_nat (length (first :: rest)) + 1))
      with (S (length (first :: rest) + 1)) by lia.
    cbn [drop]. rewrite drop_app_add'; [|done]. reflexivity.
  - unfold args. rewrite Hcmd'. subst name.
    pose proof (indexOf_after_prefix p first rest [] Hfirst) as Hindex.
    rewrite app_nil_r in Hindex. rewrite Hindex.
    unfold substring.
    replace (Z.to_nat (1 + Z.of_nat (length (first :: rest)) + 1))
      with (S (length (first :: rest) + 1)) by lia.
    cbn [drop]. apply drop_ge. lia.
Qed.

End ParseFacts.

Lemma handleCommand_reads_name_and_arguments_witness :
  (* "!carte 01016": 33 is "!", 32 the space *)
  CommandParser.args 32%N
    (33 :: [99; 97; 114; 116; 101] ++ 32 :: [48; 49; 48; 49; 54])%N
  = [48; 49; 48; 49; 54]%N.
Proof.
  apply (handleCommand_reads_name_and_arguments 32%N 33%N 99%N
           [97; 114; 116; 101]%N [48; 49; 48; 49; 54]%N).
  - discriminate.
  - discriminate.
  - rewrite !not_elem_of_cons. repeat split; try discriminate.
    apply not_elem_of_nil.
Defined.

Section StartOutcomes.
Import ResourcesService BlobGameService.

Lemma index_out_of_range {A} (a : list A) (i : Z) :
  ~ 0 <= i < Z.of_nat (length a) -> index a i = None.
Proof.
  intros Hi. unfold index. destruct (Z.ltb_spec i 0); [done|].
  apply lookup_ge_None. lia.
Qed.

(** X22. [startNewGame] makes the new game the current one before it
    chooses the story and saves: whatever the call returns, the guild has
    afterwards a current game with the given number of players, no damage
    and no clue.  The call completes exactly when the draw is an index of
    the possible stories and the store takes the write; it throws on the
    story exactly when the draw is not such an index, the current game
    then having no story; and it fails on the write exactly when the draw
    is good and the store refuses, the store being unchanged in both
    failures. *)
Theorem startNewGame_outcomes
    (guildId : string) (players now randomInt : Z) (st : state) :
  let r := startNewGame guildId players now randomInt st in
  let drawn := 0 <= randomInt < 4 in
  getBlobTotalHealth guildId (snd r) = Some (players * 15) /\
  getNumberOfDamageDealtToBlob guildId (snd r) = Some 0 /\
  getNumberOfCluesOnAct1 guildId (snd r) = Some 0 /\
  (fst r = Return tt <-> drawn /\ writable (resources st) = true) /\
  (fst r = Throw (NotAPossibleStory "undefined") <-> ~ drawn) /\
  (fst r = Throw WriteFailed <-> drawn /\ writable (resources st) = false) /\
  (~ drawn -> getStory guildId (snd r) = None) /\
  (fst r <> Return tt -> resources (snd r) = resources st).
Proof.
  intros r drawn. subst r. unfold startNewGame.
  unfold getBlobTotalHealth, getNumberOfDamageDealtToBlob,
    getNumberOfCluesOnAct1, getStory.
  destruct (decide (0 <= randomInt < 4)) as [Hin|Hout].
  - destruct (index_in_range BlobGame.POSSIBLE_STORIES randomInt)
      as (narrative & Hindex & Hnarrative); [simpl; lia|].
    rewrite Hindex, (chooseStory_possible _ _ Hnarrative).
    rewrite repositorySave_currentGame.
    cbn [setCurrentGame getBlobGameRepository currentGameByGuildId].
    rewrite lookup_insert_eq.
    set (st1 := setCurrentGame guildId _ _).
    assert (Hres : resources st1 = resources st) by reflexivity.
    split; [reflexivity|]. split; [reflexivity|]. split; [reflexivity|].
    destruct (writable (resources st)) eqn:Hw.
    + rewrite repositorySave_writable by (by rewrite Hres). cbn [fst snd].
      split; [by split|]. split; [by split|]. split; [|split; [done|done]].
      split; [done|]. by intros [_ ?].
    + rewrite repositorySave_readonly by (by rewrite Hres). cbn [fst snd].
      split; [split; [done|by intros [_ ?]]|].
      split; [by split|]. split; [by split|]. split; done.
  - rewrite index_out_of_range by (simpl; lia). cbn [fst snd].
    cbn [setCurrentGame getBlobGameRepository currentGameByGuildId].
    rewrite lookup_insert_eq.
    split; [reflexivity|]. split; [reflexivity|]. split; [reflexivity|].
    split; [split; [done|by intros [? _]]|].
    split; [by split|].
    split; [split; [done|by intros [? _]]|].
    split; done.
Qed.

Lemma startNewGame_outcomes_witness :
  let st := mkState ∅ ∅ (mkStore ∅ ∅ true) in
  getStory "guild" (snd (startNewGame "guild" 3 1000 4 st)) = None /\
  getBlobTotalHealth "guild" (snd (startNewGame "guild" 3 1000 4 st))
  = Some (3 * 15).
Proof.
  intros st.
  destruct (startNewGame_outcomes "guild" 3 1000 4 st)
    as (Hhealth & _ & _ & _ & _ & _ & Hstory & _).
  split; [apply Hstory; lia|exact Hhealth].
Defined.

End StartOutcomes.

Section CardSearchFacts.
Import CardService.

Lemma prefix_refl (s : string) : String.prefix s s = true.
Proof.
  induction s as [|a s IH]; cbn [String.prefix]; [done|].
  by destruct (Ascii.ascii_dec a a).
Qed.

Lemma stringIncludes_refl (s : string) : stringIncludes s s = true.
Proof.
  unfold stringIncludes. destruct s as [|a s]; [done|].
  cbn [String.index]. by rewrite prefix_refl.
Qed.

Lemma stringIncludes_empty (s : string) : stringIncludes s "" = true.
Proof. unfold stringIncludes. by destruct s. Qed.

(** X23. A search of cards by code returns exactly the cards of the data
    that have this code.  A search by title finds every card under its own
    French or English name, in any letter case, since both sides are
    lowered; and the empty title, which any name contains, returns all
    the cards. *)
Theorem getCards_finds
    (toLowerCase : string -> string) (frenchCards : list ArkhamDBCard) :
  (forall code_,
     exists found,
       getCards toLowerCase frenchCards (Some code_) BY_CODE = Return found /\
       forall c, c ∈ found <-> c ∈ frenchCards /\ code c = code_) /\
  (forall search c,
     c ∈ frenchCards ->
     toLowerCase search = toLowerCase (name c) \/
     toLowerCase search = toLowerCase (real_name c) ->
     exists found,
       getCards toLowerCase frenchCards (Some search) BY_TITLE = Return found
       /\ c ∈ found) /\
  (toLowerCase "" = ""%string ->
   getCards toLowerCase frenchCards (Some ""%string) BY_TITLE
   = Return frenchCards).
Proof.
  split; [|split].
  - intros code_. eexists. split; [reflexivity|]. intros c.
    rewrite !list_elem_of_In, filter_In. split.
    + intros [Hin Hcode]. apply bool_decide_eq_true_1 in Hcode.
      split; [done|congruence].
    + intros [Hin <-]. split; [done|]. by apply bool_decide_eq_true_2.
  - intros search c Hin Hname. eexists. split; [reflexivity|].
    apply list_elem_of_In, filter_In. split; [by apply list_elem_of_In|].
    unfold matchCard. apply orb_true_iff.
    destruct Hname as [->| ->]; [left|right]; apply stringIncludes_refl.
  - intros Hlower. cbn [getCards]. f_equal.
    induction frenchCards as [|c cards IH]; [done|].
    cbn [List.filter]. unfold matchCard at 1.
    rewrite Hlower, stringIncludes_empty. cbn [orb]. by rewrite IH.
Qed.

Lemma getCards_finds_witness :
  let pistol :=
    mkCard "01016" ".45 Automatique" ".45 Automatic" "guardian" None
      "asset" false (Some "Main"%string) (Some 0) in
  exists found,
    getCards (fun s => s) [pistol] (Some ".45 Automatic"%string) BY_TITLE
    = Return found /\ pistol ∈ found.
Proof.
  intros pistol.
  apply (getCards_finds (fun s => s) [pistol]).
  - apply list_elem_of_singleton. reflexivity.
  - right. reflexivity.
Defined.

End CardSearchFacts.
